(** * Cashbook ledger: the entity store, the balance engine and backup/restore

    A shallow embedding of [src/App.tsx] and [src/types.ts].  The React
    component keeps three collections (companies, customers, transactions)
    in [useState] cells; every handler reads the current cells and calls the
    setters.  Here the cells are the fields of one record [AppState] and a
    handler is a function from the state (and from what the browser supplies:
    a fresh identifier, today's date, the current instant and the time zone,
    the answer to a [confirm] dialog) to the next state.

    Numbers.  A JavaScript number is an IEEE 754 binary64 value and is
    modelled by Rocq's primitive [float], whose [+] and [-] round to nearest,
    ties to even, as JavaScript's do: fractions, rounding, the infinities,
    [NaN] and the negative zero are all there.  What the program computes on
    fractions is therefore what is stated below, and the laws of exact
    arithmetic are used only where they are proved: on whole numbers whose
    absolute values add up to less than [2 ^ 53]. *)

From Stdlib Require Import ZArith List String Ascii Bool Lia Permutation Sorted Floats.
Import ListNotations.
Local Open Scope string_scope.
Local Open Scope Z_scope.
Local Open Scope list_scope.

(* ================================================================= *)
(** ** The JavaScript values and built-ins the program uses *)

Module JS.

Definition number : Type := float.

Definition NaN : number := nan.
Definition Infinity : number := infinity.

(** The number nearest to the integer [z] (ties to even): [z] itself
    whenever [z] is a value of the format, as every integer up to [2 ^ 53]
    in absolute value is. *)
Definition Num (z : Z) : number :=
  SF2Prim (binary_normalize prec emax z 0 false).

(** [a + b] and [a - b]. *)
Definition add (a b : number) : number := PrimFloat.add a b.
Definition sub (a b : number) : number := PrimFloat.sub a b.

(** ToBoolean on a number: [+0], [-0] and [NaN] are falsy. *)
Definition truthy (v : number) : bool :=
  negb (is_nan v || is_zero v).

(** [v || 0]. *)
Definition orZero (v : number) : number :=
  if truthy v then v else Num 0.

(** ToBoolean on a string: only the empty string is falsy. *)
Definition truthyStr (s : string) : bool :=
  negb (String.eqb s EmptyString).

(** ToBoolean on [string | null]. *)
Definition truthyRef (r : option string) : bool :=
  match r with
  | Some s => truthyStr s
  | None => false
  end.

(** [a === b] where [b : string | null]. *)
Definition strictEq (a : string) (b : option string) : bool :=
  match b with
  | Some s => String.eqb a s
  | None => false
  end.

(** *** [Number(text)]

    ECMAScript's StringToNumber.  White space is trimmed and the empty text
    is [+0].  A decimal literal is an optional sign followed by [Infinity]
    or by digits with an optional fraction and an optional exponent
    ([12], [12.50], [.5], [1.], [1e3], [1.5E-7]); a literal [0x..], [0o..]
    or [0b..] takes no sign.  The value of the literal is rounded once, to
    the nearest number, ties to even.  Every other text is [NaN].  (Texts
    are taken as ASCII: the white space beyond ASCII is not looked for.) *)

Definition isWhiteSpace (c : ascii) : bool :=
  let n := N_of_ascii c in
  ((9 <=? n)%N && (n <=? 13)%N) || (n =? 32)%N.

Fixpoint trimStart (l : list ascii) : list ascii :=
  match l with
  | c :: r => if isWhiteSpace c then trimStart r else l
  | [] => []
  end.

Definition trim (l : list ascii) : list ascii :=
  rev (trimStart (rev (trimStart l))).

Definition digitVal (c : ascii) : option Z :=
  let n := Z.of_N (N_of_ascii c) in
  if (48 <=? n) && (n <=? 57) then Some (n - 48) else None.

Fixpoint digitsVal (acc : Z) (l : list ascii) : option Z :=
  match l with
  | [] => Some acc
  | c :: r =>
      match digitVal c with
      | Some d => digitsVal (10 * acc + d) r
      | None => None
      end
  end.

Definition decimalDigits (l : list ascii) : option Z :=
  match l with
  | [] => None
  | _ => digitsVal 0 l
  end.

(** The digit of a hexadecimal, octal or binary literal. *)
Definition digitValIn (radix : Z) (c : ascii) : option Z :=
  let n := Z.of_N (N_of_ascii c) in
  let v := if (48 <=? n) && (n <=? 57) then n - 48
           else if (97 <=? n) && (n <=? 102) then n - 87
           else if (65 <=? n) && (n <=? 70) then n - 55
           else radix in
  if v <? radix then Some v else None.

Fixpoint digitsValIn (radix acc : Z) (l : list ascii) : option Z :=
  match l with
  | [] => Some acc
  | c :: r =>
      match digitValIn radix c with
      | Some d => digitsValIn radix (radix * acc + d) r
      | None => None
      end
  end.

(** The leading decimal digits of a text, and the rest. *)
Fixpoint spanDigits (l : list ascii) : list ascii * list ascii :=
  match l with
  | c :: r =>
      match digitVal c with
      | Some _ => let (ds, rest) := spanDigits r in (c :: ds, rest)
      | None => ([], l)
      end
  | [] => ([], [])
  end.

(** The number nearest to [mantissa * 10 ^ exponent10] (ties to even) with
    the sign [negative]: the exact product, or the exact quotient with what
    is left of it, is rounded once.  [digits] is the number of decimal
    digits of the mantissa; the two cut-offs spare the computation of
    powers whose result is an infinity or a zero anyway. *)
Definition roundDecimal (negative : bool) (mantissa exponent10 digits : Z) : number :=
  if mantissa =? 0 then (if negative then neg_zero else zero)
  else if 400 <? exponent10 then (if negative then neg_infinity else infinity)
  else if digits + exponent10 <? -400 then (if negative then neg_zero else zero)
  else if 0 <=? exponent10
  then SF2Prim (binary_round prec emax negative
                  (Z.to_pos (mantissa * 10 ^ exponent10)) 0)
  else
    let '(q, e, location) :=
      SFdiv_core_binary prec emax mantissa 0 (10 ^ (- exponent10)) 0 in
    SF2Prim (binary_round_aux prec emax negative q e location).

(** ExponentPart, when the rest of the literal is one (or is empty). *)
Definition exponentPart (l : list ascii) : option Z :=
  match l with
  | [] => Some 0
  | c :: r =>
      if Ascii.eqb c "e" || Ascii.eqb c "E"
      then match r with
           | "+"%char :: ds => decimalDigits ds
           | "-"%char :: ds => option_map Z.opp (decimalDigits ds)
           | ds => decimalDigits ds
           end
      else None
  end.

(** StrUnsignedDecimalLiteral. *)
Definition unsignedDecimal (negative : bool) (l : list ascii) : number :=
  if String.eqb (string_of_list_ascii l) "Infinity"
  then (if negative then neg_infinity else infinity)
  else
    let (intDigits, afterInt) := spanDigits l in
    let (fracDigits, afterFrac) :=
      match afterInt with
      | "."%char :: r => spanDigits r
      | _ => ([], afterInt)
      end in
    match intDigits ++ fracDigits with
    | [] => NaN
    | ds =>
        match digitsVal 0 ds, exponentPart afterFrac with
        | Some mantissa, Some e =>
            roundDecimal negative mantissa (e - Z.of_nat (List.length fracDigits))
              (Z.of_nat (List.length ds))
        | _, _ => NaN
        end
    end.

(** NonDecimalIntegerLiteral, after its prefix. *)
Definition nonDecimal (radix : Z) (l : list ascii) : number :=
  match l with
  | [] => NaN
  | _ => match digitsValIn radix 0 l with
         | Some z => Num z
         | None => NaN
         end
  end.

Definition Number (text : string) : number :=
  match trim (list_ascii_of_string text) with
  | [] => Num 0
  | "+"%char :: r => unsignedDecimal false r
  | "-"%char :: r => unsignedDecimal true r
  | "0"%char :: "x"%char :: r | "0"%char :: "X"%char :: r => nonDecimal 16 r
  | "0"%char :: "o"%char :: r | "0"%char :: "O"%char :: r => nonDecimal 8 r
  | "0"%char :: "b"%char :: r | "0"%char :: "B"%char :: r => nonDecimal 2 r
  | l => unsignedDecimal false l
  end.

(** *** Dates

    [new Date(s).getTime()] for the date-only ISO form [YYYY-MM-DD], which
    is the form an [<input type="date">] produces and the form the
    program slices out of [toISOString()]: the time value is the day
    number of the date (ECMAScript's MakeDay) times the milliseconds of a
    day, in UTC.  The month is 01 to 12 and the day 01 to 31: as V8 does,
    a day past the end of its month is carried into the next month by
    MakeDay ([2023-02-29] is the first of March).  The empty text and
    every text that is not of the form are given the time value [NaN];
    engines read some other forms too, and no property below is stated
    for texts that are not calendar dates of this form. *)

Definition msPerDay : Z := 86400000.

Definition inLeapYear (y : Z) : bool :=
  ((y mod 4 =? 0) && negb (y mod 100 =? 0)) || (y mod 400 =? 0).

Definition dayFromYear (y : Z) : Z :=
  365 * (y - 1970) + (y - 1969) / 4 - (y - 1901) / 100 + (y - 1601) / 400.

Definition daysInMonth (y m : Z) : Z :=
  match m with
  | 2 => if inLeapYear y then 29 else 28
  | 4 | 6 | 9 | 11 => 30
  | _ => 31
  end.

(** Days of the year before the first of month [m] (1-based). *)
Definition daysBeforeMonth (y m : Z) : Z :=
  let leap := if inLeapYear y then 1 else 0 in
  match m with
  | 1 => 0
  | 2 => 31
  | 3 => 59 + leap
  | 4 => 90 + leap
  | 5 => 120 + leap
  | 6 => 151 + leap
  | 7 => 181 + leap
  | 8 => 212 + leap
  | 9 => 243 + leap
  | 10 => 273 + leap
  | 11 => 304 + leap
  | _ => 334 + leap
  end.

Definition makeDay (y m d : Z) : Z :=
  dayFromYear y + daysBeforeMonth y m + d - 1.

(** The year, month and day fields of a text of the form [YYYY-MM-DD]. *)
Definition dateFields (s : string) : option (Z * Z * Z) :=
  match list_ascii_of_string s with
  | [y1; y2; y3; y4; sep1; m1; m2; sep2; d1; d2] =>
      if Ascii.eqb sep1 "-" && Ascii.eqb sep2 "-"
      then
        match digitsVal 0 [y1; y2; y3; y4], digitsVal 0 [m1; m2],
              digitsVal 0 [d1; d2] with
        | Some y, Some m, Some d => Some (y, m, d)
        | _, _, _ => None
        end
      else None
  | _ => None
  end.

(** The day number [Date.parse] finds, when it finds one. *)
Definition Date_parse (s : string) : option Z :=
  match dateFields s with
  | Some (y, m, d) =>
      if (1 <=? m) && (m <=? 12) && (1 <=? d) && (d <=? 31)
      then Some (makeDay y m d)
      else None
  | None => None
  end.

Definition Date_getTime (s : string) : number :=
  match Date_parse s with
  | Some day => Num (msPerDay * day)
  | None => NaN
  end.

(** A date of the calendar: the day exists in its month. *)
Definition validCivil (y m d : Z) : bool :=
  (1 <=? m) && (m <=? 12) && (1 <=? d) && (d <=? daysInMonth y m).

(** The year, month and day of a [YYYY-MM-DD] text, when it is one and
    names a day of the calendar. *)
Definition parseCivil (s : string) : option (Z * Z * Z) :=
  match dateFields s with
  | Some (y, m, d) => if validCivil y m d then Some (y, m, d) else None
  | None => None
  end.

(** Its day number. *)
Definition parseIsoDate (s : string) : option Z :=
  match parseCivil s with
  | Some (y, m, d) => Some (makeDay y m d)
  | None => None
  end.

(** The calendar date of a day number, as [toISOString()] prints it.
    ECMAScript's YearFromTime is the largest year whose first day is not
    after the day; it is found from an estimate by the mean length of a year
    (146097 days in 400 years), which is off by one year at most.
    MonthFromTime and DateFromTime read the day within the year against the
    table of the months. *)
Definition yearFromDay (day : Z) : Z :=
  let estimate := 1970 + (400 * day) / 146097 in
  if day <? dayFromYear estimate then estimate - 1
  else if dayFromYear (estimate + 1) <=? day then estimate + 1
  else estimate.

Definition monthFromDayWithinYear (y dayWithinYear : Z) : Z :=
  if dayWithinYear <? daysBeforeMonth y 2 then 1
  else if dayWithinYear <? daysBeforeMonth y 3 then 2
  else if dayWithinYear <? daysBeforeMonth y 4 then 3
  else if dayWithinYear <? daysBeforeMonth y 5 then 4
  else if dayWithinYear <? daysBeforeMonth y 6 then 5
  else if dayWithinYear <? daysBeforeMonth y 7 then 6
  else if dayWithinYear <? daysBeforeMonth y 8 then 7
  else if dayWithinYear <? daysBeforeMonth y 9 then 8
  else if dayWithinYear <? daysBeforeMonth y 10 then 9
  else if dayWithinYear <? daysBeforeMonth y 11 then 10
  else if dayWithinYear <? daysBeforeMonth y 12 then 11
  else 12.

Definition civilFromDays (day : Z) : Z * Z * Z :=
  let y := yearFromDay day in
  let dayWithinYear := day - dayFromYear y in
  let m := monthFromDayWithinYear y dayWithinYear in
  (y, m, dayWithinYear - daysBeforeMonth y m + 1).

Definition digitChar (d : Z) : ascii :=
  ascii_of_N (Z.to_N (48 + d mod 10)).

(** [n] printed with [width] decimal digits, zero padded. *)
Fixpoint padDigits (width : nat) (n : Z) (acc : string) : string :=
  match width with
  | O => acc
  | S w => padDigits w (n / 10) (String (digitChar n) acc)
  end.

(** Years 0..9999 print with four digits, other years in the expanded
    form with a sign and six digits. *)
Definition yearString (y : Z) : string :=
  if (0 <=? y) && (y <=? 9999) then padDigits 4 y EmptyString
  else if y <? 0 then String "-"%char (padDigits 6 (- y) EmptyString)
  else String "+"%char (padDigits 6 y EmptyString).

(** [d.toISOString().split('T')[0]] for an instant on day [day]. *)
Definition isoDate (day : Z) : string :=
  let '(y, m, d) := civilFromDays day in
  (yearString y ++ "-" ++ padDigits 2 m EmptyString ++ "-"
     ++ padDigits 2 d EmptyString)%string.

(** *** The local time zone

    A [Date] holds a time value, the milliseconds since the epoch in UTC;
    the time values the program meets are whole numbers and are kept as
    integers.  [getDate] and [setDate] work on local time.  What the host
    knows about the local time zone comes in through two functions, as in
    ECMAScript: the offset in force at an instant ([LocalTime(t)] is
    [t + offsetAtUTC t]) and the offset by which a local time is taken
    back to an instant ([UTC(t)] is [t - offsetAtLocal t]).  In a zone
    without daylight saving both are one constant. *)

Record TimeZone : Type := mkZone {
  offsetAtUTC : Z -> Z;
  offsetAtLocal : Z -> Z
}.

Definition LocalTime (tz : TimeZone) (t : Z) : Z := t + offsetAtUTC tz t.

Definition UTC (tz : TimeZone) (t : Z) : Z := t - offsetAtLocal tz t.

(** [d.getDate()]: the day of the month, in local time. *)
Definition Date_getDate (tz : TimeZone) (t : Z) : Z :=
  let '(_, _, d) := civilFromDays (LocalTime tz t / msPerDay) in d.

(** [d.setDate(date)]: the time value with the day of the month replaced,
    the local time of day kept; MakeDay carries a [date] outside the
    month into the neighbouring months. *)
Definition Date_setDate (tz : TimeZone) (t : Z) (date : Z) : Z :=
  let local := LocalTime tz t in
  let '(y, m, _) := civilFromDays (local / msPerDay) in
  UTC tz (msPerDay * makeDay y m date + local mod msPerDay).

(** [d.toISOString().split('T')[0]]: the UTC date of the time value. *)
Definition Date_toISODate (t : Z) : string := isoDate (t / msPerDay).

(** *** Arrays and strings *)

(** [arr.reduce(f, init)]. *)
Definition reduce {A B : Type} (f : B -> A -> B) (init : B) (arr : list A) : B :=
  fold_left f arr init.

(** [arr.sort(cmp)].  ECMAScript requires a stable sort and reads a
    comparator result [v] as "a after b" exactly when [v > 0] ([NaN] counts
    as [0]).  For a comparator that is consistent on the elements every
    conforming engine returns the same array, the one computed here by
    stable insertion.  For a comparator that is not (the ledger's is not
    when a date is no date: its result is then [NaN]) ECMAScript leaves
    the order to the engine; the array computed here is then one
    admissible answer and need not be the engine's, so that nothing below
    is stated about the order of such an array: every property that
    depends on the order assumes calendar dates. *)
Definition gt0 (v : number) : bool := PrimFloat.ltb (Num 0) v.

Fixpoint insert {A : Type} (cmp : A -> A -> number) (x : A) (l : list A) : list A :=
  match l with
  | [] => [x]
  | y :: l' => if gt0 (cmp x y) then y :: insert cmp x l' else x :: l
  end.

Definition sort {A : Type} (cmp : A -> A -> number) (arr : list A) : list A :=
  fold_right (insert cmp) [] arr.

(** [s.split(sep)] for a one-character separator. *)
Fixpoint splitAux (sep : ascii) (cur : string) (s : string) : list string :=
  match s with
  | EmptyString => [cur]
  | String c r =>
      if Ascii.eqb c sep then cur :: splitAux sep EmptyString r
      else splitAux sep (cur ++ String c EmptyString)%string r
  end.

Definition split (sep : ascii) (s : string) : list string :=
  splitAux sep EmptyString s.

(** [arr.slice(1)] and [arr.join(sep)]. *)
Definition slice1 {A : Type} (arr : list A) : list A := tl arr.

Definition join (sep : string) (arr : list string) : string :=
  String.concat sep arr.

End JS.

Import JS.

Arguments Num : simpl never.

(* ================================================================= *)
(** ** The data model ([src/types.ts]) *)

Inductive TransactionType : Type := DEBIT | CREDIT.

Definition typeEqb (a b : TransactionType) : bool :=
  match a, b with
  | DEBIT, DEBIT | CREDIT, CREDIT => true
  | _, _ => false
  end.

Module Transaction.
Record t : Type := mk {
  id : string;
  customerId : string;
  date : string;
  description : string;
  type : TransactionType;
  amount : number
}.
End Transaction.

Module Customer.
Record t : Type := mk {
  id : string;
  companyId : string;
  name : string;
  phone : string;
  address : string;
  openingBalance : number
}.
End Customer.

Module Company.
Record t : Type := mk {
  id : string;
  name : string;
  address : string;
  gst : option string;
  financialYear : string
}.
End Company.

Module DashboardStats.
Record t : Type := mk {
  totalBalance : number;
  totalDebit : number;
  totalCredit : number;
  activeCompanies : number;
  activeCustomers : number
}.
End DashboardStats.

(* ================================================================= *)
(** ** The component state *)

Module CompanyForm.
Record t : Type := mk { name : string; address : string; gst : string; fy : string }.
Definition initial : t := mk "" "" "" "2024-25".
End CompanyForm.

Module CustomerForm.
Record t : Type := mk { name : string; phone : string; openingBalance : string }.
Definition initial : t := mk "" "" "".
End CustomerForm.

Module TxForm.
Record t : Type := mk { date : string; desc : string; type : TransactionType; amount : string }.
End TxForm.

(** The [useState] cells the handlers read and write.  The cells that only
    drive the presentation ([activeTab], [isSidebarOpen], [isSyncing]) are
    touched by none of the handlers below and are left out. *)
Record AppState : Type := mkState {
  companies : list Company.t;
  customers : list Customer.t;
  transactions : list Transaction.t;
  selectedCompanyId : option string;
  selectedCustomerId : option string;
  isCompanyModalOpen : bool;
  isCustomerModalOpen : bool;
  isTransactionModalOpen : bool;
  companyForm : CompanyForm.t;
  customerForm : CustomerForm.t;
  txForm : TxForm.t
}.

Definition setCompanies (v : list Company.t) (st : AppState) : AppState :=
  mkState v (customers st) (transactions st) (selectedCompanyId st)
    (selectedCustomerId st) (isCompanyModalOpen st) (isCustomerModalOpen st)
    (isTransactionModalOpen st) (companyForm st) (customerForm st) (txForm st).

Definition setCustomers (v : list Customer.t) (st : AppState) : AppState :=
  mkState (companies st) v (transactions st) (selectedCompanyId st)
    (selectedCustomerId st) (isCompanyModalOpen st) (isCustomerModalOpen st)
    (isTransactionModalOpen st) (companyForm st) (customerForm st) (txForm st).

Definition setTransactions (v : list Transaction.t) (st : AppState) : AppState :=
  mkState (companies st) (customers st) v (selectedCompanyId st)
    (selectedCustomerId st) (isCompanyModalOpen st) (isCustomerModalOpen st)
    (isTransactionModalOpen st) (companyForm st) (customerForm st) (txForm st).

Definition setCompanyForm (v : CompanyForm.t) (st : AppState) : AppState :=
  mkState (companies st) (customers st) (transactions st) (selectedCompanyId st)
    (selectedCustomerId st) (isCompanyModalOpen st) (isCustomerModalOpen st)
    (isTransactionModalOpen st) v (customerForm st) (txForm st).

Definition setCustomerForm (v : CustomerForm.t) (st : AppState) : AppState :=
  mkState (companies st) (customers st) (transactions st) (selectedCompanyId st)
    (selectedCustomerId st) (isCompanyModalOpen st) (isCustomerModalOpen st)
    (isTransactionModalOpen st) (companyForm st) v (txForm st).

Definition setTxForm (v : TxForm.t) (st : AppState) : AppState :=
  mkState (companies st) (customers st) (transactions st) (selectedCompanyId st)
    (selectedCustomerId st) (isCompanyModalOpen st) (isCustomerModalOpen st)
    (isTransactionModalOpen st) (companyForm st) (customerForm st) v.

Definition setIsCompanyModalOpen (v : bool) (st : AppState) : AppState :=
  mkState (companies st) (customers st) (transactions st) (selectedCompanyId st)
    (selectedCustomerId st) v (isCustomerModalOpen st)
    (isTransactionModalOpen st) (companyForm st) (customerForm st) (txForm st).

Definition setIsCustomerModalOpen (v : bool) (st : AppState) : AppState :=
  mkState (companies st) (customers st) (transactions st) (selectedCompanyId st)
    (selectedCustomerId st) (isCompanyModalOpen st) v
    (isTransactionModalOpen st) (companyForm st) (customerForm st) (txForm st).

Definition setIsTransactionModalOpen (v : bool) (st : AppState) : AppState :=
  mkState (companies st) (customers st) (transactions st) (selectedCompanyId st)
    (selectedCustomerId st) (isCompanyModalOpen st) (isCustomerModalOpen st)
    v (companyForm st) (customerForm st) (txForm st).

(** Opening a customer's ledger: [setSelectedCustomerId(customer.id)]. *)
Definition setSelectedCustomerId (v : option string) (st : AppState) : AppState :=
  mkState (companies st) (customers st) (transactions st) (selectedCompanyId st)
    v (isCompanyModalOpen st) (isCustomerModalOpen st)
    (isTransactionModalOpen st) (companyForm st) (customerForm st) (txForm st).

(* ================================================================= *)
(** ** The handlers of the entity store

    [generateId] is the identifier the call to [generateId()] returns and
    [today] the text of [new Date().toISOString().split('T')[0]]. *)

Definition handleAddCompany (generateId : string) (st : AppState) : AppState :=
  if negb (truthyStr (CompanyForm.name (companyForm st))) then st
  else
    let newCompany :=
      Company.mk generateId
        (CompanyForm.name (companyForm st))
        (CompanyForm.address (companyForm st))
        (Some (CompanyForm.gst (companyForm st)))
        (CompanyForm.fy (companyForm st)) in
    setIsCompanyModalOpen false
      (setCompanyForm CompanyForm.initial
         (setCompanies (companies st ++ [newCompany]) st)).

Definition handleAddCustomer (generateId : string) (st : AppState) : AppState :=
  match selectedCompanyId st with
  | Some selected =>
      if negb (truthyStr selected)
         || negb (truthyStr (CustomerForm.name (customerForm st)))
      then st
      else
        let newCustomer :=
          Customer.mk generateId selected
            (CustomerForm.name (customerForm st))
            (CustomerForm.phone (customerForm st))
            ""
            (orZero (Number (CustomerForm.openingBalance (customerForm st)))) in
        setIsCustomerModalOpen false
          (setCustomerForm CustomerForm.initial
             (setCustomers (customers st ++ [newCustomer]) st))
  | None => st
  end.

Definition handleAddTransaction (generateId today : string) (st : AppState) : AppState :=
  match selectedCustomerId st with
  | Some selected =>
      if negb (truthyStr selected)
         || negb (truthyStr (TxForm.amount (txForm st)))
      then st
      else
        let newTx :=
          Transaction.mk generateId selected
            (TxForm.date (txForm st))
            (TxForm.desc (txForm st))
            (TxForm.type (txForm st))
            (Number (TxForm.amount (txForm st))) in
        setIsTransactionModalOpen false
          (setTxForm (TxForm.mk today "" CREDIT "")
             (setTransactions (transactions st ++ [newTx]) st))
  | None => st
  end.

(** [confirmed] is the answer to the [confirm] dialog. *)
Definition deleteTransaction (id : string) (confirmed : bool) (st : AppState) : AppState :=
  if confirmed
  then setTransactions
         (filter (fun t => negb (String.eqb (Transaction.id t) id)) (transactions st)) st
  else st.

(* ================================================================= *)
(** ** The balance engine *)

Definition isType (ty : TransactionType) (t : Transaction.t) : bool :=
  typeEqb (Transaction.type t) ty.

(** The reducer [(sum, t) => sum + t.amount]. *)
Definition plusAmount (sum : number) (t : Transaction.t) : number :=
  add sum (Transaction.amount t).

Definition stats (st : AppState) : DashboardStats.t :=
  let totalDebit := reduce plusAmount (Num 0) (filter (isType DEBIT) (transactions st)) in
  let totalCredit := reduce plusAmount (Num 0) (filter (isType CREDIT) (transactions st)) in
  DashboardStats.mk
    (sub totalCredit totalDebit)
    totalDebit
    totalCredit
    (Num (Z.of_nat (List.length (companies st))))
    (Num (Z.of_nat (List.length (customers st)))).

Record ChartPoint : Type := mkPoint {
  name : string;
  debit : number;
  credit : number
}.

(** The [days] array of [chartData]: for [i] from 0 to 6 a fresh
    [new Date()] is moved [i] days back with [setDate(getDate() - i)] and
    printed with [toISOString()], and the array is reversed.  [now] is the
    time value of [new Date()] (one instant for the seven calls) and [tz]
    the local time zone. *)
Definition chartDays (tz : TimeZone) (now : Z) : list string :=
  rev (map (fun i =>
              Date_toISODate
                (Date_setDate tz now (Date_getDate tz now - Z.of_nat i)))
         (seq 0 7)).

Definition chartPoint (transactions : list Transaction.t) (day : string) : ChartPoint :=
  let dayTx := filter (fun t => String.eqb (Transaction.date t) day) transactions in
  mkPoint
    (join "/" (rev (slice1 (split "-" day))))
    (reduce plusAmount (Num 0) (filter (isType DEBIT) dayTx))
    (reduce plusAmount (Num 0) (filter (isType CREDIT) dayTx)).

Definition chartData (tz : TimeZone) (now : Z) (st : AppState) : list ChartPoint :=
  map (chartPoint (transactions st)) (chartDays tz now).

(** The balance shown on a customer card. *)
Definition bal (transactions : list Transaction.t) (customer : Customer.t) : number :=
  let customerTx :=
    filter (fun t => String.eqb (Transaction.customerId t) (Customer.id customer))
      transactions in
  sub
    (add (Customer.openingBalance customer)
       (reduce plusAmount (Num 0) (filter (isType CREDIT) customerTx)))
    (reduce plusAmount (Num 0) (filter (isType DEBIT) customerTx)).

Definition currentCustomer (st : AppState) : option Customer.t :=
  find (fun c => strictEq (Customer.id c) (selectedCustomerId st)) (customers st).

(** The comparator of the ledger's sort. *)
Definition byDate (a b : Transaction.t) : number :=
  sub (Date_getTime (Transaction.date a)) (Date_getTime (Transaction.date b)).

(** [tx.type === 'CREDIT' ? (runningBal += tx.amount) : (runningBal -= tx.amount)] *)
Definition applyTx (runningBal : number) (tx : Transaction.t) : number :=
  if typeEqb (Transaction.type tx) CREDIT
  then add runningBal (Transaction.amount tx)
  else sub runningBal (Transaction.amount tx).

(** [filtered.map(tx => ...)] with the captured variable [runningBal]
    threaded through: each row is the transaction and the balance shown
    after it. *)
Fixpoint mapRunning (runningBal : number) (filtered : list Transaction.t)
  : list (Transaction.t * number) :=
  match filtered with
  | [] => []
  | tx :: rest =>
      let runningBal' := applyTx runningBal tx in
      (tx, runningBal') :: mapRunning runningBal' rest
  end.

(** [currentCustomer?.openingBalance || 0] *)
Definition startingBalance (st : AppState) : number :=
  match currentCustomer st with
  | Some c => orZero (Customer.openingBalance c)
  | None => Num 0
  end.

Definition ledgerFiltered (st : AppState) : list Transaction.t :=
  sort byDate
    (filter (fun t => strictEq (Transaction.customerId t) (selectedCustomerId st))
       (transactions st)).

(** The rows of the ledger table of the selected customer. *)
Definition runningLedger (st : AppState) : list (Transaction.t * number) :=
  mapRunning (startingBalance st) (ledgerFiltered st).

(* ================================================================= *)
(** ** Backup and restore

    A backup file is JSON text.  [json] is a value [JSON.parse] returns, or
    [undefined], which is what reading an absent property gives; an object
    is the list of its properties, keys distinct.  The number of a JSON
    text is never [NaN]; it is an infinity when the literal is too large
    ([1e999]). *)

#[local] Unset Elimination Schemes.
Inductive json : Type :=
| JUndefined
| JNull
| JBool (b : bool)
| JNum (x : number)
| JStr (s : string)
| JArr (items : list json)
| JObj (props : list (string * json)).
#[local] Set Elimination Schemes.

Fixpoint assoc (key : string) (props : list (string * json)) : json :=
  match props with
  | [] => JUndefined
  | (k, v) :: rest => if String.eqb k key then v else assoc key rest
  end.

(** [v.key] on a value [v] that is neither [null] nor [undefined] (on
    those the read throws). *)
Definition prop (v : json) (key : string) : json :=
  match v with
  | JObj props => assoc key props
  | _ => JUndefined
  end.

(** ToBoolean. *)
Definition truthyJson (v : json) : bool :=
  match v with
  | JUndefined | JNull => false
  | JBool b => b
  | JNum x => truthy x
  | JStr s => truthyStr s
  | JArr _ | JObj _ => true
  end.

(** What [JSON.parse] reads back from the [JSON.stringify] of a value: a
    finite number is written with the digits that read back as the same
    number, except that the negative zero is written as [0]; [NaN] and the
    infinities are written as [null]; an absent optional property is
    omitted. *)
Definition encodeNumber (n : number) : json :=
  if is_finite n then JNum (if is_zero n then Num 0 else n) else JNull.

Definition encodeType (ty : TransactionType) : json :=
  match ty with
  | DEBIT => JStr "DEBIT"
  | CREDIT => JStr "CREDIT"
  end.

Definition encodeTransaction (t : Transaction.t) : json :=
  JObj [ ("id", JStr (Transaction.id t));
         ("customerId", JStr (Transaction.customerId t));
         ("date", JStr (Transaction.date t));
         ("description", JStr (Transaction.description t));
         ("type", encodeType (Transaction.type t));
         ("amount", encodeNumber (Transaction.amount t)) ]%string.

Definition encodeCustomer (c : Customer.t) : json :=
  JObj [ ("id", JStr (Customer.id c));
         ("companyId", JStr (Customer.companyId c));
         ("name", JStr (Customer.name c));
         ("phone", JStr (Customer.phone c));
         ("address", JStr (Customer.address c));
         ("openingBalance", encodeNumber (Customer.openingBalance c)) ]%string.

Definition encodeCompany (c : Company.t) : json :=
  JObj ([ ("id", JStr (Company.id c));
          ("name", JStr (Company.name c));
          ("address", JStr (Company.address c)) ]%string
        ++ match Company.gst c with
           | Some g => [ ("gst"%string, JStr g) ]
           | None => []
           end
        ++ [ ("financialYear"%string, JStr (Company.financialYear c)) ]).

(** [handleExportBackup]: the document of the downloaded file, as
    [JSON.parse] reads it back.  [exportedAt] is the text of
    [new Date().toISOString()]. *)
Definition handleExportBackup (exportedAt : string) (st : AppState) : json :=
  JObj [ ("companies", JArr (map encodeCompany (companies st)));
         ("customers", JArr (map encodeCustomer (customers st)));
         ("transactions", JArr (map encodeTransaction (transactions st)));
         ("exportedAt", JStr exportedAt);
         ("version", JStr "1.0") ]%string.

Inductive Alert : Type :=
| BackupRestored      (* "Backup restored successfully!" *)
| InvalidBackupFormat (* "Invalid backup file format." *)
| ErrorReadingBackup. (* "Error reading backup file." *)

(** What one run of [reader.onload] does: the values handed to
    [setCompanies], [setCustomers] and [setTransactions] (all three calls or
    none) and the alert shown. *)
Record ImportEffect : Type := mkEffect {
  setterArgs : option (json * json * json);
  alerted : option Alert
}.

(** [parsed] is the outcome of [JSON.parse(e.target?.result)]: [None] when
    it throws.  Reading a property of [null] throws too; both land in the
    [catch]. *)
Definition reader_onload (parsed : option json) (confirmed : bool) : ImportEffect :=
  match parsed with
  | None | Some JNull | Some JUndefined => mkEffect None (Some ErrorReadingBackup)
  | Some data =>
      if truthyJson (prop data "companies")
         && truthyJson (prop data "customers")
         && truthyJson (prop data "transactions")
      then
        if confirmed
        then mkEffect
               (Some (prop data "companies", prop data "customers",
                      prop data "transactions"))
               (Some BackupRestored)
        else mkEffect None None
      else mkEffect None (Some InvalidBackupFormat)
  end.

(** *** Reading a restored value with the declared types

    The setters store whatever the file held.  A stored value is a state of
    the typed program when it is an array of records with the declared
    fields, each of the declared type; a [null] where the type says
    [number] is none (the program keeps the [null], and [formatCurrency]
    throws on it when the row is rendered).  What the program does with
    collections that are not of the declared types is outside this
    model. *)

Definition bind {A B : Type} (o : option A) (f : A -> option B) : option B :=
  match o with
  | Some a => f a
  | None => None
  end.

Notation "x <- c ;; k" := (bind c (fun x => k))
  (at level 61, c at next level, right associativity).

Definition readString (v : json) : option string :=
  match v with
  | JStr s => Some s
  | _ => None
  end.

Definition readNumber (v : json) : option number :=
  match v with
  | JNum x => Some x
  | _ => None
  end.

Definition readType (v : json) : option TransactionType :=
  match v with
  | JStr s =>
      if String.eqb s "DEBIT" then Some DEBIT
      else if String.eqb s "CREDIT" then Some CREDIT
      else None
  | _ => None
  end.

(** The optional [gst?: string]. *)
Definition readOptString (v : json) : option (option string) :=
  match v with
  | JUndefined => Some None
  | JStr s => Some (Some s)
  | _ => None
  end.

Definition readTransaction (v : json) : option Transaction.t :=
  id <- readString (prop v "id") ;;
  customerId <- readString (prop v "customerId") ;;
  date <- readString (prop v "date") ;;
  description <- readString (prop v "description") ;;
  type <- readType (prop v "type") ;;
  amount <- readNumber (prop v "amount") ;;
  Some (Transaction.mk id customerId date description type amount).

Definition readCustomer (v : json) : option Customer.t :=
  id <- readString (prop v "id") ;;
  companyId <- readString (prop v "companyId") ;;
  name <- readString (prop v "name") ;;
  phone <- readString (prop v "phone") ;;
  address <- readString (prop v "address") ;;
  openingBalance <- readNumber (prop v "openingBalance") ;;
  Some (Customer.mk id companyId name phone address openingBalance).

Definition readCompany (v : json) : option Company.t :=
  id <- readString (prop v "id") ;;
  name <- readString (prop v "name") ;;
  address <- readString (prop v "address") ;;
  gst <- readOptString (prop v "gst") ;;
  financialYear <- readString (prop v "financialYear") ;;
  Some (Company.mk id name address gst financialYear).

Fixpoint readAll {A B : Type} (f : A -> option B) (l : list A) : option (list B) :=
  match l with
  | [] => Some []
  | a :: rest =>
      b <- f a ;;
      bs <- readAll f rest ;;
      Some (b :: bs)
  end.

Definition readArray {B : Type} (f : json -> option B) (v : json) : option (list B) :=
  match v with
  | JArr items => readAll f items
  | _ => None
  end.

(** The state after one run of [reader.onload]; [None] when the setters
    stored values that are not typed collections. *)
Definition applyImport (eff : ImportEffect) (st : AppState) : option AppState :=
  match setterArgs eff with
  | None => Some st
  | Some (cs, cus, txs) =>
      companies' <- readArray readCompany cs ;;
      customers' <- readArray readCustomer cus ;;
      transactions' <- readArray readTransaction txs ;;
      Some (setTransactions transactions'
              (setCustomers customers' (setCompanies companies' st)))
  end.

Definition handleImportBackup (parsed : option json) (confirmed : bool)
    (st : AppState) : option AppState :=
  applyImport (reader_onload parsed confirmed) st.

(* ================================================================= *)
(** ** The vocabulary of the properties *)

(** *** Whole numbers

    The integer a number stands for when it is a whole number ([0] for
    every number that is none), and the numbers that are whole.  On whole
    numbers whose absolute values add up to less than [2 ^ 53] the
    program's [+] and [-] are those of the integers (see [add_Num] and
    [sub_Num]). *)

Definition toZ (x : number) : Z :=
  match Prim2SF x with
  | S754_finite s m e =>
      let v := if 0 <=? e then Zpos m * 2 ^ e else Zpos m / 2 ^ (- e) in
      if s then - v else v
  | _ => 0
  end.

Definition whole (x : number) : Prop := x = Num (toZ x).

(** The representation of an integer of less than 53 bits: the mantissa
    is the absolute value shifted to 53 bits. *)
Definition canon (s : bool) (v : Z) : spec_float :=
  S754_finite s (Z.to_pos (v * 2 ^ (52 - Z.log2 v))) (Z.log2 v - 52).

Definition ncanon (z : Z) : spec_float :=
  if z =? 0 then S754_zero false else canon (z <? 0) (Z.abs z).

Definition amountZ (t : Transaction.t) : Z := toZ (Transaction.amount t).

(** The absolute values of the amounts, added up. *)
Fixpoint magnitude (l : list Transaction.t) : Z :=
  match l with
  | [] => 0
  | t :: rest => Z.abs (amountZ t) + magnitude rest
  end.

(** The arithmetic from [opening] over the transactions [l] is exact: the
    opening balance and the amounts are whole numbers, and their absolute
    values add up to less than [2 ^ 53]. *)
Definition exact (opening : number) (l : list Transaction.t) : Prop :=
  whole opening
  /\ Forall (fun t => whole (Transaction.amount t)) l
  /\ Z.abs (toZ opening) + magnitude l < 2 ^ 53.

(** The amounts of the transactions of one type added up as integers, and
    the credits less the debits. *)
Fixpoint totalZ (ty : TransactionType) (l : list Transaction.t) : Z :=
  match l with
  | [] => 0
  | t :: rest =>
      match Transaction.type t, ty with
      | DEBIT, DEBIT | CREDIT, CREDIT => amountZ t + totalZ ty rest
      | _, _ => totalZ ty rest
      end
  end.

Definition netZ (l : list Transaction.t) : Z := totalZ CREDIT l - totalZ DEBIT l.

(** *** Sums of numbers

    The sum of the amounts of the transactions of one type, the way a
    program adds numbers up: one after the other in the order of the
    collection, each addition rounded, starting from [0]. *)
Fixpoint sumFrom (acc : number) (ty : TransactionType) (l : list Transaction.t)
  : number :=
  match l with
  | [] => acc
  | t :: rest =>
      match Transaction.type t, ty with
      | DEBIT, DEBIT | CREDIT, CREDIT =>
          sumFrom (add acc (Transaction.amount t)) ty rest
      | _, _ => sumFrom acc ty rest
      end
  end.

Definition sumAmounts (ty : TransactionType) (l : list Transaction.t) : number :=
  sumFrom (Num 0) ty l.

(** A customer's transactions, in insertion order. *)
Definition transactionsOf (customerId : string) (l : list Transaction.t)
  : list Transaction.t :=
  filter (fun t => String.eqb (Transaction.customerId t) customerId) l.

(** [openingBalance + sum of credits - sum of debits] over a list. *)
Definition balanceOver (opening : number) (l : list Transaction.t) : number :=
  sub (add opening (sumAmounts CREDIT l)) (sumAmounts DEBIT l).

(** The balance after a transaction: a CREDIT adds its amount, a DEBIT
    subtracts it. *)
Definition balanceAfter (previous : number) (t : Transaction.t) : number :=
  match Transaction.type t with
  | CREDIT => add previous (Transaction.amount t)
  | DEBIT => sub previous (Transaction.amount t)
  end.

(** The running balances of a list of entries taken in their order. *)
Fixpoint balancesFrom (previous : number) (l : list Transaction.t) : list number :=
  match l with
  | [] => []
  | t :: rest => balanceAfter previous t :: balancesFrom (balanceAfter previous t) rest
  end.

(** *** Dates *)

(** The day number of a transaction's date ([0] when it has none). *)
Definition dayOf (t : Transaction.t) : Z :=
  match parseIsoDate (Transaction.date t) with
  | Some d => d
  | None => 0
  end.

(** The date of the transaction is a calendar date [YYYY-MM-DD]. *)
Definition hasIsoDate (t : Transaction.t) : Prop :=
  parseIsoDate (Transaction.date t) <> None.

(** The entries dated [d], the entries of day number [k], and the entries
    kept by a deletion of [id]. *)
Definition datedOn (d : string) (t : Transaction.t) : bool :=
  String.eqb (Transaction.date t) d.

Definition onDay (k : Z) (t : Transaction.t) : bool :=
  dayOf t =? k.

Definition keeps (id : string) (t : Transaction.t) : bool :=
  negb (String.eqb (Transaction.id t) id).

(** The order of the calendar days of two entries. *)
Definition notAfter (a b : Transaction.t) : Prop := dayOf a <= dayOf b.

(** The label [DD/MM] of a day number. *)
Definition dayMonth (day : Z) : string :=
  let '(_, m, d) := civilFromDays day in
  padDigits 2 d EmptyString ++ "/" ++ padDigits 2 m EmptyString.

Definition yearOf (day : Z) : Z :=
  let '(y, _, _) := civilFromDays day in y.

(** A time zone whose offset never changes, and the UTC day of an
    instant. *)
Definition fixedZone (offset : Z) : TimeZone :=
  mkZone (fun _ => offset) (fun _ => offset).

Definition utcDay (t : Z) : Z := t / msPerDay.

(** *** JSON *)

(** A JSON value is an array. *)
Definition isArray (v : json) : bool :=
  match v with
  | JArr _ => true
  | _ => false
  end.

(** The numbers a JSON text gives back as they are: the finite ones,
    the negative zero apart. *)
Definition jsonNumber (x : number) : Prop :=
  is_finite x = true /\ x <> neg_zero.

(** Every amount and every opening balance of the state is such a
    number. *)
Definition jsonNumbers (st : AppState) : Prop :=
  Forall (fun t => jsonNumber (Transaction.amount t)) (transactions st)
  /\ Forall (fun c => jsonNumber (Customer.openingBalance c)) (customers st).

(** Every amount and every opening balance of the state is finite. *)
Definition finiteNumbers (st : AppState) : Prop :=
  Forall (fun t => is_finite (Transaction.amount t) = true) (transactions st)
  /\ Forall (fun c => is_finite (Customer.openingBalance c) = true) (customers st).

(* ================================================================= *)
(** ** The calendar *)

Definition leapDay (y : Z) : Z := if inLeapYear y then 1 else 0.

(** Calendar order: the year first, then the month, then the day. *)
Definition civilLt (a b : Z * Z * Z) : Prop :=
  let '(y, m, d) := a in
  let '(y', m', d') := b in
  y < y' \/ (y = y' /\ (m < m' \/ (m = m' /\ d < d'))).

(** The year, month and day of a transaction's date. *)
Definition civilOf (t : Transaction.t) : Z * Z * Z :=
  match parseCivil (Transaction.date t) with
  | Some c => c
  | None => (0, 0, 0)
  end.

Definition calendarLe (a b : Transaction.t) : Prop :=
  civilLt (civilOf a) (civilOf b) \/ civilOf a = civilOf b.

(* ================================================================= *)
(** ** States used in the examples *)

Definition demoCompany : Company.t :=
  Company.mk "co1" "Acme Corp" "123 Street" (Some "") "2024-25".

Definition demoCustomer (opening : number) : Customer.t :=
  Customer.mk "c1" "co1" "Asha" "" "" opening.

Definition demoForms (st : AppState) (amountText : string) : AppState :=
  setTxForm (TxForm.mk "2024-01-01" "rent" DEBIT amountText)
    (setCustomerForm (CustomerForm.mk "Asha" "98" "1000")
       (setCompanyForm (CompanyForm.mk "Acme Corp" "123 Street" "" "2024-25") st)).

(** Nothing stored, nothing selected, the forms as first rendered on
    2024-01-01. *)
Definition initialState : AppState :=
  mkState [] [] [] None None false false false
    CompanyForm.initial CustomerForm.initial (TxForm.mk "2024-01-01" "" CREDIT "").

(** One company and one customer, both selected. *)
Definition demoState (opening : number) (txs : list Transaction.t) : AppState :=
  mkState [demoCompany] [demoCustomer opening] txs (Some "co1"%string) (Some "c1"%string)
    false false false
    CompanyForm.initial CustomerForm.initial (TxForm.mk "2024-01-01" "" CREDIT "").

(** A selection that outlived its records: an import replaced the
    collections while a company and a customer were selected. *)
Definition danglingState : AppState :=
  mkState [] [] [] (Some "co1"%string) (Some "c1"%string) false false false
    CompanyForm.initial CustomerForm.initial (TxForm.mk "2024-01-01" "" CREDIT "").

(** The transactions of scenario A and of scenario B. *)
Definition scenarioA : list Transaction.t :=
  [ Transaction.mk "t1" "c1" "2024-01-01" "" CREDIT (Num 500);
    Transaction.mk "t2" "c1" "2024-01-02" "" DEBIT (Num 200) ].

Definition scenarioB : list Transaction.t :=
  [ Transaction.mk "t1" "c1" "2024-02-01" "" CREDIT (Num 100);
    Transaction.mk "t2" "c1" "2024-02-01" "" DEBIT (Num 50) ].

(** The day number of 2024-03-10. *)
Definition day_2024_03_10 : Z := 19792.

(** A backup document whose three fields are present and are no arrays. *)
Definition scalarBackup : json :=
  JObj [ ("companies", JNum (Num 1)); ("customers", JStr "x"); ("transactions", JObj []) ].

(** Scenario D: a backup document without [transactions]. *)
Definition backupWithoutTransactions : json :=
  JObj [ ("companies", JArr []); ("customers", JArr []) ].

(** Filling the transaction form: [setTxForm({ ...txForm, ... })]. *)
Definition enterTx (date : string) (type : TransactionType) (amountText : string)
    (st : AppState) : AppState :=
  setTxForm (TxForm.mk date "" type amountText) st.

(* ================================================================= *)
(** ** Persistence: [loadData], the persistence effect, the wipe button

    [localStorage] maps keys to texts.  A stored text matters to the
    program through two questions only: is it the empty text (which
    [saved ? ... : ...] takes for absent), and what does [JSON.parse] make
    of it. *)

Inductive StoredText : Type :=
| EmptyText
| MalformedText          (* a text that JSON.parse rejects *)
| JsonText (v : json).   (* a text that JSON.parse reads as v *)

(** The entries of [localStorage], the latest write of a key first. *)
Definition Storage : Type := list (string * StoredText).

Fixpoint getItem (key : string) (storage : Storage) : option StoredText :=
  match storage with
  | [] => None
  | (k, text) :: rest => if String.eqb k key then Some text else getItem key rest
  end.

Definition setItem (key : string) (text : StoredText) (storage : Storage) : Storage :=
  (key, text) :: storage.

Definition clear (storage : Storage) : Storage := [].

(** The outcome of [loadData(key, defaultValue)]. *)
Inductive Loaded : Type :=
| LoadThrows
| LoadReturns (v : json).

Definition loadData (key : string) (defaultValue : json) (storage : Storage) : Loaded :=
  match getItem key storage with
  | None | Some EmptyText => LoadReturns defaultValue
  | Some MalformedText => LoadThrows
  | Some (JsonText v) => LoadReturns v
  end.

(** The persistence effect: the three [setItem] calls with the
    [JSON.stringify] of the collections. *)
Definition persist (st : AppState) (storage : Storage) : Storage :=
  setItem "transactions" (JsonText (JArr (map encodeTransaction (transactions st))))
    (setItem "customers" (JsonText (JArr (map encodeCustomer (customers st))))
       (setItem "companies" (JsonText (JArr (map encodeCompany (companies st))))
          storage)).

(** The three [useState] initialisers of the collections, in their order;
    the first [loadData] that throws aborts the mount. *)
Inductive Mounted : Type :=
| MountThrows
| MountedWith (companies customers transactions : json).

Definition mountCells (storage : Storage) : Mounted :=
  match loadData "companies" (JArr []) storage with
  | LoadThrows => MountThrows
  | LoadReturns cs =>
      match loadData "customers" (JArr []) storage with
      | LoadThrows => MountThrows
      | LoadReturns cus =>
          match loadData "transactions" (JArr []) storage with
          | LoadThrows => MountThrows
          | LoadReturns txs => MountedWith cs cus txs
          end
      end
  end.

(** The state of the freshly mounted component, read with the declared
    types: nothing selected, the modals closed, the forms empty with
    today's date.  [None] when the mount throws or the stored values are
    not typed collections. *)
Definition mount (today : string) (storage : Storage) : option AppState :=
  match mountCells storage with
  | MountThrows => None
  | MountedWith cs cus txs =>
      companies' <- readArray readCompany cs ;;
      customers' <- readArray readCustomer cus ;;
      transactions' <- readArray readTransaction txs ;;
      Some (mkState companies' customers' transactions' None None
              false false false
              CompanyForm.initial CustomerForm.initial
              (TxForm.mk today "" CREDIT ""))
  end.

(** The button of the danger zone: [localStorage.clear()] on confirmation
    (the page then reloads, which mounts the component anew). *)
Definition wipe (confirmed : bool) (storage : Storage) : Storage :=
  if confirmed then clear storage else storage.

(* ================================================================= *)
(** ** The views of the tabs *)

(** Opening a company: [setSelectedCompanyId(company.id)]. *)
Definition setSelectedCompanyId (v : option string) (st : AppState) : AppState :=
  mkState (companies st) (customers st) (transactions st) v
    (selectedCustomerId st) (isCompanyModalOpen st) (isCustomerModalOpen st)
    (isTransactionModalOpen st) (companyForm st) (customerForm st) (txForm st).

Definition currentCompany (st : AppState) : option Company.t :=
  find (fun c => strictEq (Company.id c) (selectedCompanyId st)) (companies st).

(** The cards of the customers tab. *)
Definition companyCustomers (st : AppState) : list Customer.t :=
  filter (fun c => strictEq (Customer.companyId c) (selectedCompanyId st))
    (customers st).

(** [arr.slice(-n)]: the last [n] elements, all of them when there are
    fewer. *)
Definition sliceLast {A : Type} (n : nat) (arr : list A) : list A :=
  skipn (List.length arr - n) arr.

(** The recent activities of the dashboard: each transaction with the
    customer that [customers.find] gives for it. *)
Definition recentActivities (st : AppState) : list (Transaction.t * option Customer.t) :=
  map (fun tx =>
         (tx, find (fun c => String.eqb (Customer.id c) (Transaction.customerId tx))
                (customers st)))
    (rev (sliceLast 10 (transactions st))).

(** The two totals above the ledger table. *)
Definition ledgerTotal (ty : TransactionType) (st : AppState) : number :=
  reduce plusAmount (Num 0)
    (filter (fun t => strictEq (Transaction.customerId t) (selectedCustomerId st)
                      && isType ty t)
       (transactions st)).

Definition ledgerDebits (st : AppState) : number := ledgerTotal DEBIT st.
Definition ledgerCredits (st : AppState) : number := ledgerTotal CREDIT st.

(** The condition of the notice under an empty ledger table. *)
Definition ledgerIsEmpty (st : AppState) : bool :=
  (List.length
     (filter (fun t => strictEq (Transaction.customerId t) (selectedCustomerId st))
        (transactions st)) =? 0)%nat.

(* ================================================================= *)
(** ** More vocabulary *)

(** What a finite number comes back as from a JSON text: itself, the
    negative zero as [0]. *)
Definition restoredNumber (n : number) : number :=
  if is_zero n then Num 0 else n.

Definition restoredTransaction (t : Transaction.t) : Transaction.t :=
  Transaction.mk (Transaction.id t) (Transaction.customerId t) (Transaction.date t)
    (Transaction.description t) (Transaction.type t) (restoredNumber (Transaction.amount t)).

Definition restoredCustomer (c : Customer.t) : Customer.t :=
  Customer.mk (Customer.id c) (Customer.companyId c) (Customer.name c)
    (Customer.phone c) (Customer.address c) (restoredNumber (Customer.openingBalance c)).

(** No opening balance of the state is [NaN]. *)
Definition openingBalancesAreNumbers (st : AppState) : Prop :=
  Forall (fun c => Customer.openingBalance c <> NaN) (customers st).

(** The freshly mounted state over empty collections. *)
Definition emptyState (today : string) : AppState :=
  mkState [] [] [] None None false false false
    CompanyForm.initial CustomerForm.initial (TxForm.mk today "" CREDIT "").

(** A sum of integers. *)
Definition sumOfZ {A : Type} (f : A -> Z) (l : list A) : Z :=
  fold_right (fun a acc => f a + acc) 0 l.

(** The transactions whose date is one of [days]. *)
Definition datedWithin (days : list string) (t : Transaction.t) : bool :=
  existsb (String.eqb (Transaction.date t)) days.

(** A storage holding an unreadable text under [customers]. *)
Definition brokenStorage : Storage :=
  [ ("customers", MalformedText); ("companies", JsonText (JArr [])) ].

(** Two customers of two companies, and transactions for both. *)
Definition twoCustomers : AppState :=
  mkState
    [ demoCompany; Company.mk "co2" "Bolt Ltd" "" (Some "") "2024-25" ]
    [ demoCustomer (Num 1000); Customer.mk "c2" "co2" "Ravi" "" "" (Num 0) ]
    [ Transaction.mk "t1" "c1" "2024-01-01" "" CREDIT (Num 500);
      Transaction.mk "t2" "c2" "2024-01-02" "" DEBIT (Num 200);
      Transaction.mk "t3" "c1" "2024-01-02" "" DEBIT (Num 50) ]
    (Some "co1") (Some "c1") false false false
    CompanyForm.initial CustomerForm.initial (TxForm.mk "2024-01-05" "" CREDIT "").


(** Three credits of 0.1, 0.2 and 0.3 for the demo customer, entered in
    this order and dated in the opposite order. *)
Definition tenths : list Transaction.t :=
  [ Transaction.mk "t1" "c1" "2024-01-03" "" CREDIT (Number "0.1");
    Transaction.mk "t2" "c1" "2024-01-02" "" CREDIT (Number "0.2");
    Transaction.mk "t3" "c1" "2024-01-01" "" CREDIT (Number "0.3") ].

(** The same three credits, dated in the order of their insertion. *)
Definition tenthsByDate : list Transaction.t :=
  [ Transaction.mk "t1" "c1" "2024-01-01" "" CREDIT (Number "0.1");
    Transaction.mk "t2" "c1" "2024-01-02" "" CREDIT (Number "0.2");
    Transaction.mk "t3" "c1" "2024-01-03" "" CREDIT (Number "0.3") ].

(** New York around the night of 10 March 2024, when its clocks went
    from 02:00 to 03:00 (07:00 UTC): five hours behind UTC before, four
    after.  [dstEvening] is 23:30 UTC of that day, 19:30 in New York. *)
Definition newYork : TimeZone :=
  mkZone (fun t => if t <? 1710054000000 then -18000000 else -14400000)
         (fun local => if local <? 1710039600000 then -18000000 else -14400000).

Definition dstEvening : Z := 1710113400000.

(** Noon UTC of 10 March 2024. *)
Definition noon_2024_03_10 : Z := msPerDay * day_2024_03_10 + 43200000.

(** Entries of 9 March 2024 and one of the day before. *)
Definition marchEntries : list Transaction.t :=
  [ Transaction.mk "t1" "c1" "2024-03-09" "" CREDIT (Num 500);
    Transaction.mk "t2" "c1" "2024-03-09" "" DEBIT (Num 200);
    Transaction.mk "t3" "c1" "2024-03-08" "" CREDIT (Num 70);
    Transaction.mk "t4" "c1" "2024-03-09" "" CREDIT (Num 50) ].

(** A backup document as [JSON.parse] reads it from a file in which the
    amount of the one transaction is written [1e999]: the number is
    [Infinity]. *)
Definition overflowBackup : json :=
  JObj [ ("companies", JArr [encodeCompany demoCompany]);
         ("customers", JArr [encodeCustomer (demoCustomer (Num 0))]);
         ("transactions",
          JArr [ JObj [ ("id", JStr "t1"); ("customerId", JStr "c1");
                        ("date", JStr "2024-01-01"); ("description", JStr "");
                        ("type", JStr "CREDIT"); ("amount", JNum Infinity) ] ]) ].

(** The demo customer with an opening balance of 1000.5 and the three
    credits of 0.1, 0.2 and 0.3. *)
Definition fractionsState : AppState :=
  demoState (Number "1000.5") tenths.
(* ================================================================= *)
(** * Properties *)

(** ** The arithmetic of the numbers

    Rocq specifies the primitive operations on [float] by their effect on
    the sign, mantissa and exponent ([Prim2SF], [SFadd], [SFsub]).  From
    that specification: an integer below [2 ^ 53] in absolute value is a
    number of the format, and adding or subtracting two of them is exact as
    long as the result stays below [2 ^ 53]. *)

Lemma digits2_log2 (p : positive) : Zpos (digits2_pos p) = Z.log2 (Zpos p) + 1.
Proof.
  induction p as [p IH|p IH|]; cbn [digits2_pos]; try reflexivity.
  - rewrite Pos2Z.inj_succ, IH.
    change (Z.log2 (Zpos p~1)) with (Zpos (Pos.size p)).
    destruct p; cbn; try reflexivity; rewrite ?Pos2Z.inj_succ; cbn in IH; lia.
  - rewrite Pos2Z.inj_succ, IH.
    change (Z.log2 (Zpos p~0)) with (Zpos (Pos.size p)).
    destruct p; cbn; try reflexivity; rewrite ?Pos2Z.inj_succ; cbn in IH; lia.
Qed.

Lemma iter_pos_nat {A : Type} (f : A -> A) (n : positive) (x : A) :
  iter_pos f n x = Nat.iter (Pos.to_nat n) f x.
Proof.
  revert x. induction n as [n IH|n IH|]; intros x; cbn [iter_pos].
  - rewrite !IH, Pos2Nat.inj_xI, <- Nat.iter_add.
    replace (Pos.to_nat n + Pos.to_nat n)%nat with (2 * Pos.to_nat n)%nat by lia.
    now rewrite Nat.iter_succ_r.
  - rewrite !IH, Pos2Nat.inj_xO, <- Nat.iter_add.
    f_equal. lia.
  - reflexivity.
Qed.

Lemma Zpos_iter_xO (m k : positive) :
  Zpos (Pos.iter xO m k) = Zpos m * 2 ^ Zpos k.
Proof.
  rewrite <- Z.shiftl_mul_pow2 by lia. cbn [Z.shiftl].
  apply (Pos.iter_swap_gen _ _ Zpos xO (Z.mul 2)). reflexivity.
Qed.

Lemma shr_exact_nat (n : nat) (q m : positive) :
  Zpos q = Zpos m * 2 ^ Z.of_nat n ->
  Nat.iter n shr_1 (Build_shr_record (Zpos q) false false)
  = Build_shr_record (Zpos m) false false.
Proof.
  revert q. induction n as [|n IH]; intros q Hq.
  - cbn in *. f_equal. lia.
  - rewrite Nat.iter_succ_r.
    rewrite Nat2Z.inj_succ, Z.pow_succ_r in Hq by lia.
    destruct q as [q|q|]; try lia.
    cbn [shr_1 orb]. apply IH. lia.
Qed.

Lemma shr_exact (k q m : positive) :
  Zpos q = Zpos m * 2 ^ Zpos k ->
  iter_pos shr_1 k (Build_shr_record (Zpos q) false false)
  = Build_shr_record (Zpos m) false false.
Proof.
  intros Hq. rewrite iter_pos_nat. apply shr_exact_nat.
  now rewrite positive_nat_Z.
Qed.

Lemma digits_mul_pow2 (m q : positive) (k : Z) :
  0 <= k -> Zpos q = Zpos m * 2 ^ k ->
  Zpos (digits2_pos q) = Zpos (digits2_pos m) + k.
Proof.
  intros Hk Hq. rewrite !digits2_log2, Hq, Z.log2_mul_pow2 by lia. lia.
Qed.

Lemma binary_round_aux_canonical (s : bool) (m : positive) (e : Z) :
  fexp prec emax (Zpos (digits2_pos m) + e) = e ->
  e <= emax - prec ->
  binary_round_aux prec emax s (Zpos m) e loc_Exact = S754_finite s m e.
Proof.
  intros Hc He. unfold binary_round_aux, shr_fexp.
  cbn [Zdigits2 shr_record_of_loc]. rewrite Hc, Z.sub_diag.
  cbn [shr shr_m loc_of_shr_record round_nearest_even Zdigits2 shr_record_of_loc].
  rewrite Hc, Z.sub_diag. cbn [shr shr_m].
  destruct (Z.leb_spec e (emax - prec)); [reflexivity | lia].
Qed.

(** Rounding a value that the format holds is exact. *)
Lemma binary_round_exact (s : bool) (q : positive) (e : Z) (m' : positive) :
  let e' := fexp prec emax (Zpos (digits2_pos q) + e) in
  e' <= emax - prec ->
  Zpos q * 2 ^ (Z.max 0 (e - e')) = Zpos m' * 2 ^ (Z.max 0 (e' - e)) ->
  binary_round prec emax s q e = S754_finite s m' e'.
Proof.
  intros e' He' Hv.
  assert (Hcases : (e' <= e /\ Zpos q * 2 ^ (e - e') = Zpos m')
                   \/ (e < e' /\ Zpos q = Zpos m' * 2 ^ (e' - e))).
  { destruct (Z.le_gt_cases e' e); [left | right]; split; try lia.
    - replace (Z.max 0 (e - e')) with (e - e') in Hv by lia.
      replace (Z.max 0 (e' - e)) with 0 in Hv by lia. lia.
    - replace (Z.max 0 (e - e')) with 0 in Hv by lia.
      replace (Z.max 0 (e' - e)) with (e' - e) in Hv by lia. lia. }
  clear Hv. unfold binary_round, shl_align. fold e'.
  destruct (e' - e) as [|k|k] eqn:Hk.
  - destruct Hcases as [[_ Hv]|[Hlt _]]; [|lia].
    assert (H : e' = e) by lia.
    replace (e - e') with 0 in Hv by lia.
    assert (q = m') by lia. subst m'.
    rewrite H. apply binary_round_aux_canonical; [|lia].
    rewrite <- H at 2. reflexivity.
  - destruct Hcases as [[Hle _]|[_ Hv]]; [lia|].
    replace (e' - e) with (Zpos k) in Hv by lia.
    assert (Hd : Zpos (digits2_pos q) = Zpos (digits2_pos m') + Zpos k)
      by (apply digits_mul_pow2; [lia | exact Hv]).
    unfold binary_round_aux, shr_fexp. cbn [Zdigits2 shr_record_of_loc].
    fold e'. rewrite Hk. cbn [shr]. rewrite (shr_exact k q m' Hv).
    cbn [shr_m loc_of_shr_record round_nearest_even Zdigits2 shr_record_of_loc].
    replace (e + Zpos k) with e' by lia.
    replace (fexp prec emax (Zpos (digits2_pos m') + e')) with e'
      by (unfold e' at 1; f_equal; lia).
    rewrite Z.sub_diag. cbn [shr shr_m].
    destruct (Z.leb_spec e' (emax - prec)); [reflexivity | lia].
  - destruct Hcases as [[_ Hv]|[Hlt _]]; [|lia].
    replace (e - e') with (Zpos k) in Hv by lia.
    assert (Hm : Pos.iter xO q k = m').
    { apply Pos2Z.inj. rewrite Zpos_iter_xO. exact Hv. }
    rewrite Hm.
    apply binary_round_aux_canonical; [|exact He'].
    unfold e'. f_equal.
    rewrite (digits_mul_pow2 q m' (Zpos k)); [lia | lia | now symmetry].
Qed.

Lemma log2_safe (v : Z) : 0 < v < 2 ^ 53 -> 0 <= Z.log2 v <= 52.
Proof.
  intros Hv. split; [apply Z.log2_nonneg|].
  assert (Z.log2 v < 53) by (apply Z.log2_lt_pow2; lia). lia.
Qed.

Lemma fexp_safe (d : Z) : 1 <= d -> fexp prec emax d = d - 53.
Proof. intros Hd. unfold fexp, SpecFloat.emin, prec, emax. lia. Qed.

Lemma canon_mantissa (v : Z) :
  0 < v < 2 ^ 53 ->
  Zpos (Z.to_pos (v * 2 ^ (52 - Z.log2 v))) = v * 2 ^ (52 - Z.log2 v).
Proof.
  intros Hv. pose proof (log2_safe v Hv).
  apply Z2Pos.id. apply Z.mul_pos_pos; [lia|]. apply Z.pow_pos_nonneg; lia.
Qed.

Lemma binary_round_int (s : bool) (q : positive) (e v : Z) :
  0 < v < 2 ^ 53 -> e <= 0 -> Zpos q = v * 2 ^ (- e) ->
  binary_round prec emax s q e = canon s v.
Proof.
  intros Hv He Hq. pose proof (log2_safe v Hv) as Hl.
  assert (Hd : Zpos (digits2_pos q) + e = Z.log2 v + 1).
  { rewrite digits2_log2, Hq, Z.log2_mul_pow2 by lia. lia. }
  assert (He' : fexp prec emax (Zpos (digits2_pos q) + e) = Z.log2 v - 52).
  { rewrite Hd, fexp_safe by lia. lia. }
  unfold canon. rewrite <- He'.
  apply binary_round_exact; rewrite He'.
  - unfold emax, prec. lia.
  - rewrite canon_mantissa, Hq by exact Hv.
    rewrite <- !Z.mul_assoc, <- !Z.pow_add_r by lia.
    f_equal. f_equal. lia.
Qed.

Lemma binary_normalize_safe (z : Z) :
  Z.abs z < 2 ^ 53 -> binary_normalize prec emax z 0 false = ncanon z.
Proof.
  intros Hz. unfold ncanon. destruct z as [|p|p]; cbn [binary_normalize Z.eqb].
  - reflexivity.
  - apply binary_round_int; [lia | lia | cbn; lia].
  - apply binary_round_int; [cbn; lia | lia | cbn; lia].
Qed.

Lemma canon_valid (s : bool) (v : Z) :
  0 < v < 2 ^ 53 -> valid_binary (canon s v) = true.
Proof.
  intros Hv. pose proof (log2_safe v Hv) as Hl.
  unfold canon. cbn [SpecFloat.valid_binary]. unfold bounded, canonical_mantissa.
  rewrite digits2_log2, canon_mantissa, Z.log2_mul_pow2 by lia.
  rewrite fexp_safe by lia.
  apply andb_true_iff. split; [apply Z.eqb_eq | apply Z.leb_le; unfold emax, prec]; lia.
Qed.

Lemma ncanon_valid (z : Z) : Z.abs z < 2 ^ 53 -> valid_binary (ncanon z) = true.
Proof.
  intros Hz. unfold ncanon. destruct (Z.eqb_spec z 0); [reflexivity|].
  apply canon_valid. lia.
Qed.

Lemma Prim2SF_Num (z : Z) : Z.abs z < 2 ^ 53 -> Prim2SF (Num z) = ncanon z.
Proof.
  intros Hz. unfold Num. rewrite binary_normalize_safe by exact Hz.
  apply Prim2SF_SF2Prim, ncanon_valid, Hz.
Qed.

Lemma shl_align_Z (mx : positive) (ex ez : Z) :
  ez <= ex -> Zpos (fst (shl_align mx ex ez)) = Zpos mx * 2 ^ (ex - ez).
Proof.
  intros Hle. unfold shl_align.
  destruct (ez - ex) as [|k|k] eqn:Hk; cbn [fst]; try lia.
  - replace (ex - ez) with 0 by lia. lia.
  - rewrite Zpos_iter_xO. f_equal. f_equal. lia.
Qed.

Lemma aligned (a ez : Z) :
  a <> 0 -> Z.abs a < 2 ^ 53 -> ez <= Z.log2 (Z.abs a) - 52 -> ez <= 0 ->
  cond_Zopp (a <? 0)
    (Zpos (fst (shl_align (Z.to_pos (Z.abs a * 2 ^ (52 - Z.log2 (Z.abs a))))
                  (Z.log2 (Z.abs a) - 52) ez)))
  = a * 2 ^ (- ez).
Proof.
  intros Ha Hs Hez Hez0.
  assert (Hv : 0 < Z.abs a < 2 ^ 53) by lia.
  pose proof (log2_safe _ Hv) as Hl.
  rewrite shl_align_Z, canon_mantissa by assumption.
  rewrite <- Z.mul_assoc, <- Z.pow_add_r by lia.
  replace (52 - Z.log2 (Z.abs a) + (Z.log2 (Z.abs a) - 52 - ez)) with (- ez) by lia.
  unfold cond_Zopp. destruct (Z.ltb_spec a 0); lia.
Qed.

Lemma binary_normalize_scaled (m ez v : Z) :
  Z.abs v < 2 ^ 53 -> ez <= 0 -> m = v * 2 ^ (- ez) ->
  binary_normalize prec emax m ez false = ncanon v.
Proof.
  intros Hv Hez Hm.
  assert (Hp : 0 < 2 ^ (- ez)) by (apply Z.pow_pos_nonneg; lia).
  unfold ncanon. destruct m as [|p|p]; cbn [binary_normalize].
  - assert (v = 0) by nia. subst v. reflexivity.
  - assert (0 < v) by nia.
    destruct (Z.eqb_spec v 0); [lia|]. destruct (Z.ltb_spec v 0); [lia|].
    rewrite Z.abs_eq by lia. apply binary_round_int; [lia | lia | exact Hm].
  - assert (v < 0) by nia.
    destruct (Z.eqb_spec v 0); [lia|]. destruct (Z.ltb_spec v 0); [|lia].
    apply binary_round_int; [lia | lia |].
    rewrite Z.abs_neq by lia. rewrite Z.mul_opp_l, <- Hm. reflexivity.
Qed.

Lemma SFadd_safe (a b : Z) :
  Z.abs a < 2 ^ 53 -> Z.abs b < 2 ^ 53 -> Z.abs (a + b) < 2 ^ 53 ->
  SFadd prec emax (ncanon a) (ncanon b) = ncanon (a + b).
Proof.
  intros Ha Hb Hab. unfold ncanon at 1 2.
  destruct (Z.eqb_spec a 0) as [->|Hna], (Z.eqb_spec b 0) as [->|Hnb]; cbn [SFadd canon].
  - reflexivity.
  - rewrite Z.add_0_l. unfold ncanon. destruct (Z.eqb_spec b 0); [lia | reflexivity].
  - rewrite Z.add_0_r. unfold ncanon. destruct (Z.eqb_spec a 0); [lia | reflexivity].
  - assert (Hva : 0 < Z.abs a < 2 ^ 53) by lia.
    assert (Hvb : 0 < Z.abs b < 2 ^ 53) by lia.
    pose proof (log2_safe _ Hva). pose proof (log2_safe _ Hvb).
    set (ez := Z.min (Z.log2 (Z.abs a) - 52) (Z.log2 (Z.abs b) - 52)).
    apply binary_normalize_scaled; [exact Hab | lia |].
    rewrite !aligned by lia. lia.
Qed.

Lemma SFsub_safe (a b : Z) :
  Z.abs a < 2 ^ 53 -> Z.abs b < 2 ^ 53 -> Z.abs (a - b) < 2 ^ 53 ->
  SFsub prec emax (ncanon a) (ncanon b) = ncanon (a - b).
Proof.
  intros Ha Hb Hab. unfold ncanon at 1 2.
  destruct (Z.eqb_spec a 0) as [->|Hna], (Z.eqb_spec b 0) as [->|Hnb]; cbn [SFsub canon].
  - reflexivity.
  - unfold ncanon, canon. destruct (Z.eqb_spec (0 - b) 0); [lia|].
    replace (Z.abs (0 - b)) with (Z.abs b) by lia.
    f_equal. destruct (Z.ltb_spec b 0), (Z.ltb_spec (0 - b) 0); try reflexivity; lia.
  - rewrite Z.sub_0_r. unfold ncanon. destruct (Z.eqb_spec a 0); [lia | reflexivity].
  - assert (Hva : 0 < Z.abs a < 2 ^ 53) by lia.
    assert (Hvb : 0 < Z.abs b < 2 ^ 53) by lia.
    pose proof (log2_safe _ Hva). pose proof (log2_safe _ Hvb).
    set (ez := Z.min (Z.log2 (Z.abs a) - 52) (Z.log2 (Z.abs b) - 52)).
    apply binary_normalize_scaled; [exact Hab | lia |].
    rewrite !aligned by lia. lia.
Qed.

Theorem add_Num (a b : Z) :
  Z.abs a < 2 ^ 53 -> Z.abs b < 2 ^ 53 -> Z.abs (a + b) < 2 ^ 53 ->
  add (Num a) (Num b) = Num (a + b).
Proof.
  intros Ha Hb Hab. unfold add. apply Prim2SF_inj.
  rewrite add_spec, !Prim2SF_Num by assumption. now apply SFadd_safe.
Qed.

Theorem sub_Num (a b : Z) :
  Z.abs a < 2 ^ 53 -> Z.abs b < 2 ^ 53 -> Z.abs (a - b) < 2 ^ 53 ->
  sub (Num a) (Num b) = Num (a - b).
Proof.
  intros Ha Hb Hab. unfold sub. apply Prim2SF_inj.
  rewrite sub_spec, !Prim2SF_Num by assumption. now apply SFsub_safe.
Qed.

Lemma toZ_Num (z : Z) : Z.abs z < 2 ^ 53 -> toZ (Num z) = z.
Proof.
  intros Hz. unfold toZ. rewrite Prim2SF_Num by exact Hz. unfold ncanon.
  destruct (Z.eqb_spec z 0) as [->|Hnz]; [reflexivity|].
  assert (Hv : 0 < Z.abs z < 2 ^ 53) by lia.
  pose proof (log2_safe _ Hv) as Hl.
  unfold canon. rewrite canon_mantissa by exact Hv.
  assert (Hp : 0 < 2 ^ (52 - Z.log2 (Z.abs z))) by (apply Z.pow_pos_nonneg; lia).
  assert (Hval : (if 0 <=? Z.log2 (Z.abs z) - 52
                  then Z.abs z * 2 ^ (52 - Z.log2 (Z.abs z)) * 2 ^ (Z.log2 (Z.abs z) - 52)
                  else Z.abs z * 2 ^ (52 - Z.log2 (Z.abs z))
                       / 2 ^ (- (Z.log2 (Z.abs z) - 52))) = Z.abs z).
  { destruct (Z.leb_spec 0 (Z.log2 (Z.abs z) - 52)).
    - replace (Z.log2 (Z.abs z)) with 52 by lia. cbn. lia.
    - replace (- (Z.log2 (Z.abs z) - 52)) with (52 - Z.log2 (Z.abs z)) by lia.
      apply Z.div_mul. lia. }
  rewrite Hval. destruct (Z.ltb_spec z 0); lia.
Qed.

Lemma Num_inj (a b : Z) :
  Z.abs a < 2 ^ 53 -> Z.abs b < 2 ^ 53 -> Num a = Num b -> a = b.
Proof.
  intros Ha Hb H. rewrite <- (toZ_Num a Ha), <- (toZ_Num b Hb). now rewrite H.
Qed.

Lemma gt0_Num (z : Z) :
  Z.abs z < 2 ^ 53 -> gt0 (Num z) = (0 <? z).
Proof.
  intros Hz. unfold gt0. rewrite ltb_spec, !Prim2SF_Num by (cbn; lia).
  unfold ncanon. cbn [Z.eqb].
  destruct (Z.eqb_spec z 0) as [->|Hnz]; [reflexivity|].
  unfold canon, SFltb, SFcompare.
  destruct (Z.ltb_spec z 0), (Z.ltb_spec 0 z); try reflexivity; lia.
Qed.

Lemma is_nan_Num (z : Z) : Z.abs z < 2 ^ 53 -> is_nan (Num z) = false.
Proof.
  intros Hz. unfold is_nan. rewrite eqb_spec, Prim2SF_Num by exact Hz.
  unfold ncanon. destruct (Z.eqb_spec z 0); [reflexivity|].
  unfold canon, SFeqb, SFcompare.
  rewrite Z.compare_refl, Pos.compare_cont_refl.
  destruct (z <? 0); reflexivity.
Qed.

Lemma is_zero_Num (z : Z) : Z.abs z < 2 ^ 53 -> is_zero (Num z) = (z =? 0).
Proof.
  intros Hz. unfold is_zero. rewrite eqb_spec, Prim2SF_Num by exact Hz.
  change (Prim2SF zero) with (S754_zero false).
  unfold ncanon. destruct (Z.eqb_spec z 0); [reflexivity|].
  unfold canon, SFeqb, SFcompare. destruct (z <? 0); reflexivity.
Qed.

Lemma is_infinity_Num (z : Z) : Z.abs z < 2 ^ 53 -> is_infinity (Num z) = false.
Proof.
  intros Hz. unfold is_infinity. rewrite eqb_spec, abs_spec, Prim2SF_Num by exact Hz.
  change (Prim2SF infinity) with (S754_infinity false).
  unfold ncanon. destruct (Z.eqb_spec z 0); [reflexivity|].
  reflexivity.
Qed.

Lemma is_finite_Num (z : Z) : Z.abs z < 2 ^ 53 -> is_finite (Num z) = true.
Proof.
  intros Hz. unfold is_finite. now rewrite is_nan_Num, is_infinity_Num.
Qed.

Lemma whole_Num (z : Z) : Z.abs z < 2 ^ 53 -> whole (Num z).
Proof. intros Hz. unfold whole. now rewrite toZ_Num. Qed.

Lemma truthy_Num (z : Z) : Z.abs z < 2 ^ 53 -> truthy (Num z) = negb (z =? 0).
Proof.
  intros Hz. unfold truthy. now rewrite is_nan_Num, is_zero_Num.
Qed.

Lemma orZero_Num (z : Z) : Z.abs z < 2 ^ 53 -> orZero (Num z) = Num z.
Proof.
  intros Hz. unfold orZero. rewrite truthy_Num by exact Hz.
  destruct (Z.eqb_spec z 0) as [->|]; reflexivity.
Qed.

(** Two whole numbers with room for their sum. *)
Lemma add_whole (x y : number) :
  whole x -> whole y -> Z.abs (toZ x) + Z.abs (toZ y) < 2 ^ 53 ->
  add x y = Num (toZ x + toZ y).
Proof.
  unfold whole. intros Hx Hy Hb.
  replace (add x y) with (add (Num (toZ x)) (Num (toZ y))) by congruence.
  apply add_Num; lia.
Qed.

Lemma sub_whole (x y : number) :
  whole x -> whole y -> Z.abs (toZ x) + Z.abs (toZ y) < 2 ^ 53 ->
  sub x y = Num (toZ x - toZ y).
Proof.
  unfold whole. intros Hx Hy Hb.
  replace (sub x y) with (sub (Num (toZ x)) (Num (toZ y))) by congruence.
  apply sub_Num; lia.
Qed.

Lemma NaN_not_Num (z : Z) : Z.abs z < 2 ^ 53 -> Num z <> NaN.
Proof.
  intros Hz H. pose proof (is_nan_Num z Hz) as Hn. rewrite H in Hn. discriminate Hn.
Qed.

Lemma truthy_not_NaN (v : number) : truthy v = true -> v <> NaN.
Proof.
  unfold truthy. intros H ->. discriminate H.
Qed.

Lemma orZero_not_NaN (v : number) : orZero v <> NaN.
Proof.
  unfold orZero. destruct (truthy v) eqn:Ht.
  - now apply truthy_not_NaN.
  - apply NaN_not_Num. cbn. lia.
Qed.

(** The two zeros are the numbers that [is_zero] accepts. *)
Lemma is_zero_cases (x : number) : is_zero x = true -> x = Num 0 \/ x = neg_zero.
Proof.
  unfold is_zero. rewrite eqb_spec. change (Prim2SF zero) with (S754_zero false).
  intros H. rewrite <- (SF2Prim_Prim2SF x).
  destruct (Prim2SF x) as [[|]|s| |s m e]; try (destruct s; discriminate H);
    try discriminate H.
  - now right.
  - now left.
Qed.

Lemma truthyStr_true (s : string) : truthyStr s = true <-> s <> EmptyString.
Proof.
  unfold truthyStr. destruct (String.eqb_spec s EmptyString); simpl; split;
    intros; congruence.
Qed.

Lemma truthyStr_false (s : string) : truthyStr s = false <-> s = EmptyString.
Proof.
  unfold truthyStr. destruct (String.eqb_spec s EmptyString); simpl; split;
    intros; congruence.
Qed.

(** A closed equation between two different numbers is refuted by their
    signs, mantissas and exponents. *)
Ltac numbers_differ H :=
  apply (f_equal Prim2SF) in H; vm_compute in H; discriminate H.

Lemma is_nan_NaN (x : number) : is_nan x = true -> x = NaN.
Proof.
  unfold is_nan. rewrite eqb_spec. intros H.
  rewrite <- (SF2Prim_Prim2SF x).
  destruct (Prim2SF x) as [s|s| |s m e]; try reflexivity; exfalso.
  - destruct s; discriminate H.
  - destruct s; discriminate H.
  - unfold SFeqb, SFcompare in H.
    rewrite Z.compare_refl, Pos.compare_cont_refl in H.
    destruct s; discriminate H.
Qed.

Lemma orZero_truthy (x : number) :
  x <> NaN -> is_zero x = false -> orZero x = x.
Proof.
  intros Hn Hz. unfold orZero, truthy. rewrite Hz.
  destruct (is_nan x) eqn:Hnan; [|reflexivity].
  elim Hn. now apply is_nan_NaN.
Qed.

Lemma orZero_NaN : orZero NaN = Num 0.
Proof. reflexivity. Qed.

(** ** Sums *)

(** [filter] and [reduce], as the program adds up, against one pass over
    the collection. *)
Lemma reduce_sumFrom (ty : TransactionType) (l : list Transaction.t) (acc : number) :
  reduce plusAmount acc (filter (isType ty) l) = sumFrom acc ty l.
Proof.
  unfold reduce. revert acc.
  induction l as [|t l IH]; intros acc; [reflexivity|].
  cbn [filter sumFrom]. unfold isType at 1.
  destruct (Transaction.type t), ty; cbn [typeEqb fold_left]; apply IH.
Qed.

Lemma reduce_filter_sumAmounts (ty : TransactionType) (l : list Transaction.t) :
  reduce plusAmount (Num 0) (filter (isType ty) l) = sumAmounts ty l.
Proof. apply reduce_sumFrom. Qed.

Lemma sumFrom_app (ty : TransactionType) (l1 l2 : list Transaction.t) (acc : number) :
  sumFrom acc ty (l1 ++ l2) = sumFrom (sumFrom acc ty l1) ty l2.
Proof.
  revert acc. induction l1 as [|t l1 IH]; intros acc; [reflexivity|].
  cbn [app sumFrom]. destruct (Transaction.type t), ty; apply IH.
Qed.

Lemma magnitude_nonneg (l : list Transaction.t) : 0 <= magnitude l.
Proof. induction l as [|t l IH]; cbn [magnitude]; lia. Qed.

Lemma totalZ_bound (ty : TransactionType) (l : list Transaction.t) :
  Z.abs (totalZ ty l) <= magnitude l.
Proof.
  induction l as [|t l IH]; cbn [totalZ magnitude]; [lia|].
  destruct (Transaction.type t), ty; lia.
Qed.

Lemma totals_bound (l : list Transaction.t) :
  Z.abs (totalZ CREDIT l) + Z.abs (totalZ DEBIT l) <= magnitude l.
Proof.
  induction l as [|t l IH]; cbn [totalZ magnitude]; [lia|].
  destruct (Transaction.type t); lia.
Qed.

Lemma totalZ_app (ty : TransactionType) (l1 l2 : list Transaction.t) :
  totalZ ty (l1 ++ l2) = totalZ ty l1 + totalZ ty l2.
Proof.
  induction l1 as [|t l1 IH]; cbn [app totalZ]; [lia|].
  destruct (Transaction.type t), ty; lia.
Qed.

Lemma magnitude_app (l1 l2 : list Transaction.t) :
  magnitude (l1 ++ l2) = magnitude l1 + magnitude l2.
Proof. induction l1 as [|t l1 IH]; cbn [app magnitude]; lia. Qed.

Lemma totalZ_Permutation (ty : TransactionType) (l l' : list Transaction.t) :
  Permutation l l' -> totalZ ty l = totalZ ty l'.
Proof.
  induction 1 as [|x l l' _ IH|x y l|l l' l'' _ IH1 _ IH2]; cbn [totalZ].
  - reflexivity.
  - now rewrite IH.
  - destruct (Transaction.type x), (Transaction.type y), ty; lia.
  - congruence.
Qed.

Lemma magnitude_Permutation (l l' : list Transaction.t) :
  Permutation l l' -> magnitude l = magnitude l'.
Proof.
  induction 1 as [|x l l' _ IH|x y l|l l' l'' _ IH1 _ IH2]; cbn [magnitude]; lia.
Qed.

Lemma magnitude_filter (p : Transaction.t -> bool) (l : list Transaction.t) :
  magnitude (filter p l) <= magnitude l.
Proof.
  induction l as [|t l IH]; cbn [filter magnitude]; [lia|].
  destruct (p t); cbn [magnitude]; lia.
Qed.

Lemma exact_Permutation (opening : number) (l l' : list Transaction.t) :
  Permutation l l' -> exact opening l -> exact opening l'.
Proof.
  intros Hp [Ho [Hw Hb]]. split; [exact Ho|]. split.
  - eapply Permutation_Forall; eassumption.
  - now rewrite <- (magnitude_Permutation l l' Hp).
Qed.

Lemma exact_filter (opening : number) (p : Transaction.t -> bool)
    (l : list Transaction.t) :
  exact opening l -> exact opening (filter p l).
Proof.
  intros [Ho [Hw Hb]]. split; [exact Ho|]. split.
  - apply Forall_forall. intros t Ht. apply filter_In in Ht.
    rewrite Forall_forall in Hw. now apply Hw.
  - pose proof (magnitude_filter p l). lia.
Qed.

Lemma exact_zero (opening : number) (l : list Transaction.t) :
  exact opening l -> exact (Num 0) l.
Proof.
  intros [_ [Hw Hb]]. split; [apply whole_Num; cbn; lia|]. split; [exact Hw|].
  rewrite toZ_Num by (cbn; lia). cbn [Z.abs]. lia.
Qed.

(** On whole amounts with room, the program's sum is the sum of the
    integers. *)
Lemma sumFrom_exact (ty : TransactionType) (l : list Transaction.t) (a : Z) :
  Forall (fun t => whole (Transaction.amount t)) l ->
  Z.abs a + magnitude l < 2 ^ 53 ->
  sumFrom (Num a) ty l = Num (a + totalZ ty l).
Proof.
  revert a. induction l as [|t l IH]; intros a Hw Hb; cbn [sumFrom totalZ].
  - now rewrite Z.add_0_r.
  - inversion Hw as [|? ? Ht Hl]; subst. cbn [magnitude] in Hb.
    pose proof (magnitude_nonneg l).
    assert (Hadd : add (Num a) (Transaction.amount t) = Num (a + amountZ t)).
    { rewrite (add_whole (Num a) (Transaction.amount t)).
      - rewrite toZ_Num by lia. reflexivity.
      - apply whole_Num. lia.
      - exact Ht.
      - rewrite toZ_Num by lia. unfold amountZ in Hb. lia. }
    destruct (Transaction.type t), ty; rewrite ?Hadd, IH; try assumption;
      try lia; f_equal; lia.
Qed.

Lemma sumAmounts_exact (ty : TransactionType) (l : list Transaction.t) :
  exact (Num 0) l -> sumAmounts ty l = Num (totalZ ty l).
Proof.
  intros [_ [Hw Hb]]. rewrite toZ_Num in Hb by (cbn; lia).
  unfold sumAmounts. rewrite sumFrom_exact by (cbn [Z.abs] in *; lia || assumption).
  reflexivity.
Qed.

(** The balance formula on whole numbers with room. *)
Lemma balanceOver_exact (opening : number) (l : list Transaction.t) :
  exact opening l -> balanceOver opening l = Num (toZ opening + netZ l).
Proof.
  intros Hex. pose proof (exact_zero _ _ Hex) as Hex0.
  destruct Hex as [Ho [Hw Hb]].
  unfold balanceOver, netZ. rewrite !sumAmounts_exact by exact Hex0.
  pose proof (totalZ_bound CREDIT l). pose proof (totalZ_bound DEBIT l).
  pose proof (totals_bound l). pose proof (magnitude_nonneg l).
  rewrite (add_whole opening).
  - rewrite toZ_Num by lia. rewrite sub_Num by lia. f_equal. lia.
  - exact Ho.
  - apply whole_Num. lia.
  - rewrite toZ_Num by lia. lia.
Qed.

(** C7. For every state, [stats] reports as [totalDebit] the sum of the
    amounts of all DEBIT transactions and as [totalCredit] the sum over all
    CREDIT transactions (the amounts added one after the other in the
    order of the collection, from [0]), as [totalBalance] their difference
    [totalCredit - totalDebit], and as the two counts the sizes of the
    companies and customers collections.  On whole amounts whose absolute
    values add up to less than [2 ^ 53] the totals are the sums of the
    integers.  The state [twoCustomers] has the totals 250, 250 and 500 and
    the counts 2 and 2; credits of 0.1, 0.2 and 0.3 total
    0.6000000000000001. *)
Theorem stats_spec (st : AppState) :
  DashboardStats.totalDebit (stats st) = sumAmounts DEBIT (transactions st)
  /\ DashboardStats.totalCredit (stats st) = sumAmounts CREDIT (transactions st)
  /\ DashboardStats.totalBalance (stats st)
     = sub (sumAmounts CREDIT (transactions st)) (sumAmounts DEBIT (transactions st))
  /\ DashboardStats.activeCompanies (stats st) = Num (Z.of_nat (List.length (companies st)))
  /\ DashboardStats.activeCustomers (stats st) = Num (Z.of_nat (List.length (customers st)))
  /\ (exact (Num 0) (transactions st) ->
      DashboardStats.totalDebit (stats st) = Num (totalZ DEBIT (transactions st))
      /\ DashboardStats.totalCredit (stats st) = Num (totalZ CREDIT (transactions st))
      /\ DashboardStats.totalBalance (stats st) = Num (netZ (transactions st)))
  /\ stats twoCustomers = DashboardStats.mk (Num 250) (Num 250) (Num 500) (Num 2) (Num 2)
  /\ DashboardStats.totalCredit (stats (demoState (Num 0) tenths))
     = Number "0.6000000000000001".
Proof.
  unfold stats; cbn [DashboardStats.totalDebit DashboardStats.totalCredit
                     DashboardStats.totalBalance DashboardStats.activeCompanies
                     DashboardStats.activeCustomers].
  rewrite !reduce_filter_sumAmounts.
  do 5 (split; [reflexivity|]).
  split; [|split; vm_compute; reflexivity].
  intros Hex. rewrite !sumAmounts_exact by exact Hex.
  split; [reflexivity|]. split; [reflexivity|].
  destruct Hex as [_ [_ Hb]]. rewrite toZ_Num in Hb by (cbn; lia).
  pose proof (totals_bound (transactions st)).
  pose proof (totalZ_bound CREDIT (transactions st)).
  pose proof (totalZ_bound DEBIT (transactions st)).
  cbn [Z.abs] in Hb. apply sub_Num; lia.
Qed.

Lemma stats_spec_witness :
  DashboardStats.totalDebit (stats twoCustomers) = Num 250
  /\ DashboardStats.totalCredit (stats twoCustomers) = Num 500
  /\ DashboardStats.totalBalance (stats twoCustomers) = Num 250.
Proof.
  apply (stats_spec twoCustomers).
  split; [reflexivity|]. split; [|vm_compute; reflexivity].
  repeat constructor.
Defined.
(** ** The add handlers *)

Lemma handleAddCompany_accepts (generateId : string) (st : AppState) :
  CompanyForm.name (companyForm st) <> EmptyString ->
  handleAddCompany generateId st =
  setIsCompanyModalOpen false
    (setCompanyForm CompanyForm.initial
       (setCompanies
          (companies st ++
           [Company.mk generateId
              (CompanyForm.name (companyForm st))
              (CompanyForm.address (companyForm st))
              (Some (CompanyForm.gst (companyForm st)))
              (CompanyForm.fy (companyForm st))]) st)).
Proof.
  intros Hname. unfold handleAddCompany.
  apply truthyStr_true in Hname. now rewrite Hname.
Qed.

Lemma handleAddCustomer_accepts (generateId selected : string) (st : AppState) :
  selectedCompanyId st = Some selected ->
  selected <> EmptyString ->
  CustomerForm.name (customerForm st) <> EmptyString ->
  handleAddCustomer generateId st =
  setIsCustomerModalOpen false
    (setCustomerForm CustomerForm.initial
       (setCustomers
          (customers st ++
           [Customer.mk generateId selected
              (CustomerForm.name (customerForm st))
              (CustomerForm.phone (customerForm st))
              EmptyString
              (orZero (Number (CustomerForm.openingBalance (customerForm st))))]) st)).
Proof.
  intros Hsel Hne Hname. unfold handleAddCustomer. rewrite Hsel.
  apply truthyStr_true in Hne, Hname. now rewrite Hne, Hname.
Qed.

Lemma handleAddCustomer_rejects (generateId : string) (st : AppState) :
  truthyRef (selectedCompanyId st) = false
  \/ CustomerForm.name (customerForm st) = EmptyString ->
  handleAddCustomer generateId st = st.
Proof.
  unfold handleAddCustomer, truthyRef.
  destruct (selectedCompanyId st) as [selected|]; [|reflexivity].
  intros [H|H].
  - now rewrite H.
  - apply truthyStr_false in H. rewrite H. now rewrite orb_true_r.
Qed.

Lemma handleAddTransaction_accepts (generateId today selected : string) (st : AppState) :
  selectedCustomerId st = Some selected ->
  selected <> EmptyString ->
  TxForm.amount (txForm st) <> EmptyString ->
  handleAddTransaction generateId today st =
  setIsTransactionModalOpen false
    (setTxForm (TxForm.mk today EmptyString CREDIT EmptyString)
       (setTransactions
          (transactions st ++
           [Transaction.mk generateId selected
              (TxForm.date (txForm st))
              (TxForm.desc (txForm st))
              (TxForm.type (txForm st))
              (Number (TxForm.amount (txForm st)))]) st)).
Proof.
  intros Hsel Hne Hamount. unfold handleAddTransaction. rewrite Hsel.
  apply truthyStr_true in Hne, Hamount. now rewrite Hne, Hamount.
Qed.

Lemma handleAddTransaction_rejects (generateId today : string) (st : AppState) :
  truthyRef (selectedCustomerId st) = false
  \/ TxForm.amount (txForm st) = EmptyString ->
  handleAddTransaction generateId today st = st.
Proof.
  unfold handleAddTransaction, truthyRef.
  destruct (selectedCustomerId st) as [selected|]; [|reflexivity].
  intros [H|H].
  - now rewrite H.
  - apply truthyStr_false in H. rewrite H. now rewrite orb_true_r.
Qed.

(** C10. Every add handler that passes its guard appends exactly one record
    at the end of its own collection: the records that were there stay, in
    their order, in front of the new one, and the other two collections are
    the ones of the state before. *)
Theorem add_handlers_append_one :
  (forall generateId st,
      CompanyForm.name (companyForm st) <> EmptyString ->
      exists c,
        Company.id c = generateId
        /\ companies (handleAddCompany generateId st) = companies st ++ [c]
        /\ customers (handleAddCompany generateId st) = customers st
        /\ transactions (handleAddCompany generateId st) = transactions st)
  /\ (forall generateId selected st,
      selectedCompanyId st = Some selected ->
      selected <> EmptyString ->
      CustomerForm.name (customerForm st) <> EmptyString ->
      exists c,
        Customer.id c = generateId
        /\ customers (handleAddCustomer generateId st) = customers st ++ [c]
        /\ companies (handleAddCustomer generateId st) = companies st
        /\ transactions (handleAddCustomer generateId st) = transactions st)
  /\ (forall generateId today selected st,
      selectedCustomerId st = Some selected ->
      selected <> EmptyString ->
      TxForm.amount (txForm st) <> EmptyString ->
      exists t,
        Transaction.id t = generateId
        /\ transactions (handleAddTransaction generateId today st) = transactions st ++ [t]
        /\ companies (handleAddTransaction generateId today st) = companies st
        /\ customers (handleAddTransaction generateId today st) = customers st).
Proof.
  split; [|split].
  - intros generateId st Hname.
    rewrite (handleAddCompany_accepts generateId st Hname).
    eexists; repeat split; reflexivity.
  - intros generateId selected st Hsel Hne Hname.
    rewrite (handleAddCustomer_accepts generateId selected st Hsel Hne Hname).
    eexists; repeat split; reflexivity.
  - intros generateId today selected st Hsel Hne Hamount.
    rewrite (handleAddTransaction_accepts generateId today selected st Hsel Hne Hamount).
    eexists; repeat split; reflexivity.
Qed.

Lemma add_handlers_append_one_witness :
  (exists c,
      Company.id c = "co2"%string
      /\ companies (handleAddCompany "co2" (demoForms (demoState (Num 0) []) "250"))
         = [demoCompany; c])
  /\ (exists c,
      Customer.id c = "c2"%string
      /\ customers (handleAddCustomer "c2" (demoForms (demoState (Num 0) []) "250"))
         = [demoCustomer (Num 0); c])
  /\ (exists t,
      Transaction.id t = "t1"%string
      /\ transactions
           (handleAddTransaction "t1" "2024-01-05" (demoForms (demoState (Num 0) []) "250"))
         = [t]).
Proof.
  destruct add_handlers_append_one as [Hco [Hcu Htx]].
  split; [|split].
  - destruct (Hco "co2"%string (demoForms (demoState (Num 0) []) "250"))
      as [c [Hid [Hc _]]]; [discriminate|].
    exists c; split; [exact Hid | exact Hc].
  - destruct (Hcu "c2"%string "co1"%string (demoForms (demoState (Num 0) []) "250"))
      as [c [Hid [Hc _]]]; [reflexivity | discriminate | discriminate |].
    exists c; split; [exact Hid | exact Hc].
  - destruct (Htx "t1"%string "2024-01-05"%string "c1"%string
                (demoForms (demoState (Num 0) []) "250"))
      as [t [Hid [Ht _]]]; [reflexivity | discriminate | discriminate |].
    exists t; split; [exact Hid | exact Ht].
Defined.

(** C3, as the code has it. [handleAddTransaction] changes nothing when no
    customer is selected (the selection is [null] or the empty text) or the
    amount text is empty.  In every other case it appends exactly one
    transaction for the selected id, whose amount is [Number] of the amount
    text whatever that is (a fraction, zero, a negative number), and leaves
    companies and customers as they were; it does not look the selected id
    up in the customers. *)
Theorem handleAddTransaction_spec (generateId today : string) (st : AppState) :
  (truthyRef (selectedCustomerId st) = false
   \/ TxForm.amount (txForm st) = EmptyString ->
   handleAddTransaction generateId today st = st)
  /\ (forall selected,
      selectedCustomerId st = Some selected ->
      selected <> EmptyString ->
      TxForm.amount (txForm st) <> EmptyString ->
      transactions (handleAddTransaction generateId today st)
      = transactions st ++
        [Transaction.mk generateId selected
           (TxForm.date (txForm st)) (TxForm.desc (txForm st))
           (TxForm.type (txForm st)) (Number (TxForm.amount (txForm st)))]
      /\ companies (handleAddTransaction generateId today st) = companies st
      /\ customers (handleAddTransaction generateId today st) = customers st).
Proof.
  split.
  - apply handleAddTransaction_rejects.
  - intros selected Hsel Hne Hamount.
    rewrite (handleAddTransaction_accepts generateId today selected st Hsel Hne Hamount).
    repeat split; reflexivity.
Qed.

Lemma handleAddTransaction_spec_witness :
  handleAddTransaction "t1" "2024-01-05" initialState = initialState
  /\ transactions
       (handleAddTransaction "t1" "2024-01-05" (demoForms (demoState (Num 0) []) "250"))
     = [Transaction.mk "t1" "c1" "2024-01-01" "rent" DEBIT (Num 250)]
  /\ transactions
       (handleAddTransaction "t1" "2024-01-05" (demoForms (demoState (Num 0) []) "12.50"))
     = [Transaction.mk "t1" "c1" "2024-01-01" "rent" DEBIT 12.5%float]
  /\ transactions
       (handleAddTransaction "t1" "2024-01-05" (demoForms (demoState (Num 0) []) "1e3"))
     = [Transaction.mk "t1" "c1" "2024-01-01" "rent" DEBIT (Num 1000)].
Proof.
  split; [|split; [|split]].
  - apply (handleAddTransaction_spec "t1" "2024-01-05" initialState).
    left; reflexivity.
  - apply (handleAddTransaction_spec "t1" "2024-01-05"
             (demoForms (demoState (Num 0) []) "250") ).
    + reflexivity.
    + discriminate.
    + discriminate.
  - apply (handleAddTransaction_spec "t1" "2024-01-05"
             (demoForms (demoState (Num 0) []) "12.50") ).
    + reflexivity.
    + discriminate.
    + discriminate.
  - apply (handleAddTransaction_spec "t1" "2024-01-05"
             (demoForms (demoState (Num 0) []) "1e3") ).
    + reflexivity.
    + discriminate.
    + discriminate.
Defined.

(** C3 as stated fails on both counts: a transaction is stored for a
    selected id that no customer has, and a transaction is stored for the
    amount texts [0] and [-5], which an [<input type="number">] delivers,
    with the amounts [0] and [-5]. *)
Lemma handleAddTransaction_stores_unchecked :
  ~ (forall generateId today st,
        currentCustomer st = None ->
        handleAddTransaction generateId today st = st)
  /\ ~ (forall generateId today st,
        gt0 (Number (TxForm.amount (txForm st))) = false ->
        handleAddTransaction generateId today st = st)
  /\ map Transaction.amount
       (transactions (handleAddTransaction "t1" "2024-01-05"
                        (demoForms (demoState (Num 0) []) "0"))) = [Num 0]
  /\ map Transaction.amount
       (transactions (handleAddTransaction "t1" "2024-01-05"
                        (demoForms (demoState (Num 0) []) "-5"))) = [Num (-5)].
Proof.
  split; [|split; [|split; reflexivity]].
  - intros H.
    specialize (H "t1"%string "2024-01-05"%string (demoForms danglingState "250")
                  eq_refl).
    apply (f_equal transactions) in H. discriminate H.
  - intros H.
    specialize (H "t1"%string "2024-01-05"%string
                  (demoForms (demoState (Num 0) []) "-5") eq_refl).
    apply (f_equal transactions) in H. discriminate H.
Qed.

(** C4, as the code has it. [handleAddCustomer] changes nothing when no
    company is selected (the selection is [null] or the empty text) or the
    name is empty.  In every other case it appends exactly one customer for
    the selected id, leaving companies and transactions as they were; it
    does not look the selected id up in the companies.  The opening balance
    is [Number(text) || 0]: the number the text denotes, and [0] when the
    text denotes none ([NaN]) or a zero. *)
Theorem handleAddCustomer_spec (generateId : string) (st : AppState) :
  (truthyRef (selectedCompanyId st) = false
   \/ CustomerForm.name (customerForm st) = EmptyString ->
   handleAddCustomer generateId st = st)
  /\ (forall selected,
      selectedCompanyId st = Some selected ->
      selected <> EmptyString ->
      CustomerForm.name (customerForm st) <> EmptyString ->
      exists opening,
        customers (handleAddCustomer generateId st)
        = customers st ++
          [Customer.mk generateId selected
             (CustomerForm.name (customerForm st)) (CustomerForm.phone (customerForm st))
             EmptyString opening]
        /\ (Number (CustomerForm.openingBalance (customerForm st)) <> NaN ->
            is_zero (Number (CustomerForm.openingBalance (customerForm st))) = false ->
            opening = Number (CustomerForm.openingBalance (customerForm st)))
        /\ (Number (CustomerForm.openingBalance (customerForm st)) = NaN ->
            opening = Num 0)
        /\ (is_zero (Number (CustomerForm.openingBalance (customerForm st))) = true ->
            opening = Num 0)
        /\ companies (handleAddCustomer generateId st) = companies st
        /\ transactions (handleAddCustomer generateId st) = transactions st).
Proof.
  split.
  - apply handleAddCustomer_rejects.
  - intros selected Hsel Hne Hname.
    rewrite (handleAddCustomer_accepts generateId selected st Hsel Hne Hname).
    eexists; split; [reflexivity|].
    split; [apply orZero_truthy|].
    split; [intros ->; reflexivity|].
    split; [|split; reflexivity].
    intros Hz. unfold orZero, truthy. rewrite Hz, orb_true_r. reflexivity.
Qed.

Lemma handleAddCustomer_spec_witness :
  handleAddCustomer "c2" initialState = initialState
  /\ (exists opening,
      customers (handleAddCustomer "c2" (demoForms (demoState (Num 0) []) "250"))
      = [demoCustomer (Num 0); Customer.mk "c2" "co1" "Asha" "98" "" opening]
      /\ opening = Num 1000)
  /\ (exists opening,
      customers (handleAddCustomer "c2"
                   (setCustomerForm (CustomerForm.mk "Asha" "98" "1000.50")
                      (demoState (Num 0) [])))
      = [demoCustomer (Num 0); Customer.mk "c2" "co1" "Asha" "98" "" opening]
      /\ opening = 1000.5%float)
  /\ (exists opening,
      customers (handleAddCustomer "c2"
                   (setCustomerForm (CustomerForm.mk "Asha" "98" EmptyString)
                      (demoState (Num 0) [])))
      = [demoCustomer (Num 0); Customer.mk "c2" "co1" "Asha" "98" "" opening]
      /\ opening = Num 0).
Proof.
  split; [|split; [|split]].
  - apply (handleAddCustomer_spec "c2" initialState). left; reflexivity.
  - destruct (proj2 (handleAddCustomer_spec "c2" (demoForms (demoState (Num 0) []) "250"))
                "co1"%string) as [opening [Hc [Hnum _]]];
      [reflexivity | discriminate | discriminate |].
    exists opening. split; [exact Hc|]. rewrite Hnum; [reflexivity | | reflexivity].
    intros H. numbers_differ H.
  - destruct (proj2 (handleAddCustomer_spec "c2"
                       (setCustomerForm (CustomerForm.mk "Asha" "98" "1000.50")
                          (demoState (Num 0) [])))
                "co1"%string) as [opening [Hc [Hnum _]]];
      [reflexivity | discriminate | discriminate |].
    exists opening. split; [exact Hc|]. rewrite Hnum; [reflexivity | | reflexivity].
    intros H. numbers_differ H.
  - destruct (proj2 (handleAddCustomer_spec "c2"
                       (setCustomerForm (CustomerForm.mk "Asha" "98" EmptyString)
                          (demoState (Num 0) [])))
                "co1"%string) as [opening [Hc [_ [_ [Hzero _]]]]];
      [reflexivity | discriminate | discriminate |].
    exists opening. split; [exact Hc|]. apply Hzero. reflexivity.
Defined.

(** C4 as stated fails: with a selected company id that no company has, a
    customer is stored all the same. *)
Lemma handleAddCustomer_stores_dangling :
  ~ (forall generateId st,
        find (fun c => strictEq (Company.id c) (selectedCompanyId st)) (companies st) = None ->
        handleAddCustomer generateId st = st).
Proof.
  intros H.
  specialize (H "c2"%string (demoForms danglingState "250") eq_refl).
  apply (f_equal customers) in H. discriminate H.
Qed.
(** ** The calendar *)

Lemma dayFromYear_succ (y : Z) :
  dayFromYear (y + 1) = dayFromYear y + 365 + leapDay y.
Proof.
  unfold dayFromYear, leapDay, inLeapYear.
  destruct (Z.eqb_spec (y mod 4) 0), (Z.eqb_spec (y mod 100) 0),
           (Z.eqb_spec (y mod 400) 0); cbn [andb orb negb];
    Z.div_mod_to_equations; lia.
Qed.

Lemma leapDay_bounds (y : Z) : 0 <= leapDay y <= 1.
Proof. unfold leapDay. destruct (inLeapYear y); lia. Qed.

Lemma dayFromYear_lt (y y' : Z) :
  y < y' -> dayFromYear y + 365 + leapDay y <= dayFromYear y'.
Proof.
  intros Hlt.
  replace y' with (y + 1 + (y' - y - 1)) by lia.
  assert (Hn : 0 <= y' - y - 1) by lia.
  generalize (y' - y - 1) Hn. clear Hlt.
  apply natlike_ind.
  - rewrite Z.add_0_r, dayFromYear_succ. lia.
  - intros n Hn0 IH.
    replace (y + 1 + Z.succ n) with (y + 1 + n + 1) by lia.
    rewrite dayFromYear_succ. pose proof (leapDay_bounds (y + 1 + n)). lia.
Qed.

Lemma month_cases (m : Z) :
  1 <= m <= 12 ->
  m = 1 \/ m = 2 \/ m = 3 \/ m = 4 \/ m = 5 \/ m = 6 \/ m = 7 \/ m = 8
  \/ m = 9 \/ m = 10 \/ m = 11 \/ m = 12.
Proof. lia. Qed.

Lemma validCivil_spec (y m d : Z) :
  validCivil y m d = true <-> 1 <= m <= 12 /\ 1 <= d <= daysInMonth y m.
Proof.
  unfold validCivil. rewrite !andb_true_iff, !Z.leb_le. tauto.
Qed.

(** The last day of a month is before the first day of every later month. *)
Lemma month_end_lt (y m m' : Z) :
  1 <= m <= 12 -> 1 <= m' <= 12 -> m < m' ->
  daysBeforeMonth y m + daysInMonth y m <= daysBeforeMonth y m'.
Proof.
  intros Hm Hm' Hlt.
  unfold daysBeforeMonth, daysInMonth.
  destruct (month_cases m Hm) as [->|[->|[->|[->|[->|[->|[->|[->|[->|[->|[->| ->]]]]]]]]]]];
  destruct (month_cases m' Hm') as [->|[->|[->|[->|[->|[->|[->|[->|[->|[->|[->| ->]]]]]]]]]]];
    try lia; destruct (inLeapYear y); lia.
Qed.

Lemma year_end (y m d : Z) :
  validCivil y m d = true ->
  0 <= daysBeforeMonth y m + d - 1 <= 364 + leapDay y.
Proof.
  intros H. apply validCivil_spec in H. destruct H as [Hm Hd].
  revert Hd. unfold daysBeforeMonth, daysInMonth, leapDay.
  destruct (month_cases m Hm) as [->|[->|[->|[->|[->|[->|[->|[->|[->|[->|[->| ->]]]]]]]]]]];
    destruct (inLeapYear y); lia.
Qed.

(** The day number grows with the calendar: year first, then month, then
    day. *)
Lemma makeDay_lt (y m d y' m' d' : Z) :
  validCivil y m d = true -> validCivil y' m' d' = true ->
  civilLt (y, m, d) (y', m', d') ->
  makeDay y m d < makeDay y' m' d'.
Proof.
  intros Hv Hv' Hlt. unfold makeDay.
  pose proof (year_end y m d Hv) as He.
  pose proof (year_end y' m' d' Hv') as He'.
  destruct Hlt as [Hy|[<- [Hm|[<- Hd]]]].
  - pose proof (dayFromYear_lt y y' Hy). lia.
  - apply validCivil_spec in Hv, Hv'.
    pose proof (month_end_lt y m m' (proj1 Hv) (proj1 Hv') Hm). lia.
  - lia.
Qed.

Lemma makeDay_le_iff (y m d y' m' d' : Z) :
  validCivil y m d = true -> validCivil y' m' d' = true ->
  (makeDay y m d <= makeDay y' m' d'
   <-> civilLt (y, m, d) (y', m', d') \/ (y, m, d) = (y', m', d')).
Proof.
  intros Hv Hv'. split.
  - intros Hle.
    destruct (Z.lt_trichotomy y y') as [H|[H|H]].
    + left; left; exact H.
    + subst y'. destruct (Z.lt_trichotomy m m') as [H|[H|H]].
      * left; right; auto.
      * subst m'. destruct (Z.lt_trichotomy d d') as [H|[H|H]].
        -- left; right; auto.
        -- right; congruence.
        -- pose proof (makeDay_lt y m d' y m d Hv' Hv). cbn in H0.
           assert (makeDay y m d' < makeDay y m d) by (apply H0; auto). lia.
      * assert (makeDay y m' d' < makeDay y m d)
          by (apply makeDay_lt; cbn; auto). lia.
    + assert (makeDay y' m' d' < makeDay y m d)
        by (apply makeDay_lt; cbn; auto). lia.
  - intros [Hlt|Heq].
    + apply Z.lt_le_incl, makeDay_lt; assumption.
    + inversion Heq. lia.
Qed.

(** [yearFromDay] is YearFromTime: the year whose first day is not after
    the day while the first day of the next year is. *)
Lemma yearFromDay_spec (day : Z) :
  dayFromYear (yearFromDay day) <= day < dayFromYear (yearFromDay day + 1).
Proof.
  unfold yearFromDay.
  set (e := 1970 + 400 * day / 146097).
  assert (He : 146097 * (e - 1970) <= 400 * day < 146097 * (e - 1970) + 146097).
  { subst e. pose proof (Z.div_mod (400 * day) 146097).
    pose proof (Z.mod_pos_bound (400 * day) 146097). lia. }
  clearbody e.
  destruct (Z.ltb_spec day (dayFromYear e)) as [H1|H1].
  - replace (e - 1 + 1) with e by lia. split; [|exact H1].
    revert H1. unfold dayFromYear. Z.div_mod_to_equations. lia.
  - destruct (Z.leb_spec (dayFromYear (e + 1)) day) as [H2|H2].
    + split; [exact H2|].
      revert H1 H2. unfold dayFromYear. Z.div_mod_to_equations. lia.
    + split; [exact H1 | exact H2].
Qed.

Lemma monthFromDayWithinYear_spec (y dwy : Z) :
  0 <= dwy < 365 + leapDay y ->
  1 <= monthFromDayWithinYear y dwy <= 12
  /\ daysBeforeMonth y (monthFromDayWithinYear y dwy) <= dwy
     < daysBeforeMonth y (monthFromDayWithinYear y dwy)
       + daysInMonth y (monthFromDayWithinYear y dwy).
Proof.
  unfold monthFromDayWithinYear, leapDay. intros Hd.
  repeat match goal with
         | |- context [if ?a <? ?b then _ else _] =>
             destruct (Z.ltb_spec a b)
         end;
    unfold daysBeforeMonth, daysInMonth in *;
    destruct (inLeapYear y); lia.
Qed.

(** The calendar date printed for a day number is a date of the calendar,
    and its day number (MakeDay) is the one it was printed for. *)
Lemma makeDay_civilFromDays (day : Z) :
  let '(y, m, d) := civilFromDays day in
  validCivil y m d = true /\ makeDay y m d = day.
Proof.
  unfold civilFromDays.
  pose proof (yearFromDay_spec day) as Hy.
  set (y := yearFromDay day) in *.
  rewrite dayFromYear_succ in Hy.
  set (dwy := day - dayFromYear y).
  destruct (monthFromDayWithinYear_spec y dwy) as [Hm Hd]; [subst dwy; lia|].
  set (m := monthFromDayWithinYear y dwy) in *.
  split.
  - unfold validCivil. rewrite !andb_true_iff, !Z.leb_le. lia.
  - unfold makeDay. subst dwy. lia.
Qed.

(** And the other way round: the day number of a calendar date prints as
    that date. *)
Lemma civilFromDays_makeDay (y m d : Z) :
  validCivil y m d = true -> civilFromDays (makeDay y m d) = (y, m, d).
Proof.
  intros Hv.
  pose proof (makeDay_civilFromDays (makeDay y m d)) as H.
  destruct (civilFromDays (makeDay y m d)) as [[y' m'] d'].
  destruct H as [Hv' Heq].
  assert (Hle : makeDay y' m' d' <= makeDay y m d) by lia.
  assert (Hge : makeDay y m d <= makeDay y' m' d') by lia.
  apply (makeDay_le_iff _ _ _ _ _ _ Hv' Hv) in Hle.
  apply (makeDay_le_iff _ _ _ _ _ _ Hv Hv') in Hge.
  destruct Hle as [Hlt|Heq']; [|exact Heq'].
  destruct Hge as [Hgt|Heq']; [|now symmetry].
  exfalso. cbn in Hlt, Hgt. lia.
Qed.

(** A property of the character of a digit, checked on the ten digits. *)
Ltac by_digit_cases x :=
  unfold digitChar;
  let H := fresh "H" in
  let Hc := fresh "Hc" in
  assert (H : 0 <= x mod 10 < 10) by (apply Z.mod_pos_bound; lia);
  assert (Hc : x mod 10 = 0 \/ x mod 10 = 1 \/ x mod 10 = 2 \/ x mod 10 = 3
               \/ x mod 10 = 4 \/ x mod 10 = 5 \/ x mod 10 = 6 \/ x mod 10 = 7
               \/ x mod 10 = 8 \/ x mod 10 = 9) by lia;
  repeat (destruct Hc as [Hc|Hc]; [rewrite Hc; reflexivity|]);
  rewrite Hc; reflexivity.

Lemma digitVal_digitChar (x : Z) : digitVal (digitChar x) = Some (x mod 10).
Proof. by_digit_cases x. Qed.

Lemma validCivil_bounds (y m d : Z) :
  validCivil y m d = true -> 1 <= m <= 12 /\ 1 <= d <= 31.
Proof.
  unfold validCivil. rewrite !andb_true_iff, !Z.leb_le.
  intros [[[Hm1 Hm12] Hd1] Hd].
  assert (daysInMonth y m <= 31).
  { unfold daysInMonth.
    destruct m as [|[[[|[]|]|[[]|[]|]|]|[[|[]|]|[[]|[]|]|]|]|]; try lia;
      destruct (inLeapYear y); lia. }
  lia.
Qed.

(** A date printed by [toISOString] parses back to the day it was printed
    for. *)
Lemma parseIsoDate_isoDate (day : Z) :
  0 <= yearOf day <= 9999 -> parseIsoDate (isoDate day) = Some day.
Proof.
  unfold yearOf, isoDate, yearString.
  pose proof (makeDay_civilFromDays day) as Hcivil.
  destruct (civilFromDays day) as [[y m] d]. destruct Hcivil as [Hvalid Hmake].
  intros Hy.
  replace ((0 <=? y) && (y <=? 9999)) with true
    by (symmetry; apply andb_true_iff; split; apply Z.leb_le; lia).
  unfold parseIsoDate, parseCivil, dateFields.
  cbn [padDigits append list_ascii_of_string digitsVal].
  rewrite !Ascii.eqb_refl, !digitVal_digitChar. cbn [andb].
  destruct (validCivil_bounds y m d Hvalid) as [Hm Hd].
  replace (10 * (10 * (10 * (10 * 0 + (y / 10 / 10 / 10) mod 10)
                       + (y / 10 / 10) mod 10) + (y / 10) mod 10) + y mod 10)
    with y by (Z.div_mod_to_equations; lia).
  replace (10 * (10 * 0 + (m / 10) mod 10) + m mod 10)
    with m by (Z.div_mod_to_equations; lia).
  replace (10 * (10 * 0 + (d / 10) mod 10) + d mod 10)
    with d by (Z.div_mod_to_equations; lia).
  rewrite Hvalid. now rewrite Hmake.
Qed.

Lemma parseCivil_valid (s : string) (y m d : Z) :
  parseCivil s = Some (y, m, d) -> validCivil y m d = true.
Proof.
  unfold parseCivil.
  destruct (dateFields s) as [[[y' m'] d']|]; [|discriminate].
  destruct (validCivil y' m' d') eqn:Hv; [|discriminate].
  intros H. inversion H. now subst.
Qed.

(** For entries with calendar dates, the order of the day numbers that the
    comparator computes is the order of the calendar. *)
Lemma notAfter_calendarLe (a b : Transaction.t) :
  hasIsoDate a -> hasIsoDate b -> (notAfter a b <-> calendarLe a b).
Proof.
  unfold hasIsoDate, notAfter, calendarLe, dayOf, civilOf, parseIsoDate.
  destruct (parseCivil (Transaction.date a)) as [[[y m] d]|] eqn:Ha; [|congruence].
  destruct (parseCivil (Transaction.date b)) as [[[y' m'] d']|] eqn:Hb; [|congruence].
  intros _ _.
  apply makeDay_le_iff; eapply parseCivil_valid; eassumption.
Qed.

Lemma StronglySorted_calendar (l : list Transaction.t) :
  Forall hasIsoDate l -> StronglySorted notAfter l -> StronglySorted calendarLe l.
Proof.
  intros Hiso Hs. induction Hs as [|a l Hs IH Ha]; constructor.
  - apply IH. now inversion Hiso.
  - inversion Hiso as [|? ? Hisoa Hisol]; subst.
    rewrite Forall_forall in *. intros b Hb.
    apply notAfter_calendarLe; auto.
Qed.

(** ** The sort *)

Section SortFacts.
Context {A : Type} (cmp : A -> A -> number).

Lemma insert_Permutation (x : A) (l : list A) :
  Permutation (insert cmp x l) (x :: l).
Proof.
  induction l as [|y l IH]; simpl.
  - apply Permutation_refl.
  - destruct (gt0 (cmp x y)).
    + eapply Permutation_trans; [apply perm_skip, IH | apply perm_swap].
    + apply Permutation_refl.
Qed.

Lemma sort_Permutation (l : list A) : Permutation (sort cmp l) l.
Proof.
  induction l as [|x l IH]; simpl.
  - apply perm_nil.
  - eapply Permutation_trans; [apply insert_Permutation | now apply perm_skip].
Qed.

Lemma filter_insert_out (q : A -> bool) (x : A) (l : list A) :
  q x = false -> filter q (insert cmp x l) = filter q l.
Proof.
  intros Hx. induction l as [|y l IH]; simpl.
  - now rewrite Hx.
  - destruct (gt0 (cmp x y)); simpl.
    + now rewrite IH.
    + now rewrite Hx.
Qed.

Lemma filter_insert_in (q : A -> bool) (x : A) (l : list A) :
  q x = true ->
  (forall y, In y l -> q y = true -> gt0 (cmp x y) = false) ->
  filter q (insert cmp x l) = x :: filter q l.
Proof.
  intros Hx. induction l as [|y l IH]; intros Hl; simpl.
  - now rewrite Hx.
  - destruct (gt0 (cmp x y)) eqn:Hgt; simpl.
    + destruct (q y) eqn:Hy.
      * rewrite (Hl y (or_introl eq_refl) Hy) in Hgt. discriminate.
      * apply IH. intros z Hz. apply Hl. now right.
    + now rewrite Hx.
Qed.

(** Entries of the array that the comparator never puts one after the
    other keep the order they came in. *)
Lemma sort_stable (q : A -> bool) (l : list A) :
  (forall x y, In x l -> In y l -> q x = true -> q y = true ->
               gt0 (cmp x y) = false) ->
  filter q (sort cmp l) = filter q l.
Proof.
  induction l as [|x l IH]; intros Hq; simpl; [reflexivity|].
  assert (IH' : filter q (sort cmp l) = filter q l).
  { apply IH. intros a b Ha Hb. apply Hq; now right. }
  destruct (q x) eqn:Hx.
  - rewrite filter_insert_in; [now rewrite IH' | exact Hx |].
    intros y Hy Hqy. apply Hq; [now left | right | exact Hx | exact Hqy].
    eapply Permutation_in; [apply sort_Permutation | exact Hy].
  - rewrite filter_insert_out; auto.
Qed.

(** A comparator that orders by an integer key, on the entries that have
    one. *)
Variable key : A -> Z.
Variable good : A -> Prop.
Hypothesis cmp_key :
  forall a b, good a -> good b -> gt0 (cmp a b) = (key b <? key a).

Let keyLe (a b : A) : Prop := key a <= key b.

Lemma insert_front (x : A) (l : list A) :
  good x -> Forall good l -> Forall (keyLe x) l -> insert cmp x l = x :: l.
Proof.
  intros Hx Hg Hle. destruct l as [|y l]; [reflexivity|]. simpl.
  inversion Hg; inversion Hle; subst.
  rewrite cmp_key by assumption.
  unfold keyLe in *. destruct (Z.ltb_spec (key y) (key x)); [lia | reflexivity].
Qed.

Lemma insert_sorted (x : A) (l : list A) :
  good x -> Forall good l ->
  StronglySorted keyLe l -> StronglySorted keyLe (insert cmp x l).
Proof.
  intros Hx Hg Hs. induction Hs as [|y l Hs IH Hy]; simpl.
  - constructor; constructor.
  - inversion Hg as [|? ? Hgy Hgl]; subst.
    rewrite cmp_key by assumption.
    destruct (Z.ltb_spec (key y) (key x)) as [Hlt|Hge].
    + constructor; [now apply IH|].
      eapply Permutation_Forall.
      * apply Permutation_sym, insert_Permutation.
      * constructor; [unfold keyLe; lia | exact Hy].
    + constructor; [now constructor|].
      constructor; [exact Hge|].
      eapply Forall_impl; [|exact Hy].
      unfold keyLe; intros; lia.
Qed.

Lemma sort_good (l : list A) : Forall good l -> Forall good (sort cmp l).
Proof.
  intros H. eapply Permutation_Forall; [|exact H].
  apply Permutation_sym, sort_Permutation.
Qed.

Lemma sort_sorted (l : list A) :
  Forall good l -> StronglySorted keyLe (sort cmp l).
Proof.
  induction l as [|x l IH]; intros Hg; simpl.
  - constructor.
  - inversion Hg; subst.
    apply insert_sorted; auto using sort_good.
Qed.

Lemma filter_insert_sorted (p : A -> bool) (x : A) (l : list A) :
  good x -> Forall good l -> StronglySorted keyLe l ->
  filter p (insert cmp x l)
  = if p x then insert cmp x (filter p l) else filter p l.
Proof.
  intros Hx Hg Hs. induction Hs as [|y l Hs IH Hy]; simpl.
  - destruct (p x); reflexivity.
  - inversion Hg as [|? ? Hgy Hgl]; subst.
    destruct (gt0 (cmp x y)) eqn:Hgt; simpl.
    + rewrite (IH Hgl).
      destruct (p x), (p y); simpl; try reflexivity.
      now rewrite Hgt.
    + destruct (p x) eqn:Hpx; [|reflexivity].
      symmetry. apply (insert_front x (filter p (y :: l))).
      * exact Hx.
      * apply Forall_forall. intros z Hz. apply filter_In in Hz.
        rewrite Forall_forall in Hg. now apply Hg.
      * rewrite cmp_key in Hgt by assumption.
        apply Z.ltb_ge in Hgt.
        apply Forall_forall. intros z Hz. apply filter_In in Hz.
        destruct Hz as [[->|Hz] _]; [exact Hgt|].
        rewrite Forall_forall in Hy. specialize (Hy z Hz).
        unfold keyLe in *; lia.
Qed.

(** Sorting a selection is selecting from the sorted array. *)
Lemma filter_sort (p : A -> bool) (l : list A) :
  Forall good l -> filter p (sort cmp l) = sort cmp (filter p l).
Proof.
  induction l as [|x l IH]; intros Hg; simpl; [reflexivity|].
  inversion Hg; subst.
  rewrite filter_insert_sorted; auto using sort_good, sort_sorted.
  destruct (p x); simpl; now rewrite IH.
Qed.

End SortFacts.

(** ** The comparator of the ledger on calendar dates *)

Lemma digitVal_range (c : ascii) (v : Z) : digitVal c = Some v -> 0 <= v <= 9.
Proof.
  unfold digitVal.
  destruct (Z.leb_spec 48 (Z.of_N (N_of_ascii c))) as [Hlo|]; [|discriminate].
  destruct (Z.leb_spec (Z.of_N (N_of_ascii c)) 57) as [Hhi|]; [|discriminate].
  cbn [andb]. intros Hv. inversion Hv. lia.
Qed.

Lemma dateFields_year (s : string) (y m d : Z) :
  dateFields s = Some (y, m, d) -> 0 <= y <= 9999.
Proof.
  unfold dateFields.
  destruct (list_ascii_of_string s)
    as [|y1 [|y2 [|y3 [|y4 [|s1 [|m1 [|m2 [|s2 [|d1 [|d2 [|]]]]]]]]]]];
    try discriminate.
  destruct (Ascii.eqb s1 "-" && Ascii.eqb s2 "-"); [|discriminate].
  cbn [digitsVal].
  destruct (digitVal y1) as [a1|] eqn:H1; [|discriminate].
  destruct (digitVal y2) as [a2|] eqn:H2; [|discriminate].
  destruct (digitVal y3) as [a3|] eqn:H3; [|discriminate].
  destruct (digitVal y4) as [a4|] eqn:H4; [|discriminate].
  apply digitVal_range in H1, H2, H3, H4.
  remember (10 * (10 * (10 * (10 * 0 + a1) + a2) + a3) + a4) as y' eqn:Hy.
  destruct (digitVal m1); [|discriminate]. destruct (digitVal m2); [|discriminate].
  destruct (digitVal d1); [|discriminate]. destruct (digitVal d2); [|discriminate].
  intros H. injection H as Ey _ _. lia.
Qed.

(** The day numbers of the calendar dates [0000-01-01] to [9999-12-31]
    lie well within a million days before and three million days after
    the epoch. *)
Lemma parseIsoDate_bound (s : string) (day : Z) :
  parseIsoDate s = Some day -> -1000000 <= day <= 3000000.
Proof.
  unfold parseIsoDate, parseCivil.
  destruct (dateFields s) as [[[y m] d]|] eqn:Hf; [|discriminate].
  destruct (validCivil y m d) eqn:Hv; [|discriminate].
  intros Hday. inversion Hday. subst day. clear Hday.
  pose proof (dateFields_year s y m d Hf) as Hy.
  pose proof (year_end y m d Hv) as He. pose proof (leapDay_bounds y).
  unfold makeDay, dayFromYear. Z.div_mod_to_equations. lia.
Qed.

(** On a calendar date [Date.parse] finds its day. *)
Lemma Date_parse_iso (s : string) (day : Z) :
  parseIsoDate s = Some day -> Date_parse s = Some day.
Proof.
  unfold parseIsoDate, parseCivil, Date_parse.
  destruct (dateFields s) as [[[y m] d]|]; [|discriminate].
  destruct (validCivil y m d) eqn:Hv; [|discriminate].
  destruct (validCivil_bounds y m d Hv) as [Hm Hd].
  intros H.
  replace ((1 <=? m) && (m <=? 12) && (1 <=? d) && (d <=? 31)) with true; [exact H|].
  symmetry. rewrite !andb_true_iff, !Z.leb_le. lia.
Qed.

Lemma Date_getTime_iso (s : string) (day : Z) :
  parseIsoDate s = Some day -> Date_getTime s = Num (msPerDay * day).
Proof.
  intros H. unfold Date_getTime. now rewrite (Date_parse_iso s day H).
Qed.

Lemma byDate_dayOf (a b : Transaction.t) :
  hasIsoDate a -> hasIsoDate b -> gt0 (byDate a b) = (dayOf b <? dayOf a).
Proof.
  unfold hasIsoDate, byDate, dayOf.
  destruct (parseIsoDate (Transaction.date a)) as [da|] eqn:Ha; [|congruence].
  destruct (parseIsoDate (Transaction.date b)) as [db|] eqn:Hb; [|congruence].
  intros _ _.
  pose proof (parseIsoDate_bound _ _ Ha). pose proof (parseIsoDate_bound _ _ Hb).
  rewrite (Date_getTime_iso _ _ Ha), (Date_getTime_iso _ _ Hb).
  unfold msPerDay.
  rewrite sub_Num, gt0_Num by lia.
  destruct (Z.ltb_spec 0 (86400000 * da - 86400000 * db));
    destruct (Z.ltb_spec db da); try reflexivity; lia.
Qed.

(** ** The running balance *)

Lemma applyTx_balanceAfter (b : number) (t : Transaction.t) :
  applyTx b t = balanceAfter b t.
Proof. unfold applyTx, balanceAfter. destruct (Transaction.type t); reflexivity. Qed.

Lemma map_fst_mapRunning (l : list Transaction.t) (b : number) :
  map fst (mapRunning b l) = l.
Proof.
  revert b. induction l as [|t l IH]; intros b; simpl; [reflexivity|].
  now rewrite IH.
Qed.

Lemma map_snd_mapRunning (l : list Transaction.t) (b : number) :
  map snd (mapRunning b l) = balancesFrom b l.
Proof.
  revert b. induction l as [|t l IH]; intros b; [reflexivity|].
  cbn [mapRunning map snd balancesFrom]. now rewrite IH, applyTx_balanceAfter.
Qed.

Lemma length_mapRunning (l : list Transaction.t) (b : number) :
  List.length (mapRunning b l) = List.length l.
Proof.
  rewrite <- (map_fst_mapRunning l b) at 2. now rewrite length_map.
Qed.

Lemma last_cons_default {A : Type} (a d : A) (l : list A) :
  last (a :: l) d = last l a.
Proof.
  revert a d. induction l as [|b l IH]; intros a d; [reflexivity|].
  change (last (a :: b :: l) d) with (last (b :: l) d).
  rewrite (IH b d). symmetry. apply (IH b a).
Qed.

Lemma last_mapRunning (l : list Transaction.t) (b : number) :
  last (map snd (mapRunning b l)) b = fold_left applyTx l b.
Proof.
  revert b. induction l as [|t l IH]; intros b; [reflexivity|].
  cbn [mapRunning map snd fold_left].
  now rewrite last_cons_default, IH.
Qed.

Lemma nth_mapRunning (l : list Transaction.t) (b d : number) (n : nat) :
  (n < List.length l)%nat ->
  nth n (map snd (mapRunning b l)) d = fold_left applyTx (firstn (S n) l) b.
Proof.
  revert b n. induction l as [|t l IH]; intros b n Hn; simpl in Hn; [lia|].
  destruct n as [|n].
  - destruct l; reflexivity.
  - cbn [mapRunning map snd nth]. rewrite IH by lia. reflexivity.
Qed.

Lemma netZ_cons (t : Transaction.t) (l : list Transaction.t) :
  netZ (t :: l)
  = match Transaction.type t with
    | CREDIT => amountZ t + netZ l
    | DEBIT => - amountZ t + netZ l
    end.
Proof. unfold netZ. cbn [totalZ]. destruct (Transaction.type t); lia. Qed.

Lemma netZ_Permutation (l l' : list Transaction.t) :
  Permutation l l' -> netZ l = netZ l'.
Proof.
  intros H. unfold netZ.
  now rewrite (totalZ_Permutation CREDIT l l' H), (totalZ_Permutation DEBIT l l' H).
Qed.

(** One step of the running balance on whole numbers with room. *)
Lemma applyTx_exact (a : Z) (t : Transaction.t) :
  whole (Transaction.amount t) ->
  Z.abs a + Z.abs (amountZ t) < 2 ^ 53 ->
  applyTx (Num a) t
  = Num (match Transaction.type t with
         | CREDIT => a + amountZ t
         | DEBIT => a - amountZ t
         end).
Proof.
  intros Hw Hb. unfold applyTx, amountZ in *.
  destruct (Transaction.type t); cbn [typeEqb].
  - rewrite (sub_whole (Num a)); [| apply whole_Num; lia | exact Hw |];
      rewrite toZ_Num by lia; [reflexivity | lia].
  - rewrite (add_whole (Num a)); [| apply whole_Num; lia | exact Hw |];
      rewrite toZ_Num by lia; [reflexivity | lia].
Qed.

(** The running balance over whole amounts with room is the running sum
    of the integers, whatever the order of the entries. *)
Lemma fold_applyTx_exact (l : list Transaction.t) (a : Z) :
  Forall (fun t => whole (Transaction.amount t)) l ->
  Z.abs a + magnitude l < 2 ^ 53 ->
  fold_left applyTx l (Num a) = Num (a + netZ l).
Proof.
  revert a. induction l as [|t l IH]; intros a Hw Hb.
  - cbn. f_equal. unfold netZ. cbn. lia.
  - inversion Hw as [|? ? Ht Hl]; subst. cbn [magnitude] in Hb.
    pose proof (magnitude_nonneg l).
    cbn [fold_left]. rewrite applyTx_exact by (assumption || lia).
    rewrite netZ_cons.
    destruct (Transaction.type t); rewrite IH by (assumption || lia); f_equal; lia.
Qed.

Lemma bal_balanceOver (txs : list Transaction.t) (c : Customer.t) :
  bal txs c = balanceOver (Customer.openingBalance c) (transactionsOf (Customer.id c) txs).
Proof.
  unfold bal, balanceOver, transactionsOf.
  now rewrite !reduce_filter_sumAmounts.
Qed.

Lemma Permutation_filter {A : Type} (p : A -> bool) (l l' : list A) :
  Permutation l l' -> Permutation (filter p l) (filter p l').
Proof.
  induction 1 as [|x l l' _ IH|x y l|l l' l'' _ IH1 _ IH2]; simpl.
  - apply perm_nil.
  - destruct (p x); [now apply perm_skip | exact IH].
  - destruct (p x), (p y); try apply Permutation_refl. apply perm_swap.
  - eapply Permutation_trans; eassumption.
Qed.

Lemma currentCustomer_selected (st : AppState) (c : Customer.t) :
  currentCustomer st = Some c -> selectedCustomerId st = Some (Customer.id c).
Proof.
  unfold currentCustomer. intros H. apply find_some in H. destruct H as [_ H].
  unfold strictEq in H. destruct (selectedCustomerId st) as [s|]; [|discriminate].
  apply String.eqb_eq in H. now subst.
Qed.

Lemma ledgerFiltered_selected (st : AppState) (cid : string) :
  selectedCustomerId st = Some cid ->
  ledgerFiltered st = sort byDate (transactionsOf cid (transactions st)).
Proof.
  unfold ledgerFiltered, transactionsOf, strictEq. now intros ->.
Qed.

Lemma startingBalance_resolved (st : AppState) (c : Customer.t) :
  currentCustomer st = Some c ->
  startingBalance st = orZero (Customer.openingBalance c).
Proof. unfold startingBalance. now intros ->. Qed.

Lemma orZero_whole (x : number) :
  whole x -> Z.abs (toZ x) < 2 ^ 53 -> orZero x = x.
Proof.
  unfold whole. intros Hx Hb. rewrite Hx. now apply orZero_Num.
Qed.

(** With unique ids, selecting a stored customer resolves to that
    customer. *)
Lemma currentCustomer_unique (st : AppState) (c : Customer.t) :
  In c (customers st) ->
  NoDup (map Customer.id (customers st)) ->
  currentCustomer (setSelectedCustomerId (Some (Customer.id c)) st) = Some c.
Proof.
  unfold currentCustomer. cbn [customers selectedCustomerId setSelectedCustomerId strictEq].
  induction (customers st) as [|x cs IH]; intros Hin Hnd; [destruct Hin|].
  apply NoDup_cons_iff in Hnd. destruct Hnd as [Hfresh Hnd].
  cbn [find].
  destruct (String.eqb_spec (Customer.id x) (Customer.id c)) as [Heq|Hneq].
  - destruct Hin as [->|Hin]; [reflexivity|].
    exfalso. apply Hfresh. rewrite Heq. apply in_map, Hin.
  - destruct Hin as [->|Hin]; [congruence|]. apply IH; assumption.
Qed.

(** The last balance of a ledger over whole amounts with room. *)
Lemma last_ledger_exact (st : AppState) (c : Customer.t) :
  currentCustomer st = Some c ->
  exact (Customer.openingBalance c) (transactionsOf (Customer.id c) (transactions st)) ->
  last (map snd (runningLedger st)) (Customer.openingBalance c)
  = Num (toZ (Customer.openingBalance c)
         + netZ (transactionsOf (Customer.id c) (transactions st))).
Proof.
  intros Hcur [Ho [Hw Hb]].
  pose proof (magnitude_nonneg (transactionsOf (Customer.id c) (transactions st))).
  unfold runningLedger.
  rewrite (startingBalance_resolved st c Hcur), orZero_whole by (assumption || lia).
  rewrite (ledgerFiltered_selected st (Customer.id c))
    by (apply currentCustomer_selected, Hcur).
  rewrite last_mapRunning.
  set (mine := transactionsOf (Customer.id c) (transactions st)) in *.
  assert (Hp : Permutation (sort byDate mine) mine) by apply sort_Permutation.
  transitivity (fold_left applyTx (sort byDate mine)
                  (Num (toZ (Customer.openingBalance c))));
    [f_equal; exact Ho|].
  rewrite fold_applyTx_exact.
  - now rewrite (netZ_Permutation _ _ Hp).
  - eapply Permutation_Forall; [apply Permutation_sym, Hp | exact Hw].
  - now rewrite (magnitude_Permutation _ _ Hp).
Qed.

(** C1, as the code has it.  For every stored customer [c] (ids unique)
    the balance on the customer card is [openingBalance + credits - debits]
    over [c]'s transactions, the sums taken in insertion order.  When the
    opening balance and the amounts are whole numbers whose absolute values
    add up to less than [2 ^ 53], so that no addition rounds, it is the
    sum of the integers, it is the same for every order of insertion, and
    it is the last running balance of [c]'s ledger (the opening balance
    itself while the ledger is empty) for every order of insertion. *)
Theorem customerBalance_eq_last_runningLedger
    (st : AppState) (c : Customer.t) (reordered : list Transaction.t) :
  In c (customers st) ->
  NoDup (map Customer.id (customers st)) ->
  exact (Customer.openingBalance c) (transactionsOf (Customer.id c) (transactions st)) ->
  Permutation (transactions st) reordered ->
  bal (transactions st) c
    = balanceOver (Customer.openingBalance c)
        (transactionsOf (Customer.id c) (transactions st))
  /\ bal (transactions st) c
     = Num (toZ (Customer.openingBalance c)
            + netZ (transactionsOf (Customer.id c) (transactions st)))
  /\ bal reordered c = bal (transactions st) c
  /\ last (map snd (runningLedger
                      (setSelectedCustomerId (Some (Customer.id c))
                         (setTransactions reordered st))))
          (Customer.openingBalance c)
     = bal (transactions st) c.
Proof.
  intros Hin Hnd Hex Hperm.
  assert (Hmine : Permutation (transactionsOf (Customer.id c) (transactions st))
                    (transactionsOf (Customer.id c) reordered))
    by apply Permutation_filter, Hperm.
  assert (Hex' : exact (Customer.openingBalance c)
                   (transactionsOf (Customer.id c) reordered))
    by (eapply exact_Permutation; eassumption).
  assert (Hbal : forall txs,
             exact (Customer.openingBalance c) (transactionsOf (Customer.id c) txs) ->
             bal txs c = Num (toZ (Customer.openingBalance c)
                              + netZ (transactionsOf (Customer.id c) txs))).
  { intros txs H. rewrite bal_balanceOver. now apply balanceOver_exact. }
  split; [apply bal_balanceOver|].
  split; [now apply Hbal|].
  split.
  { rewrite !Hbal by assumption. now rewrite (netZ_Permutation _ _ Hmine). }
  rewrite (last_ledger_exact _ c).
  - cbn [transactions setSelectedCustomerId setTransactions].
    rewrite Hbal by assumption. now rewrite (netZ_Permutation _ _ Hmine).
  - apply (currentCustomer_unique (setTransactions reordered st)); assumption.
  - exact Hex'.
Qed.

Lemma customerBalance_eq_last_runningLedger_witness :
  bal scenarioA (demoCustomer (Num 1000)) = Num 1300
  /\ last (map snd (runningLedger (demoState (Num 1000) (rev scenarioA)))) (Num 1000)
     = bal scenarioA (demoCustomer (Num 1000)).
Proof.
  destruct (customerBalance_eq_last_runningLedger
              (demoState (Num 1000) scenarioA) (demoCustomer (Num 1000)) (rev scenarioA))
    as [_ [H1 [_ H2]]].
  - left; reflexivity.
  - repeat constructor. intros [].
  - split; [reflexivity|]. split; [repeat constructor | vm_compute; reflexivity].
  - apply Permutation_rev.
  - split; [exact H1 | exact H2].
Defined.

(** C1 as stated fails.  Three credits of 0.1, 0.2 and 0.3, entered in this
    order for a customer with the opening balance 0 and dated in the
    opposite order: the card adds them up in the order of insertion and
    shows 0.6000000000000001, the ledger adds them up in the order of the
    dates and ends on 0.6. *)
Lemma customerBalance_differs_on_fractions :
  bal tenths (demoCustomer (Num 0)) = Number "0.6000000000000001"
  /\ last (map snd (runningLedger (demoState (Num 0) tenths))) (Num 0) = Number "0.6"
  /\ ~ (forall st c,
          In c (customers st) ->
          NoDup (map Customer.id (customers st)) ->
          last (map snd (runningLedger
                           (setSelectedCustomerId (Some (Customer.id c)) st)))
               (Customer.openingBalance c)
          = bal (transactions st) c).
Proof.
  split; [vm_compute; reflexivity|]. split; [vm_compute; reflexivity|].
  intros H.
  specialize (H (demoState (Num 0) tenths) (demoCustomer (Num 0))
                (or_introl eq_refl)).
  assert (Hnd : NoDup (map Customer.id (customers (demoState (Num 0) tenths))))
    by (repeat constructor; intros []).
  specialize (H Hnd). numbers_differ H.
Qed.

Lemma orZero_number (x : number) : x <> NaN -> x <> neg_zero -> orZero x = x.
Proof.
  intros Hn Hz. destruct (is_zero x) eqn:Hzero.
  - destruct (is_zero_cases x Hzero) as [->| ->]; [reflexivity | congruence].
  - now apply orZero_truthy.
Qed.



(** ** Deleting a transaction *)

Lemma mapRunning_app (l1 l2 : list Transaction.t) (b : number) :
  mapRunning b (l1 ++ l2)
  = mapRunning b l1 ++ mapRunning (fold_left applyTx l1 b) l2.
Proof.
  revert b. induction l1 as [|t l1 IH]; intros b; simpl; [reflexivity|].
  now rewrite IH.
Qed.


(** A customer's transactions inherit the uniqueness of the ids. *)
Lemma transactionsOf_unique_ids (cid : string) (txs : list Transaction.t) :
  NoDup (map Transaction.id txs) ->
  NoDup (map Transaction.id (transactionsOf cid txs)).
Proof.
  unfold transactionsOf. intros Hnd.
  induction txs as [|t txs IH]; [exact Hnd|].
  apply NoDup_cons_iff in Hnd. destruct Hnd as [Hfresh Hnd].
  cbn [filter].
  destruct (String.eqb (Transaction.customerId t) cid); [|exact (IH Hnd)].
  apply NoDup_cons; [|exact (IH Hnd)].
  intros Hin. apply in_map_iff in Hin. destruct Hin as [x [Hid Hx]].
  apply filter_In in Hx. apply Hfresh.
  rewrite <- Hid. apply in_map, Hx.
Qed.

Lemma filter_keeps_all (id : string) (l : list Transaction.t) :
  (forall x, In x l -> Transaction.id x <> id) -> filter (keeps id) l = l.
Proof.
  induction l as [|x l IH]; intros H; simpl; [reflexivity|].
  unfold keeps at 1.
  destruct (String.eqb_spec (Transaction.id x) id) as [Heq|_]; simpl.
  - exfalso. apply (H x); [now left | exact Heq].
  - f_equal. apply IH. intros y Hy. apply H. now right.
Qed.

Lemma filter_keeps_split (t : Transaction.t) (l1 l2 : list Transaction.t) :
  NoDup (map Transaction.id (l1 ++ t :: l2)) ->
  filter (keeps (Transaction.id t)) (l1 ++ t :: l2) = l1 ++ l2.
Proof.
  intros Hnd. rewrite map_app in Hnd. simpl in Hnd.
  apply NoDup_remove_2 in Hnd.
  rewrite filter_app. simpl. unfold keeps at 2.
  rewrite String.eqb_refl. simpl.
  rewrite !filter_keeps_all; [reflexivity| |].
  - intros x Hx Heq. apply Hnd. apply in_or_app. right.
    rewrite <- Heq. now apply in_map.
  - intros x Hx Heq. apply Hnd. apply in_or_app. left.
    rewrite <- Heq. now apply in_map.
Qed.

Lemma transactionsOf_keeps (cid id : string) (l : list Transaction.t) :
  transactionsOf cid (filter (keeps id) l) = filter (keeps id) (transactionsOf cid l).
Proof.
  unfold transactionsOf.
  induction l as [|x l IH]; simpl; [reflexivity|].
  destruct (keeps id x) eqn:Hk,
           (String.eqb (Transaction.customerId x) cid) eqn:Hc;
    simpl; rewrite ?Hk, ?Hc, IH; reflexivity.
Qed.

(** On whole amounts with room, one more transaction [t] at the front
    moves every balance by [t]. *)
Lemma mapRunning_shift (t : Transaction.t) (l : list Transaction.t) (a : Z) :
  whole (Transaction.amount t) ->
  Forall (fun x => whole (Transaction.amount x)) l ->
  Z.abs a + Z.abs (amountZ t) + magnitude l < 2 ^ 53 ->
  Forall2 (fun old new => fst old = fst new /\ snd old = balanceAfter (snd new) t)
    (mapRunning (applyTx (Num a) t) l) (mapRunning (Num a) l).
Proof.
  intros Ht. revert a. induction l as [|x l IH]; intros a Hl Hb; [constructor|].
  inversion Hl as [|? ? Hx Hl']; subst. cbn [magnitude] in Hb.
  pose proof (magnitude_nonneg l).
  cbn [mapRunning].
  assert (Hx' : applyTx (Num a) x
                = Num (match Transaction.type x with
                       | CREDIT => a + amountZ x
                       | DEBIT => a - amountZ x
                       end)) by (apply applyTx_exact; [exact Hx | lia]).
  assert (Ht' : applyTx (Num a) t
                = Num (match Transaction.type t with
                       | CREDIT => a + amountZ t
                       | DEBIT => a - amountZ t
                       end)) by (apply applyTx_exact; [exact Ht | lia]).
  assert (Hcomm : applyTx (applyTx (Num a) t) x = applyTx (applyTx (Num a) x) t).
  { rewrite Hx', Ht'.
    rewrite !applyTx_exact
      by (try assumption; destruct (Transaction.type t), (Transaction.type x); lia).
    f_equal. destruct (Transaction.type t), (Transaction.type x); lia. }
  constructor.
  - split; [reflexivity|]. cbn [snd]. rewrite Hcomm. apply applyTx_balanceAfter.
  - rewrite Hcomm, Hx'.
    apply IH; [exact Hl'|]. destruct (Transaction.type x); lia.
Qed.

(** The rows of a ledger after a deletion: the rows before the deleted one
    stay, its row goes, and the rows after it have the same entries with
    the balances computed onwards from the balance that stood before it. *)
Lemma ledger_after_delete (t : Transaction.t) (mine : list Transaction.t) (b0 : number) :
  In t mine ->
  NoDup (map Transaction.id mine) ->
  Forall hasIsoDate mine ->
  exists earlier later later' b,
    mapRunning b0 (sort byDate mine) = earlier ++ (t, b) :: later
    /\ mapRunning b0 (sort byDate (filter (keeps (Transaction.id t)) mine))
       = earlier ++ later'
    /\ b = balanceAfter (last (map snd earlier) b0) t
    /\ map fst later' = map fst later
    /\ map snd later' = balancesFrom (last (map snd earlier) b0) (map fst later)
    /\ (exact b0 mine ->
        Forall2 (fun old new => fst old = fst new /\ snd old = balanceAfter (snd new) t)
          later later').
Proof.
  intros Hin Hnd Hiso.
  assert (Hperm : Permutation (sort byDate mine) mine) by apply sort_Permutation.
  assert (Hin' : In t (sort byDate mine))
    by (eapply Permutation_in; [apply Permutation_sym, Hperm | exact Hin]).
  destruct (in_split _ _ Hin') as [A [B HAB]].
  assert (Hnd' : NoDup (map Transaction.id (A ++ t :: B))).
  { rewrite <- HAB. eapply Permutation_NoDup; [|exact Hnd].
    apply Permutation_map, Permutation_sym, Hperm. }
  rewrite <- (filter_sort byDate dayOf hasIsoDate byDate_dayOf) by exact Hiso.
  rewrite HAB, (filter_keeps_split t A B Hnd'), !mapRunning_app.
  exists (mapRunning b0 A),
         (mapRunning (applyTx (fold_left applyTx A b0) t) B),
         (mapRunning (fold_left applyTx A b0) B),
         (applyTx (fold_left applyTx A b0) t).
  rewrite !map_fst_mapRunning, last_mapRunning, map_snd_mapRunning.
  do 2 (split; [reflexivity|]). split; [apply applyTx_balanceAfter|].
  do 2 (split; [reflexivity|]).
  intros [Ho [Hw Hb]].
  assert (Hw' : Forall (fun x => whole (Transaction.amount x)) (A ++ t :: B)).
  { rewrite <- HAB. eapply Permutation_Forall; [apply Permutation_sym, Hperm | exact Hw]. }
  apply Forall_app in Hw'. destruct Hw' as [HwA HwB].
  inversion HwB as [|? ? Hwt HwB']; subst.
  rewrite <- (magnitude_Permutation _ _ Hperm), HAB, magnitude_app in Hb.
  cbn [magnitude] in Hb.
  pose proof (magnitude_nonneg A). pose proof (magnitude_nonneg B).
  pose proof (totals_bound A).
  unfold whole in Ho. rewrite Ho.
  rewrite (fold_applyTx_exact A) by (assumption || lia).
  apply mapRunning_shift; [exact Hwt | exact HwB' |].
  unfold netZ. lia.
Qed.



(** C9, as the code has it.  [deleteTransaction] never touches companies
    and customers.  When no transaction has the id the state stays as it
    is.  When the user confirms and ids are unique, the transaction [t]
    with that id is the one entry removed, everything else staying in
    place; the ledger of [t]'s customer then has the entries it had
    without [t], and (dates being calendar dates) it shows the rows before
    [t] unchanged, no row for [t], and the rows after [t] with the same
    entries and the balances computed onwards from the balance that stood
    before [t].  When the starting balance and the amounts are whole
    numbers whose absolute values add up to less than [2 ^ 53], each of
    these balances has moved by exactly [t]: the old balance is the new
    one with [t] applied.  The ledger of any other customer is the same as
    before. *)
Theorem deleteTransaction_spec (id : string) (confirmed : bool) (st : AppState) :
  let st' := deleteTransaction id confirmed st in
  companies st' = companies st
  /\ customers st' = customers st
  /\ ((forall t, In t (transactions st) -> Transaction.id t <> id) -> st' = st)
  /\ (confirmed = true ->
      NoDup (map Transaction.id (transactions st)) ->
      forall t, In t (transactions st) -> Transaction.id t = id ->
        (exists before after,
            transactions st = before ++ t :: after
            /\ transactions st' = before ++ after)
        /\ (selectedCustomerId st = Some (Transaction.customerId t) ->
            ~ In t (map fst (runningLedger st'))
            /\ Permutation (t :: map fst (runningLedger st'))
                 (map fst (runningLedger st)))
        /\ (selectedCustomerId st = Some (Transaction.customerId t) ->
            Forall hasIsoDate
              (transactionsOf (Transaction.customerId t) (transactions st)) ->
            exists earlier later later' b,
              runningLedger st = earlier ++ (t, b) :: later
              /\ runningLedger st' = earlier ++ later'
              /\ map fst later' = map fst later
              /\ map snd later'
                 = balancesFrom (last (map snd earlier) (startingBalance st))
                     (map fst later)
              /\ (exact (startingBalance st)
                    (transactionsOf (Transaction.customerId t) (transactions st)) ->
                  Forall2 (fun old new =>
                             fst old = fst new /\ snd old = balanceAfter (snd new) t)
                    later later'))
        /\ (selectedCustomerId st <> Some (Transaction.customerId t) ->
            runningLedger st' = runningLedger st)).
Proof.
  intros st'. subst st'. unfold deleteTransaction.
  split; [destruct confirmed; reflexivity|].
  split; [destruct confirmed; reflexivity|].
  split.
  { intros Habsent. destruct confirmed; [|reflexivity].
    fold (keeps id). rewrite (filter_keeps_all id _ Habsent).
    destruct st; reflexivity. }
  intros -> Hnd t Hin <-. fold (keeps (Transaction.id t)).
  destruct (in_split _ _ Hin) as [before [after Hsplit]].
  assert (Hkept : filter (keeps (Transaction.id t)) (transactions st) = before ++ after).
  { rewrite Hsplit. apply filter_keeps_split. now rewrite <- Hsplit. }
  split; [|split; [|split]].
  - exists before, after. split; [exact Hsplit | exact Hkept].
  - intros Hsel. unfold runningLedger. rewrite !map_fst_mapRunning.
    rewrite (ledgerFiltered_selected st _ Hsel).
    rewrite (ledgerFiltered_selected (setTransactions _ st) _ Hsel).
    cbn [transactions setTransactions]. split.
    + intros Habs.
      apply (Permutation_in _ (sort_Permutation byDate _)) in Habs.
      unfold transactionsOf in Habs.
      apply filter_In in Habs. destruct Habs as [Habs _].
      apply filter_In in Habs. destruct Habs as [_ Habs].
      unfold keeps in Habs. rewrite String.eqb_refl in Habs. discriminate.
    + eapply Permutation_trans;
        [apply perm_skip, sort_Permutation
        | eapply Permutation_trans; [|apply Permutation_sym, sort_Permutation]].
      rewrite Hkept, Hsplit. unfold transactionsOf. rewrite !filter_app.
      cbn [filter]. rewrite String.eqb_refl.
      apply Permutation_middle.
  - intros Hsel Hiso.
    unfold runningLedger.
    change (startingBalance (setTransactions _ st)) with (startingBalance st).
    rewrite (ledgerFiltered_selected st _ Hsel).
    rewrite (ledgerFiltered_selected (setTransactions _ st) _ Hsel).
    cbn [transactions setTransactions].
    rewrite transactionsOf_keeps.
    set (mine := transactionsOf (Transaction.customerId t) (transactions st)) in *.
    assert (Hmine : In t mine).
    { apply filter_In. split; [exact Hin | apply String.eqb_refl]. }
    destruct (ledger_after_delete t mine (startingBalance st) Hmine
                (transactionsOf_unique_ids _ _ Hnd) Hiso)
      as [earlier [later [later' [b [Hold [Hnew [Hb [Hfst [Hsnd Hshift]]]]]]]]].
    exists earlier, later, later', b.
    repeat (split; [assumption|]). exact Hshift.
  - intros Hsel.
    unfold runningLedger.
    change (startingBalance (setTransactions _ st)) with (startingBalance st).
    f_equal. unfold ledgerFiltered. f_equal.
    cbn [transactions setTransactions selectedCustomerId].
    rewrite Hkept, Hsplit, !filter_app. simpl.
    replace (strictEq (Transaction.customerId t) (selectedCustomerId st)) with false;
      [reflexivity|].
    unfold strictEq. destruct (selectedCustomerId st) as [s|]; [|reflexivity].
    destruct (String.eqb_spec (Transaction.customerId t) s); [|reflexivity].
    subst. now elim Hsel.
Qed.

Lemma deleteTransaction_spec_witness :
  deleteTransaction "t9" true (demoState (Num 1000) scenarioA)
    = demoState (Num 1000) scenarioA
  /\ (exists before after,
         scenarioA = before ++ Transaction.mk "t1" "c1" "2024-01-01" "" CREDIT (Num 500) :: after
         /\ transactions (deleteTransaction "t1" true (demoState (Num 1000) scenarioA))
            = before ++ after)
  /\ (exists earlier later later' b,
         runningLedger (demoState (Num 1000) scenarioA)
         = earlier ++ (Transaction.mk "t1" "c1" "2024-01-01" "" CREDIT (Num 500), b) :: later
         /\ runningLedger (deleteTransaction "t1" true (demoState (Num 1000) scenarioA))
            = earlier ++ later'
         /\ Forall2 (fun old new =>
                       fst old = fst new
                       /\ snd old
                          = balanceAfter (snd new)
                              (Transaction.mk "t1" "c1" "2024-01-01" "" CREDIT (Num 500)))
              later later').
Proof.
  split.
  - apply (deleteTransaction_spec "t9" true (demoState (Num 1000) scenarioA)).
    intros t [<-|[<-|[]]]; discriminate.
  - destruct (deleteTransaction_spec "t1" true (demoState (Num 1000) scenarioA))
      as [_ [_ [_ H]]].
    destruct (H eq_refl) with
      (t := Transaction.mk "t1" "c1" "2024-01-01" "" CREDIT (Num 500))
      as [Hone [_ [Hledger _]]].
    + repeat constructor; simpl; intuition discriminate.
    + left; reflexivity.
    + reflexivity.
    + split; [exact Hone|].
      destruct Hledger as [earlier [later [later' [b [Hold [Hnew [_ [_ Hshift]]]]]]]].
      * reflexivity.
      * repeat constructor; discriminate.
      * exists earlier, later, later', b.
        split; [exact Hold|]. split; [exact Hnew|]. apply Hshift.
        split; [reflexivity|]. split; [repeat constructor | vm_compute; reflexivity].
Defined.

(** C9 as stated fails where it says that the later balances shift with
    the deleted transaction.  Credits of 0.1, 0.2 and 0.3 on three days
    give the balances 0.1, 0.30000000000000004 and 0.6000000000000001;
    after the first is deleted the balances are 0.2 and 0.5, and 0.5 with
    the deleted 0.1 put back is 0.6, not the 0.6000000000000001 that stood
    there. *)
Lemma deleteTransaction_shift_rounds :
  map snd (runningLedger (demoState (Num 0) tenthsByDate))
  = [Number "0.1"; Number "0.30000000000000004"; Number "0.6000000000000001"]
  /\ map snd (runningLedger (deleteTransaction "t1" true (demoState (Num 0) tenthsByDate)))
     = [Number "0.2"; Number "0.5"]
  /\ add (Number "0.5") (Number "0.1") = Number "0.6"
  /\ ~ (forall st t earlier later later' b,
          In t (transactions st) ->
          NoDup (map Transaction.id (transactions st)) ->
          selectedCustomerId st = Some (Transaction.customerId t) ->
          Forall hasIsoDate
            (transactionsOf (Transaction.customerId t) (transactions st)) ->
          runningLedger st = earlier ++ (t, b) :: later ->
          runningLedger (deleteTransaction (Transaction.id t) true st)
          = earlier ++ later' ->
          Forall2 (fun old new =>
                     fst old = fst new /\ snd old = balanceAfter (snd new) t)
            later later').
Proof.
  split; [vm_compute; reflexivity|]. split; [vm_compute; reflexivity|].
  split; [vm_compute; reflexivity|].
  intros H.
  specialize (H (demoState (Num 0) tenthsByDate)
                (Transaction.mk "t1" "c1" "2024-01-01" "" CREDIT (Number "0.1"))
                []
                [ (Transaction.mk "t2" "c1" "2024-01-02" "" CREDIT (Number "0.2"),
                   Number "0.30000000000000004");
                  (Transaction.mk "t3" "c1" "2024-01-03" "" CREDIT (Number "0.3"),
                   Number "0.6000000000000001") ]
                [ (Transaction.mk "t2" "c1" "2024-01-02" "" CREDIT (Number "0.2"),
                   Number "0.2");
                  (Transaction.mk "t3" "c1" "2024-01-03" "" CREDIT (Number "0.3"),
                   Number "0.5") ]
                (Number "0.1")).
  assert (Hshift : Forall2
                     (fun old new : Transaction.t * number =>
                        fst old = fst new
                        /\ snd old
                           = balanceAfter (snd new)
                               (Transaction.mk "t1" "c1" "2024-01-01" "" CREDIT
                                  (Number "0.1")))
                     [ (Transaction.mk "t2" "c1" "2024-01-02" "" CREDIT (Number "0.2"),
                        Number "0.30000000000000004");
                       (Transaction.mk "t3" "c1" "2024-01-03" "" CREDIT (Number "0.3"),
                        Number "0.6000000000000001") ]
                     [ (Transaction.mk "t2" "c1" "2024-01-02" "" CREDIT (Number "0.2"),
                        Number "0.2");
                       (Transaction.mk "t3" "c1" "2024-01-03" "" CREDIT (Number "0.3"),
                        Number "0.5") ]).
  { apply H.
    - left; reflexivity.
    - repeat constructor; simpl; intuition discriminate.
    - reflexivity.
    - repeat constructor; discriminate.
    - vm_compute. reflexivity.
    - vm_compute. reflexivity. }
  inversion Hshift as [|? ? ? ? _ Hrest]; subst.
  inversion Hrest as [|? ? ? ? [_ Habs] _]; subst.
  cbn [snd balanceAfter Transaction.type Transaction.amount] in Habs.
  numbers_differ Habs.
Qed.

(** ** The trend of the dashboard *)

Lemma digitChar_not_dash (x : Z) : Ascii.eqb (digitChar x) "-"%char = false.
Proof. by_digit_cases x. Qed.

Lemma chartName_dayMonth (day : Z) :
  0 <= yearOf day <= 9999 ->
  join "/" (rev (slice1 (split "-" (isoDate day)))) = dayMonth day.
Proof.
  unfold yearOf, isoDate, dayMonth, yearString.
  destruct (civilFromDays day) as [[y m] d]. intros Hy.
  replace ((0 <=? y) && (y <=? 9999)) with true
    by (symmetry; apply andb_true_iff; split; apply Z.leb_le; lia).
  unfold split. cbn [padDigits append splitAux].
  rewrite !digitChar_not_dash.
  reflexivity.
Qed.

(** Where the offset of the zone never changes, [setDate(getDate() - i)]
    moves the instant back by [i] whole days, and [toISOString] prints
    the UTC date [i] days before the one of the instant. *)
Lemma setDate_fixedZone (offset now i : Z) :
  Date_setDate (fixedZone offset) now (Date_getDate (fixedZone offset) now - i)
  = now - i * msPerDay.
Proof.
  unfold Date_setDate, Date_getDate, LocalTime, UTC, fixedZone.
  cbn [offsetAtUTC offsetAtLocal].
  pose proof (makeDay_civilFromDays ((now + offset) / msPerDay)) as Hcivil.
  destruct (civilFromDays ((now + offset) / msPerDay)) as [[y m] d].
  destruct Hcivil as [_ Hmake].
  replace (makeDay y m (d - i)) with ((now + offset) / msPerDay - i)
    by (unfold makeDay in *; lia).
  unfold msPerDay. Z.div_mod_to_equations. lia.
Qed.

Lemma toISODate_fixedZone (offset now i : Z) :
  Date_toISODate
    (Date_setDate (fixedZone offset) now (Date_getDate (fixedZone offset) now - i))
  = isoDate (utcDay now - i).
Proof.
  rewrite setDate_fixedZone. unfold Date_toISODate, utcDay. f_equal.
  unfold msPerDay. Z.div_mod_to_equations. lia.
Qed.

Lemma length_chartDays (tz : TimeZone) (now : Z) :
  List.length (chartDays tz now) = 7%nat.
Proof. unfold chartDays. now rewrite length_rev, length_map, length_seq. Qed.

Lemma nth_error_chartDays (offset now : Z) (k : nat) :
  (k < 7)%nat ->
  nth_error (chartDays (fixedZone offset) now) (6 - k)
  = Some (isoDate (utcDay now - Z.of_nat k)).
Proof.
  intros Hk. unfold chartDays.
  rewrite nth_error_rev, length_map, length_seq.
  destruct (Nat.ltb_spec (6 - k) 7) as [_|]; [|lia].
  rewrite nth_error_map, nth_error_seq.
  destruct (Nat.ltb_spec (7 - S (6 - k)) 7) as [_|]; [|lia].
  cbn [option_map]. rewrite toISODate_fixedZone. do 3 f_equal. lia.
Qed.

Lemma filter_none {A : Type} (p : A -> bool) (l : list A) :
  (forall x, In x l -> p x = false) -> filter p l = [].
Proof.
  induction l as [|x l IH]; intros H; [reflexivity|]. cbn [filter].
  rewrite (H x) by now left. apply IH. intros y Hy. apply H. now right.
Qed.




(** ** Backup and restore *)

Lemma reader_onload_checks (data : json) (confirmed : bool) :
  data <> JNull -> data <> JUndefined ->
  reader_onload (Some data) confirmed
  = if truthyJson (prop data "companies")
       && truthyJson (prop data "customers")
       && truthyJson (prop data "transactions")
    then if confirmed
         then mkEffect
                (Some (prop data "companies", prop data "customers",
                       prop data "transactions"))
                (Some BackupRestored)
         else mkEffect None None
    else mkEffect None (Some InvalidBackupFormat).
Proof.
  intros Hnull Hundef. destruct data; try reflexivity; congruence.
Qed.

(** C5, as the code has it. [reader.onload] checks that [companies],
    [customers] and [transactions] are present with truthy values; it does
    not check that they are arrays.  When the check passes and the user
    confirms, the three setters are called together with the values of the
    file; when the user declines, none is called.  When one of the three is
    missing (or falsy) the file is reported as invalid and no setter is
    called; when [JSON.parse] throws, or yields [null], the file is reported
    as unreadable and no setter is called.  Without a setter call the state
    is the state before, and a typed file replaces all three collections. *)
Theorem reader_onload_spec (parsed : option json) (confirmed : bool) :
  let eff := reader_onload parsed confirmed in
  (parsed = None \/ parsed = Some JNull ->
   eff = mkEffect None (Some ErrorReadingBackup))
  /\ (forall data, parsed = Some data -> data <> JNull -> data <> JUndefined ->
      truthyJson (prop data "companies") = false
      \/ truthyJson (prop data "customers") = false
      \/ truthyJson (prop data "transactions") = false ->
      eff = mkEffect None (Some InvalidBackupFormat))
  /\ (forall data, parsed = Some data ->
      prop data "companies" = JUndefined
      \/ prop data "customers" = JUndefined
      \/ prop data "transactions" = JUndefined ->
      setterArgs eff = None /\ alerted eff <> Some BackupRestored)
  /\ (forall data, parsed = Some data -> data <> JNull -> data <> JUndefined ->
      truthyJson (prop data "companies") = true ->
      truthyJson (prop data "customers") = true ->
      truthyJson (prop data "transactions") = true ->
      eff = if confirmed
            then mkEffect
                   (Some (prop data "companies", prop data "customers",
                          prop data "transactions"))
                   (Some BackupRestored)
            else mkEffect None None)
  /\ (forall st, setterArgs eff = None ->
      handleImportBackup parsed confirmed st = Some st)
  /\ (forall st cs cus txs companies' customers' transactions',
      setterArgs eff = Some (cs, cus, txs) ->
      readArray readCompany cs = Some companies' ->
      readArray readCustomer cus = Some customers' ->
      readArray readTransaction txs = Some transactions' ->
      exists st',
        handleImportBackup parsed confirmed st = Some st'
        /\ companies st' = companies'
        /\ customers st' = customers'
        /\ transactions st' = transactions').
Proof.
  intros eff. subst eff.
  split; [intros [->| ->]; reflexivity|].
  split.
  { intros data -> Hnull Hundef H.
    rewrite (reader_onload_checks data confirmed Hnull Hundef).
    destruct H as [H|[H|H]]; rewrite H; rewrite ?andb_false_r; reflexivity. }
  split.
  { intros data -> H.
    destruct data; try (split; [reflexivity | discriminate]).
    rewrite reader_onload_checks by discriminate.
    destruct H as [H|[H|H]]; rewrite H; simpl; rewrite ?andb_false_r;
      (split; [reflexivity | discriminate]). }
  split.
  { intros data -> Hnull Hundef H1 H2 H3.
    now rewrite (reader_onload_checks data confirmed Hnull Hundef), H1, H2, H3. }
  split.
  { intros st H. unfold handleImportBackup, applyImport. now rewrite H. }
  intros st cs cus txs companies' customers' transactions' H Hc Hcu Ht.
  unfold handleImportBackup, applyImport. rewrite H, Hc, Hcu, Ht. simpl.
  eexists; repeat split; reflexivity.
Qed.

Lemma reader_onload_spec_witness :
  reader_onload None true = mkEffect None (Some ErrorReadingBackup)
  /\ reader_onload (Some backupWithoutTransactions) true
     = mkEffect None (Some InvalidBackupFormat)
  /\ handleImportBackup (Some backupWithoutTransactions) true
       (demoState (Num 1000) scenarioA)
     = Some (demoState (Num 1000) scenarioA)
  /\ exists st',
      handleImportBackup (Some (handleExportBackup "2024-01-05T00:00:00.000Z"
                                  (demoState (Num 1000) scenarioA)))
        true initialState = Some st'
      /\ transactions st' = scenarioA.
Proof.
  split; [|split; [|split]].
  - apply (reader_onload_spec None true). left; reflexivity.
  - apply (reader_onload_spec (Some backupWithoutTransactions) true) with
      (data := backupWithoutTransactions);
      [reflexivity | discriminate | discriminate | right; right; reflexivity].
  - apply (reader_onload_spec (Some backupWithoutTransactions) true).
    reflexivity.
  - destruct (reader_onload_spec
                (Some (handleExportBackup "2024-01-05T00:00:00.000Z"
                         (demoState (Num 1000) scenarioA))) true)
      as [_ [_ [_ [_ [_ H]]]]].
    destruct (H initialState
                (JArr (map encodeCompany [demoCompany]))
                (JArr (map encodeCustomer [demoCustomer (Num 1000)]))
                (JArr (map encodeTransaction scenarioA))
                [demoCompany] [demoCustomer (Num 1000)] scenarioA)
      as [st' [Hst' [_ [_ Htx]]]]; try reflexivity.
    exists st'. split; [exact Hst' | exact Htx].
Defined.

(** C5 as stated fails: a file whose three fields are a number, a text and
    an object passes the check; the setters receive these values, the
    success alert is shown, and what is stored is no collection. *)
Lemma reader_onload_accepts_non_arrays :
  ~ (forall parsed confirmed cs cus txs,
        setterArgs (reader_onload parsed confirmed) = Some (cs, cus, txs) ->
        isArray cs = true /\ isArray cus = true /\ isArray txs = true)
  /\ reader_onload (Some scalarBackup) true
     = mkEffect (Some (JNum (Num 1), JStr "x", JObj [])) (Some BackupRestored)
  /\ handleImportBackup (Some scalarBackup) true initialState = None.
Proof.
  split; [|split; reflexivity].
  intros H.
  destruct (H (Some scalarBackup) true (JNum (Num 1)) (JStr "x") (JObj []) eq_refl)
    as [Habs _].
  discriminate Habs.
Qed.
(** *** The round trip *)

Lemma restoredNumber_json (x : number) : jsonNumber x -> restoredNumber x = x.
Proof.
  intros [_ Hneg]. unfold restoredNumber.
  destruct (is_zero x) eqn:Hz; [|reflexivity].
  destruct (is_zero_cases x Hz) as [->| ->]; [reflexivity | now elim Hneg].
Qed.

Lemma readNumber_restored (x : number) :
  is_finite x = true -> readNumber (encodeNumber x) = Some (restoredNumber x).
Proof. intros Hf. unfold encodeNumber. now rewrite Hf. Qed.

Lemma readNumber_lost (x : number) :
  is_finite x = false -> readNumber (encodeNumber x) = None.
Proof. intros Hf. unfold encodeNumber. now rewrite Hf. Qed.

Lemma readTransaction_restored (t : Transaction.t) :
  is_finite (Transaction.amount t) = true ->
  readTransaction (encodeTransaction t) = Some (restoredTransaction t).
Proof.
  destruct t as [id cid date desc ty amount]. cbn [Transaction.amount]. intros Hf.
  unfold readTransaction, encodeTransaction, restoredTransaction.
  cbn [prop assoc String.eqb Ascii.eqb Bool.eqb readString bind
       Transaction.id Transaction.customerId Transaction.date
       Transaction.description Transaction.type Transaction.amount].
  rewrite (readNumber_restored amount Hf).
  destruct ty; reflexivity.
Qed.

Lemma readTransaction_lost (t : Transaction.t) :
  is_finite (Transaction.amount t) = false ->
  readTransaction (encodeTransaction t) = None.
Proof.
  destruct t as [id cid date desc ty amount]. cbn [Transaction.amount]. intros Hf.
  unfold readTransaction, encodeTransaction.
  cbn [prop assoc String.eqb Ascii.eqb Bool.eqb readString bind
       Transaction.id Transaction.customerId Transaction.date
       Transaction.description Transaction.type Transaction.amount].
  rewrite (readNumber_lost amount Hf).
  destruct ty; reflexivity.
Qed.

Lemma readCustomer_restored (c : Customer.t) :
  is_finite (Customer.openingBalance c) = true ->
  readCustomer (encodeCustomer c) = Some (restoredCustomer c).
Proof.
  destruct c as [id coid name phone address opening].
  cbn [Customer.openingBalance]. intros Hf.
  unfold readCustomer, encodeCustomer, restoredCustomer.
  cbn [prop assoc String.eqb Ascii.eqb Bool.eqb readString bind
       Customer.id Customer.companyId Customer.name Customer.phone
       Customer.address Customer.openingBalance].
  now rewrite (readNumber_restored opening Hf).
Qed.

Lemma readCustomer_lost (c : Customer.t) :
  is_finite (Customer.openingBalance c) = false ->
  readCustomer (encodeCustomer c) = None.
Proof.
  destruct c as [id coid name phone address opening].
  cbn [Customer.openingBalance]. intros Hf.
  unfold readCustomer, encodeCustomer.
  cbn [prop assoc String.eqb Ascii.eqb Bool.eqb readString bind
       Customer.id Customer.companyId Customer.name Customer.phone
       Customer.address Customer.openingBalance].
  now rewrite (readNumber_lost opening Hf).
Qed.

Lemma restoredTransaction_json (t : Transaction.t) :
  jsonNumber (Transaction.amount t) -> restoredTransaction t = t.
Proof.
  destruct t as [id cid date desc ty amount]. cbn [Transaction.amount]. intros Hj.
  unfold restoredTransaction. cbn. now rewrite (restoredNumber_json amount Hj).
Qed.

Lemma restoredCustomer_json (c : Customer.t) :
  jsonNumber (Customer.openingBalance c) -> restoredCustomer c = c.
Proof.
  destruct c as [id coid name phone address opening].
  cbn [Customer.openingBalance]. intros Hj.
  unfold restoredCustomer. cbn. now rewrite (restoredNumber_json opening Hj).
Qed.

Lemma readTransaction_encode (t : Transaction.t) :
  jsonNumber (Transaction.amount t) ->
  readTransaction (encodeTransaction t) = Some t.
Proof.
  intros Hj. rewrite readTransaction_restored by apply Hj.
  now rewrite restoredTransaction_json.
Qed.

Lemma readCustomer_encode (c : Customer.t) :
  jsonNumber (Customer.openingBalance c) ->
  readCustomer (encodeCustomer c) = Some c.
Proof.
  intros Hj. rewrite readCustomer_restored by apply Hj.
  now rewrite restoredCustomer_json.
Qed.

Lemma readCompany_encode (c : Company.t) :
  readCompany (encodeCompany c) = Some c.
Proof.
  destruct c as [id name address gst fy].
  destruct gst; reflexivity.
Qed.

Lemma readAll_map_encode {B : Type} (enc : B -> json) (dec : json -> option B)
    (back : B -> B) (ok : B -> Prop) (l : list B) :
  (forall b, ok b -> dec (enc b) = Some (back b)) ->
  Forall ok l ->
  readAll dec (map enc l) = Some (map back l).
Proof.
  intros Hdec Hl. induction Hl as [|b l Hb _ IH]; simpl; [reflexivity|].
  now rewrite (Hdec b Hb), IH.
Qed.

Lemma readAll_encode {B : Type} (enc : B -> json) (dec : json -> option B)
    (ok : B -> Prop) (l : list B) :
  (forall b, ok b -> dec (enc b) = Some b) ->
  Forall ok l ->
  readAll dec (map enc l) = Some l.
Proof.
  intros Hdec Hl.
  rewrite (readAll_map_encode enc dec (fun b => b) ok l Hdec Hl).
  now rewrite map_id.
Qed.

Lemma readAll_lost {B : Type} (enc : B -> json) (dec : json -> option B)
    (l : list B) (b : B) :
  In b l -> dec (enc b) = None -> readAll dec (map enc l) = None.
Proof.
  intros Hin Hb. induction l as [|x l IH]; [destruct Hin|].
  cbn [map readAll]. destruct Hin as [->|Hin].
  - now rewrite Hb.
  - rewrite (IH Hin). unfold bind. now destruct (dec (enc x)).
Qed.

Lemma readCompanies_encoded (l : list Company.t) :
  readAll readCompany (map encodeCompany l) = Some l.
Proof.
  apply (readAll_encode encodeCompany readCompany (fun _ => True)).
  - intros b _. apply readCompany_encode.
  - apply Forall_forall. intros; exact I.
Qed.

Lemma setters_same (st : AppState) :
  setTransactions (transactions st)
    (setCustomers (customers st) (setCompanies (companies st) st)) = st.
Proof. destruct st; reflexivity. Qed.

Lemma reader_onload_export (st : AppState) (exportedAt : string) :
  reader_onload (Some (handleExportBackup exportedAt st)) true
  = mkEffect (Some (JArr (map encodeCompany (companies st)),
                    JArr (map encodeCustomer (customers st)),
                    JArr (map encodeTransaction (transactions st))))
      (Some BackupRestored).
Proof. reflexivity. Qed.

Lemma import_export_restored (st st0 : AppState) (exportedAt : string) :
  finiteNumbers st ->
  handleImportBackup (Some (handleExportBackup exportedAt st)) true st0
  = Some (setTransactions (map restoredTransaction (transactions st))
            (setCustomers (map restoredCustomer (customers st))
               (setCompanies (companies st) st0))).
Proof.
  intros [Htx Hcu].
  unfold handleImportBackup, applyImport.
  rewrite reader_onload_export. cbn [setterArgs]. unfold readArray.
  rewrite readCompanies_encoded.
  rewrite (readAll_map_encode encodeCustomer readCustomer restoredCustomer _ _
             readCustomer_restored Hcu).
  rewrite (readAll_map_encode encodeTransaction readTransaction restoredTransaction
             _ _ readTransaction_restored Htx).
  reflexivity.
Qed.

Lemma jsonNumbers_finite (st : AppState) : jsonNumbers st -> finiteNumbers st.
Proof.
  intros [Htx Hcu]. split; (eapply Forall_impl; [|eassumption]); intros a H; apply H.
Qed.

Lemma map_restored {A : Type} (f : A -> A) (P : A -> Prop) (l : list A) :
  (forall a, P a -> f a = a) -> Forall P l -> map f l = l.
Proof.
  intros Hf Hl. induction Hl as [|a l Ha _ IH]; [reflexivity|].
  cbn [map]. now rewrite (Hf a Ha), IH.
Qed.

Lemma import_of_export (st st0 : AppState) (exportedAt : string) :
  jsonNumbers st ->
  handleImportBackup (Some (handleExportBackup exportedAt st)) true st0
  = Some (setTransactions (transactions st)
            (setCustomers (customers st) (setCompanies (companies st) st0))).
Proof.
  intros Hj. rewrite import_export_restored by now apply jsonNumbers_finite.
  destruct Hj as [Htx Hcu].
  rewrite (map_restored restoredTransaction _ _ restoredTransaction_json Htx).
  rewrite (map_restored restoredCustomer _ _ restoredCustomer_json Hcu).
  reflexivity.
Qed.

(** C6, as the code has it.  For a state in which every amount and every
    opening balance is a number that a JSON text gives back as it is (a
    finite number, the negative zero apart), importing the exported backup
    succeeds and brings back the three collections as they were, into
    whatever state it is imported; the statistics and the ledger of every
    customer are then the same.  Importing it at once into the state it
    was exported from gives that very state, whether the user confirms or
    not. *)
Theorem export_import_roundtrip (st st0 : AppState) (exportedAt : string) :
  jsonNumbers st ->
  (forall confirmed,
      handleImportBackup (Some (handleExportBackup exportedAt st)) confirmed st
      = Some st)
  /\ exists st',
      handleImportBackup (Some (handleExportBackup exportedAt st)) true st0 = Some st'
      /\ companies st' = companies st
      /\ customers st' = customers st
      /\ transactions st' = transactions st
      /\ stats st' = stats st
      /\ forall cid,
           runningLedger (setSelectedCustomerId (Some cid) st')
           = runningLedger (setSelectedCustomerId (Some cid) st).
Proof.
  intros Hj. split.
  - intros [|].
    + rewrite (import_of_export st st exportedAt Hj). now rewrite setters_same.
    + reflexivity.
  - rewrite (import_of_export st st0 exportedAt Hj).
    eexists. split; [reflexivity|].
    repeat split; reflexivity.
Qed.

Lemma export_import_roundtrip_witness :
  handleImportBackup
    (Some (handleExportBackup "2024-01-05T00:00:00.000Z" fractionsState))
    true fractionsState
  = Some fractionsState
  /\ map Transaction.amount (transactions fractionsState)
     = [Number "0.1"; Number "0.2"; Number "0.3"].
Proof.
  split; [|reflexivity].
  apply (export_import_roundtrip fractionsState fractionsState
           "2024-01-05T00:00:00.000Z").
  split; repeat constructor; cbn; try (intros H; numbers_differ H).
Defined.

(** C6 as stated fails.  A backup file in which an amount is written
    [1e999] is accepted, and the stored amount is then [Infinity]; the
    export of this state holds [null] in its place, and what the import of
    that export stores is no transaction of the declared type.  And the
    amount text [-0] is stored as the negative zero, which comes back from
    the backup as [0]. *)
Lemma export_import_loses_numbers :
  Number "1e999" = Infinity
  /\ (exists st,
         handleImportBackup (Some overflowBackup) true initialState = Some st
         /\ map Transaction.amount (transactions st) = [Infinity]
         /\ prop (handleExportBackup "2024-01-05T00:00:00.000Z" st) "transactions"
            = JArr [ JObj [ ("id", JStr "t1"); ("customerId", JStr "c1");
                            ("date", JStr "2024-01-01"); ("description", JStr "");
                            ("type", JStr "CREDIT"); ("amount", JNull) ] ]
         /\ handleImportBackup
              (Some (handleExportBackup "2024-01-05T00:00:00.000Z" st)) true st
            = None)
  /\ ~ (forall st exportedAt,
          exists st',
            handleImportBackup (Some (handleExportBackup exportedAt st)) true st
            = Some st'
            /\ stats st' = stats st)
  /\ (let st := handleAddTransaction "t1" "2024-01-05"
                  (enterTx "2024-01-05" CREDIT "-0" (demoState (Num 0) [])) in
      map Transaction.amount (transactions st) = [neg_zero]
      /\ exists st',
           handleImportBackup
             (Some (handleExportBackup "2024-01-05T00:00:00.000Z" st)) true st
           = Some st'
           /\ map Transaction.amount (transactions st') = [Num 0]
           /\ Num 0 <> neg_zero).
Proof.
  split; [vm_compute; reflexivity|]. split; [|split].
  - eexists. split; [vm_compute; reflexivity|].
    split; [reflexivity|]. split; vm_compute; reflexivity.
  - intros H.
    destruct (H (setTransactions
                   [Transaction.mk "t1" "c1" "2024-01-01" "" CREDIT Infinity]
                   (demoState (Num 0) []))
                "2024-01-05T00:00:00.000Z") as [st' [Himport _]].
    vm_compute in Himport. discriminate Himport.
  - split; [vm_compute; reflexivity|].
    eexists. split; [vm_compute; reflexivity|].
    split; [vm_compute; reflexivity|].
    intros H. numbers_differ H.
Qed.

(** ** Examples of the built-ins *)

Example Number_decimal : Number "500" = Num 500.
Proof. vm_compute. reflexivity. Qed.

Example Number_signed_padded : Number " -12 " = Num (-12).
Proof. vm_compute. reflexivity. Qed.

Example Number_fraction : Number "12.50" = 12.5%float.
Proof. vm_compute. reflexivity. Qed.

Example Number_leading_point : Number ".5" = 0.5%float.
Proof. vm_compute. reflexivity. Qed.

Example Number_exponent : Number "1e3" = Num 1000.
Proof. vm_compute. reflexivity. Qed.

Example Number_hexadecimal : Number "0x10" = Num 16.
Proof. vm_compute. reflexivity. Qed.

Example Number_infinity : Number "Infinity" = Infinity.
Proof. vm_compute. reflexivity. Qed.

Example Number_rounds : Number "9007199254740993" = Num 9007199254740992.
Proof. vm_compute. reflexivity. Qed.

Example Number_not_numeric : Number "abc" = NaN.
Proof. vm_compute. reflexivity. Qed.

Example Number_empty : Number "" = Num 0.
Proof. vm_compute. reflexivity. Qed.

Example add_rounds :
  add (Number "0.1") (Number "0.2") = Number "0.30000000000000004".
Proof. vm_compute. reflexivity. Qed.

Example add_above_2_53 : add (Num 9007199254740992) (Num 1) = Num 9007199254740992.
Proof. vm_compute. reflexivity. Qed.

Example getTime_2024_01_01 : Date_getTime "2024-01-01" = Num 1704067200000.
Proof. vm_compute. reflexivity. Qed.

Example getTime_epoch : Date_getTime "1970-01-01" = Num 0.
Proof. vm_compute. reflexivity. Qed.

Example getTime_leap_day : Date_getTime "2024-02-29" = Num 1709164800000.
Proof. vm_compute. reflexivity. Qed.

(** A day past the end of its month is carried into the next month. *)
Example getTime_past_month_end :
  Date_getTime "2023-02-29" = Date_getTime "2023-03-01".
Proof. vm_compute. reflexivity. Qed.

Example getTime_day_32 : Date_getTime "2023-01-32" = NaN.
Proof. vm_compute. reflexivity. Qed.

Example getTime_empty : Date_getTime "" = NaN.
Proof. vm_compute. reflexivity. Qed.

Example isoDate_epoch : isoDate 0 = "1970-01-01".
Proof. reflexivity. Qed.

Example isoDate_before_epoch : isoDate (-1) = "1969-12-31".
Proof. reflexivity. Qed.

Example isoDate_leap_day : isoDate 19782 = "2024-02-29".
Proof. reflexivity. Qed.

Example isoDate_year_zero : isoDate (-719528) = "0000-01-01".
Proof. reflexivity. Qed.

Example isoDate_before_year_zero : isoDate (-719529) = "-000001-12-31".
Proof. reflexivity. Qed.

Example isoDate_last_four_digit_day : isoDate 2932896 = "9999-12-31".
Proof. reflexivity. Qed.

Example isoDate_expanded_year : isoDate 2932897 = "+010000-01-01".
Proof. reflexivity. Qed.

Example split_date : split "-" "2024-03-10" = ["2024"; "03"; "10"].
Proof. reflexivity. Qed.

Example sort_by_date :
  map Transaction.id
    (sort byDate
       [ Transaction.mk "a" "c1" "2024-03-02" "" DEBIT (Num 1);
         Transaction.mk "b" "c1" "2024-01-15" "" DEBIT (Num 1);
         Transaction.mk "c" "c1" "2024-03-02" "" CREDIT (Num 1);
         Transaction.mk "d" "c1" "2023-12-31" "" CREDIT (Num 1) ])
  = ["d"; "b"; "a"; "c"].
Proof. vm_compute. reflexivity. Qed.

(** ** The scenarios, entered through the handlers *)

Example scenarioA_entered :
  let st1 := handleAddTransaction "t1" "2024-01-05"
               (enterTx "2024-01-01" CREDIT "500" (demoState (Num 1000) [])) in
  let st2 := handleAddTransaction "t2" "2024-01-05"
               (enterTx "2024-01-02" DEBIT "200" st1) in
  transactions st2 = scenarioA
  /\ map snd (runningLedger st2) = [Num 1500; Num 1300]
  /\ bal (transactions st2) (demoCustomer (Num 1000)) = Num 1300.
Proof. repeat split; vm_compute; reflexivity. Qed.

Example scenarioB_entered :
  let st1 := handleAddTransaction "t1" "2024-02-01"
               (enterTx "2024-02-01" CREDIT "100" (demoState (Num 7) [])) in
  let st2 := handleAddTransaction "t2" "2024-02-01"
               (enterTx "2024-02-01" DEBIT "50" st1) in
  transactions st2 = scenarioB
  /\ map snd (runningLedger st2) = [Num 107; Num 57].
Proof. repeat split; vm_compute; reflexivity. Qed.

(** Entered the other way round, the later date still comes last. *)
Example scenarioA_entered_backwards :
  let st1 := handleAddTransaction "t2" "2024-01-05"
               (enterTx "2024-01-02" DEBIT "200" (demoState (Num 1000) [])) in
  let st2 := handleAddTransaction "t1" "2024-01-05"
               (enterTx "2024-01-01" CREDIT "500" st1) in
  transactions st2 = rev scenarioA
  /\ map snd (runningLedger st2) = [Num 1500; Num 1300].
Proof. repeat split; vm_compute; reflexivity. Qed.

(* ================================================================= *)
(** * More properties of the code *)

(** ** What comes back after a reload *)

Lemma mount_persist (st : AppState) (storage : Storage) (today : string) :
  finiteNumbers st ->
  mount today (persist st storage)
  = Some (mkState (companies st)
            (map restoredCustomer (customers st))
            (map restoredTransaction (transactions st))
            None None false false false
            CompanyForm.initial CustomerForm.initial (TxForm.mk today "" CREDIT "")).
Proof.
  intros [Htx Hcu].
  unfold mount, persist, mountCells, loadData, setItem.
  cbn [getItem String.eqb Ascii.eqb Bool.eqb readArray].
  rewrite readCompanies_encoded.
  rewrite (readAll_map_encode encodeCustomer readCustomer restoredCustomer _ _
             readCustomer_restored Hcu).
  rewrite (readAll_map_encode encodeTransaction readTransaction restoredTransaction
             _ _ readTransaction_restored Htx).
  reflexivity.
Qed.

Lemma bind_none {A B : Type} (o : option A) :
  (x <- o ;; (None : option B)) = None.
Proof. now destruct o. Qed.

Lemma mount_persist_lost (st : AppState) (storage : Storage) (today : string) :
  (exists t, In t (transactions st) /\ is_finite (Transaction.amount t) = false)
  \/ (exists c, In c (customers st) /\ is_finite (Customer.openingBalance c) = false) ->
  mount today (persist st storage) = None.
Proof.
  intros H.
  unfold mount, persist, mountCells, loadData, setItem.
  cbn [getItem String.eqb Ascii.eqb Bool.eqb readArray].
  rewrite readCompanies_encoded. cbn [bind].
  destruct H as [[t [Hin Hf]]|[c [Hin Hf]]].
  - rewrite (readAll_lost encodeTransaction readTransaction _ t Hin
               (readTransaction_lost t Hf)).
    apply bind_none.
  - now rewrite (readAll_lost encodeCustomer readCustomer _ c Hin
                   (readCustomer_lost c Hf)).
Qed.

(** X1. The persistence effect leaves every key but its three untouched,
    whatever the storage held.  When every amount and every opening
    balance is finite, a reload after the effect reads the companies, the
    customers and the transactions back as they were, a negative zero as
    [0]; nothing is selected and the forms are fresh.  When none of these
    numbers is a negative zero either, the three collections and the
    statistics come back unchanged.  When an amount or an opening balance
    is [NaN] or infinite, the stored text holds [null] in its place, and
    what the reload reads is no collection of the declared types. *)
Theorem reload_after_persist (st : AppState) (storage : Storage) (today : string) :
  (forall key,
      key <> "companies" -> key <> "customers" -> key <> "transactions" ->
      getItem key (persist st storage) = getItem key storage)
  /\ (finiteNumbers st ->
      mount today (persist st storage)
      = Some (mkState (companies st)
                (map restoredCustomer (customers st))
                (map restoredTransaction (transactions st))
                None None false false false
                CompanyForm.initial CustomerForm.initial (TxForm.mk today "" CREDIT "")))
  /\ (jsonNumbers st ->
      exists st',
        mount today (persist st storage) = Some st'
        /\ companies st' = companies st
        /\ customers st' = customers st
        /\ transactions st' = transactions st
        /\ stats st' = stats st)
  /\ ((exists t, In t (transactions st) /\ is_finite (Transaction.amount t) = false)
      \/ (exists c, In c (customers st)
                    /\ is_finite (Customer.openingBalance c) = false) ->
      getItem "transactions" (persist st storage)
      = Some (JsonText (JArr (map encodeTransaction (transactions st))))
      /\ getItem "customers" (persist st storage)
         = Some (JsonText (JArr (map encodeCustomer (customers st))))
      /\ (forall t, In t (transactions st) ->
            is_finite (Transaction.amount t) = false ->
            prop (encodeTransaction t) "amount" = JNull)
      /\ (forall c, In c (customers st) ->
            is_finite (Customer.openingBalance c) = false ->
            prop (encodeCustomer c) "openingBalance" = JNull)
      /\ mount today (persist st storage) = None).
Proof.
  split.
  { intros key Hco Hcu Htx. unfold persist, setItem. cbn [getItem].
    destruct (String.eqb_spec "transactions" key) as [Heq|_]; [congruence|].
    destruct (String.eqb_spec "customers" key) as [Heq|_]; [congruence|].
    destruct (String.eqb_spec "companies" key) as [Heq|_]; [congruence|].
    reflexivity. }
  split; [apply mount_persist|]. split.
  - intros Hj. rewrite mount_persist by now apply jsonNumbers_finite.
    destruct Hj as [Htx Hcu].
    rewrite (map_restored restoredTransaction _ _ restoredTransaction_json Htx).
    rewrite (map_restored restoredCustomer _ _ restoredCustomer_json Hcu).
    eexists. split; [reflexivity|]. repeat split; reflexivity.
  - intros H. split; [reflexivity|]. split; [reflexivity|].
    split; [|split; [|now apply mount_persist_lost]].
    + intros t _ Hf. destruct t as [id cid date desc ty amount].
      cbn [Transaction.amount] in Hf.
      unfold encodeTransaction, encodeNumber.
      cbn [prop assoc String.eqb Ascii.eqb Bool.eqb Transaction.amount].
      now rewrite Hf.
    + intros c _ Hf. destruct c as [id coid name phone address opening].
      cbn [Customer.openingBalance] in Hf.
      unfold encodeCustomer, encodeNumber.
      cbn [prop assoc String.eqb Ascii.eqb Bool.eqb Customer.openingBalance].
      now rewrite Hf.
Qed.

Lemma reload_after_persist_witness :
  (exists st',
      mount "2024-01-05" (persist fractionsState brokenStorage) = Some st'
      /\ transactions st' = tenths
      /\ stats st' = stats fractionsState)
  /\ mount "2024-01-05"
       (persist (setTransactions
                   [Transaction.mk "t1" "c1" "2024-01-01" "" CREDIT Infinity]
                   (demoState (Num 0) [])) [])
     = None.
Proof.
  destruct (reload_after_persist fractionsState brokenStorage "2024-01-05")
    as [_ [_ [H _]]].
  destruct (reload_after_persist
              (setTransactions
                 [Transaction.mk "t1" "c1" "2024-01-01" "" CREDIT Infinity]
                 (demoState (Num 0) [])) [] "2024-01-05")
    as [_ [_ [_ Hlost]]].
  split.
  - destruct H as [st' [Hm [_ [_ [Htx Hstats]]]]].
    + split; repeat constructor; cbn; try (intros Habs; numbers_differ Habs).
    + exists st'. split; [exact Hm|]. split; [exact Htx | exact Hstats].
  - apply Hlost. left. eexists. split; [left; reflexivity | reflexivity].
Defined.

(** X2. After the wipe is confirmed, whatever was persisted before, the
    reload mounts the component over three empty collections: the
    statistics are all zero, the customers tab, the recent activities and
    the ledger are empty.  A wipe that is not confirmed leaves the storage
    as it is. *)
Theorem wipe_then_reload (st : AppState) (storage : Storage) (today : string) :
  mount today (wipe true (persist st storage)) = Some (emptyState today)
  /\ stats (emptyState today)
     = DashboardStats.mk (Num 0) (Num 0) (Num 0) (Num 0) (Num 0)
  /\ companyCustomers (emptyState today) = []
  /\ recentActivities (emptyState today) = []
  /\ runningLedger (emptyState today) = []
  /\ wipe false (persist st storage) = persist st storage.
Proof. repeat split; reflexivity. Qed.

(** X3. [loadData] gives the default for a key that is absent or holds the
    empty text, and it throws on a text that [JSON.parse] rejects: with such
    a text under any of the three keys the component does not mount, while
    a storage without any of the three keys mounts over empty
    collections. *)
Theorem loadData_edges :
  (forall key defaultValue storage,
      getItem key storage = None \/ getItem key storage = Some EmptyText ->
      loadData key defaultValue storage = LoadReturns defaultValue)
  /\ (forall storage today,
      getItem "companies" storage = Some MalformedText
      \/ getItem "customers" storage = Some MalformedText
      \/ getItem "transactions" storage = Some MalformedText ->
      mountCells storage = MountThrows /\ mount today storage = None)
  /\ (forall storage today,
      getItem "companies" storage = None ->
      getItem "customers" storage = None ->
      getItem "transactions" storage = None ->
      mount today storage = Some (emptyState today)).
Proof.
  split; [|split].
  - intros key d storage [H|H]; unfold loadData; now rewrite H.
  - intros storage today H.
    assert (Hcells : mountCells storage = MountThrows).
    { unfold mountCells, loadData.
      destruct H as [H|[H|H]]; rewrite H;
        repeat match goal with
               | |- context [match getItem ?k ?s with _ => _ end] =>
                   destruct (getItem k s) as [[| |?]|]
               end; reflexivity. }
    split; [exact Hcells|]. unfold mount. now rewrite Hcells.
  - intros storage today Hco Hcu Htx.
    unfold mount, mountCells, loadData. now rewrite Hco, Hcu, Htx.
Qed.

Lemma loadData_edges_witness :
  loadData "transactions" (JArr []) brokenStorage = LoadReturns (JArr [])
  /\ mount "2024-01-05" brokenStorage = None
  /\ mount "2024-01-05" [("theme", JsonText (JStr "dark"))]
     = Some (emptyState "2024-01-05").
Proof.
  destruct loadData_edges as [Hdefault [Hthrows Hempty]].
  split; [|split].
  - apply Hdefault. left; reflexivity.
  - apply (Hthrows brokenStorage "2024-01-05"). right; left; reflexivity.
  - apply Hempty; reflexivity.
Defined.


(** X4. For every state the exported backup passes the check of the
    import: once confirmed, the three setters receive the exported arrays
    and the success alert is shown.  When every amount and every opening
    balance is finite, the import replaces the collections of whatever
    state it is made in by the exported companies, customers and
    transactions, a negative zero read back as [0].  When an amount or an
    opening balance is [NaN] or infinite, the setters receive a record
    with [null] in its place, still under the success alert, and what is
    stored is no collection of the declared types. *)
Theorem import_of_any_export (st st0 : AppState) (exportedAt : string) :
  reader_onload (Some (handleExportBackup exportedAt st)) true
  = mkEffect (Some (JArr (map encodeCompany (companies st)),
                    JArr (map encodeCustomer (customers st)),
                    JArr (map encodeTransaction (transactions st))))
      (Some BackupRestored)
  /\ (finiteNumbers st ->
      handleImportBackup (Some (handleExportBackup exportedAt st)) true st0
      = Some (setTransactions (map restoredTransaction (transactions st))
                (setCustomers (map restoredCustomer (customers st))
                   (setCompanies (companies st) st0))))
  /\ (forall t, In t (transactions st) ->
        is_finite (Transaction.amount t) = false ->
        prop (encodeTransaction t) "amount" = JNull
        /\ handleImportBackup (Some (handleExportBackup exportedAt st)) true st0 = None)
  /\ (forall c, In c (customers st) ->
        is_finite (Customer.openingBalance c) = false ->
        prop (encodeCustomer c) "openingBalance" = JNull
        /\ handleImportBackup (Some (handleExportBackup exportedAt st)) true st0 = None).
Proof.
  split; [reflexivity|]. split; [apply import_export_restored|].
  split.
  - intros t Hin Hf. split.
    + destruct t as [id cid date desc ty amount]. cbn [Transaction.amount] in Hf.
      unfold encodeTransaction, encodeNumber.
      cbn [prop assoc String.eqb Ascii.eqb Bool.eqb Transaction.amount].
      now rewrite Hf.
    + unfold handleImportBackup, applyImport.
      rewrite reader_onload_export. cbn [setterArgs]. unfold readArray.
      rewrite readCompanies_encoded. cbn [bind].
      rewrite (readAll_lost encodeTransaction readTransaction _ t Hin
                 (readTransaction_lost t Hf)).
      apply bind_none.
  - intros c Hin Hf. split.
    + destruct c as [id coid name phone address opening].
      cbn [Customer.openingBalance] in Hf.
      unfold encodeCustomer, encodeNumber.
      cbn [prop assoc String.eqb Ascii.eqb Bool.eqb Customer.openingBalance].
      now rewrite Hf.
    + unfold handleImportBackup, applyImport.
      rewrite reader_onload_export. cbn [setterArgs]. unfold readArray.
      rewrite readCompanies_encoded. cbn [bind].
      now rewrite (readAll_lost encodeCustomer readCustomer _ c Hin
                     (readCustomer_lost c Hf)).
Qed.

Lemma import_of_any_export_witness :
  handleImportBackup
    (Some (handleExportBackup "2024-01-05T00:00:00.000Z" fractionsState)) true
    initialState
  = Some (setTransactions tenths
            (setCustomers [demoCustomer (Number "1000.5")]
               (setCompanies [demoCompany] initialState))).
Proof.
  destruct (import_of_any_export fractionsState initialState
              "2024-01-05T00:00:00.000Z") as [_ [H _]].
  rewrite H; [vm_compute; reflexivity|].
  split; repeat constructor.
Defined.

(** X5. An import never touches anything but the three collections: the
    selected company and customer, the modals and the forms stay as they
    were (so a selection can outlive its record).  When it replaces the
    collections, the new ones are those of the file alone, whatever the
    state before, and importing the same file once more changes nothing. *)
Theorem import_touches_collections_only
    (parsed : option json) (confirmed : bool) (st st' : AppState) :
  handleImportBackup parsed confirmed st = Some st' ->
  selectedCompanyId st' = selectedCompanyId st
  /\ selectedCustomerId st' = selectedCustomerId st
  /\ isCompanyModalOpen st' = isCompanyModalOpen st
  /\ isCustomerModalOpen st' = isCustomerModalOpen st
  /\ isTransactionModalOpen st' = isTransactionModalOpen st
  /\ companyForm st' = companyForm st
  /\ customerForm st' = customerForm st
  /\ txForm st' = txForm st
  /\ (setterArgs (reader_onload parsed confirmed) <> None ->
      forall other other',
        handleImportBackup parsed confirmed other = Some other' ->
        companies other' = companies st'
        /\ customers other' = customers st'
        /\ transactions other' = transactions st')
  /\ handleImportBackup parsed confirmed st' = Some st'.
Proof.
  unfold handleImportBackup, applyImport.
  destruct (setterArgs (reader_onload parsed confirmed)) as [[[cs cus] txs]|].
  - unfold bind.
    destruct (readArray readCompany cs) as [companies'|]; [|discriminate].
    destruct (readArray readCustomer cus) as [customers'|]; [|discriminate].
    destruct (readArray readTransaction txs) as [transactions'|]; [|discriminate].
    intros H. inversion H. subst st'.
    do 8 (split; [reflexivity|]).
    split; [|reflexivity].
    intros _ other other' Hother. inversion Hother. repeat split; reflexivity.
  - intros H. inversion H. subst st'.
    do 8 (split; [reflexivity|]).
    split; [|reflexivity].
    intros Habs. now elim Habs.
Qed.

Lemma import_touches_collections_only_witness :
  exists st',
    handleImportBackup
      (Some (handleExportBackup "2024-01-05T00:00:00.000Z" initialState)) true
      (demoState (Num 1000) scenarioA) = Some st'
    /\ selectedCustomerId st' = Some "c1"
    /\ customers st' = [].
Proof.
  pose proof (import_export_restored initialState (demoState (Num 1000) scenarioA)
                "2024-01-05T00:00:00.000Z" (conj (Forall_nil _) (Forall_nil _)))
    as Himport.
  eexists. split; [exact Himport|].
  split.
  - apply (import_touches_collections_only _ _ _ _ Himport).
  - reflexivity.
Defined.



(** ** Identifiers *)

Lemma ids_snoc (ids : list string) (g : string) :
  NoDup ids -> ~ In g ids -> NoDup (ids ++ [g]).
Proof.
  induction ids as [|i ids IH]; intros Hnd Hfresh; simpl.
  - constructor; [intros [] | constructor].
  - apply NoDup_cons_iff in Hnd. destruct Hnd as [Hi Hnd].
    constructor.
    + intros Hin. apply in_app_or in Hin. destruct Hin as [Hin|[Heq|[]]].
      * now apply Hi.
      * apply Hfresh. left. now symmetry.
    + apply IH; [exact Hnd|]. intros Hin. apply Hfresh. now right.
Qed.

Lemma ids_snoc_collision (ids : list string) (g : string) :
  In g ids -> ~ NoDup (ids ++ [g]).
Proof.
  intros Hin Hnd. apply in_split in Hin. destruct Hin as [l1 [l2 ->]].
  rewrite <- app_assoc in Hnd. simpl in Hnd.
  apply NoDup_remove_2 in Hnd. apply Hnd.
  apply in_or_app. right. apply in_or_app. right. now left.
Qed.

Lemma kept_ids_unique (id : string) (txs : list Transaction.t) :
  NoDup (map Transaction.id txs) ->
  NoDup (map Transaction.id (filter (keeps id) txs)).
Proof.
  intros Hnd. induction txs as [|t txs IH]; [exact Hnd|].
  apply NoDup_cons_iff in Hnd. destruct Hnd as [Hfresh Hnd].
  cbn [filter]. destruct (keeps id t); [|exact (IH Hnd)].
  apply NoDup_cons; [|exact (IH Hnd)].
  intros Hin. apply in_map_iff in Hin. destruct Hin as [x [Hid Hx]].
  apply filter_In in Hx. apply Hfresh.
  rewrite <- Hid. apply in_map, Hx.
Qed.

(** X6. The add handlers trust [generateId]: with an identifier that the
    collection does not hold yet, unique ids stay unique, and a deletion
    keeps them unique; with an identifier that a company already has, the
    company is added all the same and the ids are unique no more. *)
Theorem ids_stay_unique (st : AppState) :
  (forall generateId,
      NoDup (map Company.id (companies st)) ->
      ~ In generateId (map Company.id (companies st)) ->
      NoDup (map Company.id (companies (handleAddCompany generateId st))))
  /\ (forall generateId,
      NoDup (map Customer.id (customers st)) ->
      ~ In generateId (map Customer.id (customers st)) ->
      NoDup (map Customer.id (customers (handleAddCustomer generateId st))))
  /\ (forall generateId today,
      NoDup (map Transaction.id (transactions st)) ->
      ~ In generateId (map Transaction.id (transactions st)) ->
      NoDup (map Transaction.id
               (transactions (handleAddTransaction generateId today st))))
  /\ (forall id confirmed,
      NoDup (map Transaction.id (transactions st)) ->
      NoDup (map Transaction.id (transactions (deleteTransaction id confirmed st))))
  /\ (forall generateId,
      CompanyForm.name (companyForm st) <> EmptyString ->
      In generateId (map Company.id (companies st)) ->
      ~ NoDup (map Company.id (companies (handleAddCompany generateId st)))).
Proof.
  split; [|split; [|split; [|split]]].
  - intros g Hnd Hfresh. unfold handleAddCompany.
    destruct (negb _); [exact Hnd|].
    cbn [companies setIsCompanyModalOpen setCompanyForm setCompanies].
    rewrite map_app. now apply ids_snoc.
  - intros g Hnd Hfresh. unfold handleAddCustomer.
    destruct (selectedCompanyId st) as [selected|]; [|exact Hnd].
    destruct (_ || _); [exact Hnd|].
    cbn [customers setIsCustomerModalOpen setCustomerForm setCustomers].
    rewrite map_app. now apply ids_snoc.
  - intros g today Hnd Hfresh. unfold handleAddTransaction.
    destruct (selectedCustomerId st) as [selected|]; [|exact Hnd].
    destruct (_ || _); [exact Hnd|].
    cbn [transactions setIsTransactionModalOpen setTxForm setTransactions].
    rewrite map_app. now apply ids_snoc.
  - intros id confirmed Hnd. unfold deleteTransaction.
    destruct confirmed; [|exact Hnd].
    cbn [transactions setTransactions]. apply (kept_ids_unique id), Hnd.
  - intros g Hname Hin.
    rewrite (handleAddCompany_accepts g st Hname).
    cbn [companies setIsCompanyModalOpen setCompanyForm setCompanies].
    rewrite map_app. now apply ids_snoc_collision.
Qed.

Lemma ids_stay_unique_witness :
  NoDup (map Transaction.id
           (transactions (handleAddTransaction "t3" "2024-01-05"
                            (enterTx "2024-01-03" CREDIT "10"
                               (demoState (Num 1000) scenarioA)))))
  /\ ~ NoDup (map Company.id
                (companies (handleAddCompany "co1"
                              (demoForms (demoState (Num 1000) scenarioA) "10")))).
Proof.
  split.
  - apply (ids_stay_unique (enterTx "2024-01-03" CREDIT "10"
                              (demoState (Num 1000) scenarioA))).
    + repeat constructor; simpl; intuition discriminate.
    + simpl; intuition discriminate.
  - apply (ids_stay_unique (demoForms (demoState (Num 1000) scenarioA) "10")).
    + discriminate.
    + left; reflexivity.
Defined.

(** ** Adding and deleting *)

Lemma filter_keeps_twice (id : string) (l : list Transaction.t) :
  filter (keeps id) (filter (keeps id) l) = filter (keeps id) l.
Proof.
  induction l as [|t l IH]; [reflexivity|]. cbn [filter].
  destruct (keeps id t) eqn:Hk; [|exact IH].
  cbn [filter]. now rewrite Hk, IH.
Qed.

Lemma filter_keeps_swap (a b : string) (l : list Transaction.t) :
  filter (keeps a) (filter (keeps b) l) = filter (keeps b) (filter (keeps a) l).
Proof.
  induction l as [|t l IH]; [reflexivity|]. cbn [filter].
  destruct (keeps a t) eqn:Ha, (keeps b t) eqn:Hb; cbn [filter];
    rewrite ?Ha, ?Hb, IH; reflexivity.
Qed.

(** X7. Deleting the transaction that was just added, under an id no
    other transaction has, gives back the transactions as they were before
    the addition, and with them the statistics; companies and customers
    are the same. *)
Theorem add_then_delete (generateId today : string) (st : AppState) :
  ~ In generateId (map Transaction.id (transactions st)) ->
  let st' := deleteTransaction generateId true
               (handleAddTransaction generateId today st) in
  transactions st' = transactions st
  /\ companies st' = companies st
  /\ customers st' = customers st
  /\ stats st' = stats st.
Proof.
  intros Hfresh st'.
  assert (Hkeep : filter (keeps generateId) (transactions st) = transactions st).
  { apply filter_keeps_all. intros x Hx Heq. apply Hfresh.
    rewrite <- Heq. now apply in_map. }
  assert (Htx : transactions st' = transactions st).
  { subst st'. unfold deleteTransaction, handleAddTransaction. fold (keeps generateId).
    destruct (selectedCustomerId st) as [selected|]; [|exact Hkeep].
    destruct (_ || _); [exact Hkeep|].
    cbn [transactions setIsTransactionModalOpen setTxForm setTransactions].
    rewrite filter_app, Hkeep. cbn [filter]. unfold keeps at 1.
    cbn [Transaction.id]. rewrite String.eqb_refl. cbn [negb]. apply app_nil_r. }
  assert (Hco : companies st' = companies st).
  { subst st'. unfold deleteTransaction, handleAddTransaction.
    destruct (selectedCustomerId st); [destruct (_ || _)|]; reflexivity. }
  assert (Hcu : customers st' = customers st).
  { subst st'. unfold deleteTransaction, handleAddTransaction.
    destruct (selectedCustomerId st); [destruct (_ || _)|]; reflexivity. }
  repeat split; try assumption.
  unfold stats. now rewrite Htx, Hco, Hcu.
Qed.

Lemma add_then_delete_witness :
  transactions
    (deleteTransaction "t3" true
       (handleAddTransaction "t3" "2024-01-05"
          (enterTx "2024-01-03" CREDIT "10" (demoState (Num 1000) scenarioA))))
  = scenarioA.
Proof.
  apply (add_then_delete "t3" "2024-01-05"
           (enterTx "2024-01-03" CREDIT "10" (demoState (Num 1000) scenarioA))).
  simpl; intuition discriminate.
Defined.

(** X8. Deleting the same id twice is deleting it once, two deletions can
    be made in either order, and a confirmed deletion leaves exactly the
    transactions with another id: with duplicate ids it removes them
    all. *)
Theorem deleteTransaction_algebra (a b : string) (ca cb : bool) (st : AppState) :
  deleteTransaction a ca (deleteTransaction a ca st) = deleteTransaction a ca st
  /\ deleteTransaction a ca (deleteTransaction b cb st)
     = deleteTransaction b cb (deleteTransaction a ca st)
  /\ (forall t,
         In t (transactions (deleteTransaction a true st))
         <-> In t (transactions st) /\ Transaction.id t <> a).
Proof.
  split; [|split].
  - unfold deleteTransaction. destruct ca; [|reflexivity].
    fold (keeps a). unfold setTransactions. cbn [transactions companies customers
      selectedCompanyId selectedCustomerId isCompanyModalOpen isCustomerModalOpen
      isTransactionModalOpen companyForm customerForm txForm].
    now rewrite filter_keeps_twice.
  - unfold deleteTransaction. destruct ca, cb; try reflexivity.
    fold (keeps a) (keeps b). unfold setTransactions. cbn [transactions companies
      customers selectedCompanyId selectedCustomerId isCompanyModalOpen
      isCustomerModalOpen isTransactionModalOpen companyForm customerForm txForm].
    now rewrite filter_keeps_swap.
  - intros t. unfold deleteTransaction. cbn [transactions setTransactions].
    rewrite filter_In.
    destruct (String.eqb_spec (Transaction.id t) a) as [Heq|Hne]; cbn [negb];
      intuition congruence.
Qed.

(** ** What an id resolves to *)

Lemma find_snoc {A : Type} (p : A -> bool) (l : list A) (a : A) :
  find p (l ++ [a])
  = match find p l with
    | Some x => Some x
    | None => if p a then Some a else None
    end.
Proof.
  induction l as [|x l IH]; simpl; [reflexivity|].
  destruct (p x); [reflexivity | exact IH].
Qed.

Lemma find_none_fresh (g : string) (l : list Company.t) :
  ~ In g (map Company.id l) ->
  find (fun c => String.eqb (Company.id c) g) l = None.
Proof.
  induction l as [|x l IH]; intros Hfresh; simpl; [reflexivity|].
  destruct (String.eqb_spec (Company.id x) g) as [Heq|_].
  - exfalso. apply Hfresh. now left.
  - apply IH. intros Hin. apply Hfresh. now right.
Qed.

(** X9. Adding a record never changes what a selection resolves to: the
    selected company and the selected customer are found as before.  The
    company just added is found under its id when that id is new; when
    another company has the id already, the older one is found and the new
    one never is. *)
Theorem older_record_wins (generateId : string) (st : AppState) :
  (forall c, currentCompany st = Some c ->
             currentCompany (handleAddCompany generateId st) = Some c)
  /\ (forall c, currentCustomer st = Some c ->
                currentCustomer (handleAddCustomer generateId st) = Some c)
  /\ (CompanyForm.name (companyForm st) <> EmptyString ->
      ~ In generateId (map Company.id (companies st)) ->
      currentCompany (setSelectedCompanyId (Some generateId)
                        (handleAddCompany generateId st))
      = Some (Company.mk generateId
                (CompanyForm.name (companyForm st))
                (CompanyForm.address (companyForm st))
                (Some (CompanyForm.gst (companyForm st)))
                (CompanyForm.fy (companyForm st))))
  /\ (In generateId (map Company.id (companies st)) ->
      exists older,
        In older (companies st)
        /\ currentCompany (setSelectedCompanyId (Some generateId)
                             (handleAddCompany generateId st))
           = Some older).
Proof.
  split; [|split; [|split]].
  - intros c Hc. unfold handleAddCompany.
    destruct (negb _); [exact Hc|].
    unfold currentCompany in *.
    cbn [companies selectedCompanyId setIsCompanyModalOpen setCompanyForm setCompanies].
    rewrite find_snoc. now rewrite Hc.
  - intros c Hc. unfold handleAddCustomer.
    destruct (selectedCompanyId st) as [selected|]; [|exact Hc].
    destruct (_ || _); [exact Hc|].
    unfold currentCustomer in *.
    cbn [customers selectedCustomerId setIsCustomerModalOpen setCustomerForm
         setCustomers].
    rewrite find_snoc. now rewrite Hc.
  - intros Hname Hfresh.
    rewrite (handleAddCompany_accepts generateId st Hname).
    unfold currentCompany.
    cbn [companies selectedCompanyId setSelectedCompanyId setIsCompanyModalOpen
         setCompanyForm setCompanies strictEq].
    rewrite find_snoc, (find_none_fresh generateId _ Hfresh).
    cbn [Company.id]. now rewrite String.eqb_refl.
  - intros Hin.
    assert (Hfound : exists older,
               find (fun c => String.eqb (Company.id c) generateId) (companies st)
               = Some older).
    { apply in_map_iff in Hin. destruct Hin as [x [Hid Hx]].
      destruct (find (fun c => String.eqb (Company.id c) generateId) (companies st))
        as [older|] eqn:Hfind; [now exists older|].
      exfalso. apply (find_none _ _ Hfind) in Hx.
      rewrite Hid, String.eqb_refl in Hx. discriminate. }
    destruct Hfound as [older Hfind]. exists older.
    split; [apply (find_some _ _ Hfind)|].
    unfold currentCompany, handleAddCompany.
    destruct (negb _);
      cbn [companies selectedCompanyId setSelectedCompanyId setIsCompanyModalOpen
           setCompanyForm setCompanies strictEq];
      [exact Hfind|].
    rewrite find_snoc. now rewrite Hfind.
Qed.

Lemma older_record_wins_witness :
  currentCustomer (handleAddCustomer "c1" (demoForms (demoState (Num 1000) []) "10"))
  = Some (demoCustomer (Num 1000))
  /\ currentCompany (setSelectedCompanyId (Some "co2")
                       (handleAddCompany "co2" (demoForms (demoState (Num 1000) []) "10")))
     = Some (Company.mk "co2" "Acme Corp" "123 Street" (Some "") "2024-25")
  /\ exists older,
      In older [demoCompany]
      /\ currentCompany (setSelectedCompanyId (Some "co1")
                           (handleAddCompany "co1"
                              (demoForms (demoState (Num 1000) []) "10")))
         = Some older.
Proof.
  split; [|split].
  - apply (older_record_wins "c1" (demoForms (demoState (Num 1000) []) "10")).
    reflexivity.
  - apply (older_record_wins "co2" (demoForms (demoState (Num 1000) []) "10")).
    + discriminate.
    + simpl; intuition discriminate.
  - apply (older_record_wins "co1" (demoForms (demoState (Num 1000) []) "10")).
    left; reflexivity.
Defined.


(** ** The customers tab *)

(** X10. The customers tab shows the customers of the selected company
    and only those.  A customer that is added appears last on the tab of
    the company it was added under, and on the tab of no other company. *)
Theorem customers_tab (generateId : string) (st : AppState) :
  Forall (fun c => selectedCompanyId st = Some (Customer.companyId c))
    (companyCustomers st)
  /\ (forall selected,
      selectedCompanyId st = Some selected ->
      selected <> EmptyString ->
      CustomerForm.name (customerForm st) <> EmptyString ->
      companyCustomers (handleAddCustomer generateId st)
      = companyCustomers st
        ++ [Customer.mk generateId selected
              (CustomerForm.name (customerForm st)) (CustomerForm.phone (customerForm st))
              EmptyString
              (orZero (Number (CustomerForm.openingBalance (customerForm st))))]
      /\ forall other,
           other <> selected ->
           companyCustomers (setSelectedCompanyId (Some other)
                               (handleAddCustomer generateId st))
           = companyCustomers (setSelectedCompanyId (Some other) st)).
Proof.
  split.
  - apply Forall_forall. intros c Hc. unfold companyCustomers in Hc.
    apply filter_In in Hc. destruct Hc as [_ Hc]. unfold strictEq in Hc.
    destruct (selectedCompanyId st) as [s|]; [|discriminate].
    apply String.eqb_eq in Hc. now subst.
  - intros selected Hsel Hne Hname.
    rewrite (handleAddCustomer_accepts generateId selected st Hsel Hne Hname).
    unfold companyCustomers.
    cbn [customers selectedCompanyId setSelectedCompanyId setIsCustomerModalOpen
         setCustomerForm setCustomers].
    split.
    + rewrite filter_app. cbn [filter Customer.companyId].
      rewrite Hsel. cbn [strictEq]. now rewrite String.eqb_refl.
    + intros other Hother. rewrite filter_app.
      cbn [filter Customer.companyId strictEq].
      destruct (String.eqb_spec selected other) as [Heq|_]; [congruence|].
      apply app_nil_r.
Qed.

Lemma customers_tab_witness :
  companyCustomers
    (handleAddCustomer "c3"
       (setCustomerForm (CustomerForm.mk "Asha" "98" "1000.50") twoCustomers))
  = [ demoCustomer (Num 1000); Customer.mk "c3" "co1" "Asha" "98" "" 1000.5%float ]
  /\ companyCustomers
       (setSelectedCompanyId (Some "co2")
          (handleAddCustomer "c3"
             (setCustomerForm (CustomerForm.mk "Asha" "98" "1000.50") twoCustomers)))
     = [ Customer.mk "c2" "co2" "Ravi" "" "" (Num 0) ].
Proof.
  destruct (proj2 (customers_tab "c3"
                     (setCustomerForm (CustomerForm.mk "Asha" "98" "1000.50")
                        twoCustomers)) "co1")
    as [Hown Hother]; [reflexivity | discriminate | discriminate |].
  split.
  - rewrite Hown. vm_compute. reflexivity.
  - rewrite (Hother "co2"); [reflexivity | discriminate].
Defined.

(** ** Balances and totals after a change *)

Lemma sumAmounts_snoc (ty : TransactionType) (l : list Transaction.t) (t : Transaction.t) :
  sumAmounts ty (l ++ [t])
  = match Transaction.type t, ty with
    | DEBIT, DEBIT | CREDIT, CREDIT => add (sumAmounts ty l) (Transaction.amount t)
    | _, _ => sumAmounts ty l
    end.
Proof.
  unfold sumAmounts. rewrite sumFrom_app. cbn [sumFrom].
  destruct (Transaction.type t), ty; reflexivity.
Qed.

Lemma transactionsOf_snoc (cid : string) (l : list Transaction.t) (t : Transaction.t) :
  transactionsOf cid (l ++ [t])
  = transactionsOf cid l
    ++ (if String.eqb (Transaction.customerId t) cid then [t] else []).
Proof. unfold transactionsOf. now rewrite filter_app. Qed.

Lemma netZ_app (l1 l2 : list Transaction.t) : netZ (l1 ++ l2) = netZ l1 + netZ l2.
Proof. unfold netZ. rewrite !totalZ_app. lia. Qed.

Lemma netZ_bound (l : list Transaction.t) : Z.abs (netZ l) <= magnitude l.
Proof. pose proof (totals_bound l). unfold netZ. lia. Qed.

Lemma netZ_one (t : Transaction.t) :
  netZ [t] = match Transaction.type t with
             | CREDIT => amountZ t
             | DEBIT => - amountZ t
             end.
Proof. rewrite netZ_cons. unfold netZ. cbn [totalZ]. destruct (Transaction.type t); lia. Qed.

Lemma balanceAfter_exact (a : Z) (t : Transaction.t) :
  whole (Transaction.amount t) ->
  Z.abs a + Z.abs (amountZ t) < 2 ^ 53 ->
  balanceAfter (Num a) t = Num (a + netZ [t]).
Proof.
  intros Hw Hb. rewrite <- applyTx_balanceAfter, applyTx_exact by assumption.
  rewrite netZ_one. f_equal. destruct (Transaction.type t); lia.
Qed.

Lemma exact_app (opening : number) (l1 l2 : list Transaction.t) :
  exact opening (l1 ++ l2) -> exact opening l1 /\ exact opening l2.
Proof.
  intros [Ho [Hw Hb]]. apply Forall_app in Hw. destruct Hw as [Hw1 Hw2].
  rewrite magnitude_app in Hb.
  pose proof (magnitude_nonneg l1). pose proof (magnitude_nonneg l2).
  split; (split; [exact Ho|]; split; [assumption|]; lia).
Qed.

Lemma balanceOver_snoc_exact (opening : number) (l : list Transaction.t)
    (t : Transaction.t) :
  exact opening (l ++ [t]) ->
  balanceOver opening (l ++ [t]) = balanceAfter (balanceOver opening l) t.
Proof.
  intros Hex. destruct (exact_app _ _ _ Hex) as [Hl _].
  rewrite (balanceOver_exact _ _ Hex), (balanceOver_exact _ _ Hl).
  destruct Hex as [_ [Hw Hb]]. apply Forall_app in Hw. destruct Hw as [_ Hw].
  inversion Hw as [|? ? Hwt _]; subst.
  rewrite magnitude_app in Hb. cbn [magnitude] in Hb.
  pose proof (netZ_bound l).
  rewrite balanceAfter_exact by (assumption || lia).
  now rewrite netZ_app, Z.add_assoc.
Qed.

(** X11. An accepted transaction does not move the card balance of any
    customer but the one it was entered for.  For that customer it is
    counted in at the end of the credits or of the debits: the card
    balance is the opening balance plus the credits, the new one added
    last, minus the debits (or minus the debits with the new one added
    last).  On whole amounts that add up exactly the card balance moves by
    the amount, up for a CREDIT and down for a DEBIT. *)
Theorem bal_after_add (generateId today selected : string) (st : AppState) :
  selectedCustomerId st = Some selected ->
  selected <> EmptyString ->
  TxForm.amount (txForm st) <> EmptyString ->
  let st' := handleAddTransaction generateId today st in
  let amount := Number (TxForm.amount (txForm st)) in
  let added := Transaction.mk generateId selected (TxForm.date (txForm st))
                 (TxForm.desc (txForm st)) (TxForm.type (txForm st)) amount in
  forall c,
    let mine := transactionsOf (Customer.id c) (transactions st) in
    (selected <> Customer.id c -> bal (transactions st') c = bal (transactions st) c)
    /\ (selected = Customer.id c ->
        bal (transactions st') c
        = match TxForm.type (txForm st) with
          | CREDIT =>
              sub (add (Customer.openingBalance c) (add (sumAmounts CREDIT mine) amount))
                (sumAmounts DEBIT mine)
          | DEBIT =>
              sub (add (Customer.openingBalance c) (sumAmounts CREDIT mine))
                (add (sumAmounts DEBIT mine) amount)
          end)
    /\ (selected = Customer.id c ->
        exact (Customer.openingBalance c) (mine ++ [added]) ->
        bal (transactions st') c = balanceAfter (bal (transactions st) c) added).
Proof.
  intros Hsel Hne Hamount st' amount added c mine. subst st'.
  rewrite (handleAddTransaction_accepts generateId today selected st Hsel Hne Hamount).
  cbn [transactions setIsTransactionModalOpen setTxForm setTransactions].
  fold amount. fold added.
  rewrite !bal_balanceOver, transactionsOf_snoc. fold mine.
  change (Transaction.customerId added) with selected.
  split; [|split].
  - intros Hother.
    destruct (String.eqb_spec selected (Customer.id c)) as [Heq|_]; [congruence|].
    now rewrite app_nil_r.
  - intros ->. rewrite String.eqb_refl. unfold balanceOver.
    rewrite !sumAmounts_snoc. change (Transaction.type added) with (TxForm.type (txForm st)).
    destruct (TxForm.type (txForm st)); reflexivity.
  - intros -> Hex. rewrite String.eqb_refl. now apply balanceOver_snoc_exact.
Qed.

Lemma bal_after_add_witness :
  bal (transactions (handleAddTransaction "t3" "2024-01-05"
                       (enterTx "2024-01-03" DEBIT "300" twoCustomers)))
    (demoCustomer (Num 1000)) = Num 1150
  /\ bal (transactions (handleAddTransaction "t3" "2024-01-05"
                          (enterTx "2024-01-03" DEBIT "300" twoCustomers)))
       (Customer.mk "c2" "co2" "Ravi" "" "" (Num 0)) = Num (-200).
Proof.
  pose proof (bal_after_add "t3" "2024-01-05" "c1"
                (enterTx "2024-01-03" DEBIT "300" twoCustomers)
                eq_refl ltac:(discriminate) ltac:(discriminate)) as H.
  cbv zeta in H. split.
  - destruct (H (demoCustomer (Num 1000))) as [_ [_ Hmoves]].
    rewrite Hmoves; [vm_compute; reflexivity | reflexivity |].
    split; [reflexivity|]. split; [repeat constructor | vm_compute; reflexivity].
  - destruct (H (Customer.mk "c2" "co2" "Ravi" "" "" (Num 0))) as [Hother _].
    rewrite Hother; [vm_compute; reflexivity | discriminate].
Defined.

Lemma stats_sums (st : AppState) :
  DashboardStats.totalDebit (stats st) = sumAmounts DEBIT (transactions st)
  /\ DashboardStats.totalCredit (stats st) = sumAmounts CREDIT (transactions st)
  /\ DashboardStats.totalBalance (stats st)
     = sub (sumAmounts CREDIT (transactions st)) (sumAmounts DEBIT (transactions st)).
Proof.
  unfold stats; cbn [DashboardStats.totalDebit DashboardStats.totalCredit
                     DashboardStats.totalBalance].
  rewrite !reduce_filter_sumAmounts. repeat split.
Qed.

Lemma stats_exact (st : AppState) :
  exact (Num 0) (transactions st) ->
  DashboardStats.totalDebit (stats st) = Num (totalZ DEBIT (transactions st))
  /\ DashboardStats.totalCredit (stats st) = Num (totalZ CREDIT (transactions st))
  /\ DashboardStats.totalBalance (stats st) = Num (netZ (transactions st)).
Proof.
  intros Hex. destruct (stats_sums st) as [-> [-> ->]].
  rewrite !sumAmounts_exact by exact Hex.
  split; [reflexivity|]. split; [reflexivity|].
  destruct Hex as [_ [_ Hb]]. rewrite toZ_Num in Hb by (cbn; lia).
  pose proof (totals_bound (transactions st)).
  cbn [Z.abs] in Hb. apply sub_Num; lia.
Qed.

Lemma exact_zero_bound (l : list Transaction.t) :
  exact (Num 0) l -> magnitude l < 2 ^ 53.
Proof.
  intros [_ [_ Hb]]. rewrite toZ_Num in Hb by (cbn; lia). cbn [Z.abs] in Hb. lia.
Qed.

(** X12. The statistics follow every change of the transactions.  An
    accepted CREDIT is added to [totalCredit] and an accepted DEBIT to
    [totalDebit], after all the others; the other total and the two counts
    stay.  On whole amounts that add up exactly [totalBalance] moves up or
    down by the amount, and a confirmed deletion of a transaction (ids
    unique) takes exactly its amount off the same totals again. *)
Theorem stats_follow_changes (st : AppState) :
  (forall generateId today selected,
      selectedCustomerId st = Some selected ->
      selected <> EmptyString ->
      TxForm.amount (txForm st) <> EmptyString ->
      let st' := handleAddTransaction generateId today st in
      let amount := Number (TxForm.amount (txForm st)) in
      let added := Transaction.mk generateId selected (TxForm.date (txForm st))
                     (TxForm.desc (txForm st)) (TxForm.type (txForm st)) amount in
      match TxForm.type (txForm st) with
      | CREDIT =>
          DashboardStats.totalCredit (stats st')
          = add (DashboardStats.totalCredit (stats st)) amount
          /\ DashboardStats.totalDebit (stats st') = DashboardStats.totalDebit (stats st)
          /\ (exact (Num 0) (transactions st ++ [added]) ->
              DashboardStats.totalBalance (stats st')
              = add (DashboardStats.totalBalance (stats st)) amount)
      | DEBIT =>
          DashboardStats.totalDebit (stats st')
          = add (DashboardStats.totalDebit (stats st)) amount
          /\ DashboardStats.totalCredit (stats st') = DashboardStats.totalCredit (stats st)
          /\ (exact (Num 0) (transactions st ++ [added]) ->
              DashboardStats.totalBalance (stats st')
              = sub (DashboardStats.totalBalance (stats st)) amount)
      end
      /\ DashboardStats.activeCompanies (stats st')
         = DashboardStats.activeCompanies (stats st)
      /\ DashboardStats.activeCustomers (stats st')
         = DashboardStats.activeCustomers (stats st))
  /\ (forall t,
      NoDup (map Transaction.id (transactions st)) ->
      In t (transactions st) ->
      exact (Num 0) (transactions st) ->
      let st' := deleteTransaction (Transaction.id t) true st in
      match Transaction.type t with
      | CREDIT =>
          DashboardStats.totalCredit (stats st')
          = sub (DashboardStats.totalCredit (stats st)) (Transaction.amount t)
          /\ DashboardStats.totalDebit (stats st') = DashboardStats.totalDebit (stats st)
          /\ DashboardStats.totalBalance (stats st')
             = sub (DashboardStats.totalBalance (stats st)) (Transaction.amount t)
      | DEBIT =>
          DashboardStats.totalDebit (stats st')
          = sub (DashboardStats.totalDebit (stats st)) (Transaction.amount t)
          /\ DashboardStats.totalCredit (stats st') = DashboardStats.totalCredit (stats st)
          /\ DashboardStats.totalBalance (stats st')
             = add (DashboardStats.totalBalance (stats st)) (Transaction.amount t)
      end).
Proof.
  split.
  - intros generateId today selected Hsel Hne Hamount st' amount added.
    assert (Htx : transactions st' = transactions st ++ [added]).
    { subst st'.
      now rewrite (handleAddTransaction_accepts generateId today selected st
                     Hsel Hne Hamount). }
    assert (Hco : companies st' = companies st).
    { subst st'.
      now rewrite (handleAddTransaction_accepts generateId today selected st
                     Hsel Hne Hamount). }
    assert (Hcu : customers st' = customers st).
    { subst st'.
      now rewrite (handleAddTransaction_accepts generateId today selected st
                     Hsel Hne Hamount). }
    split; [|unfold stats; cbn [DashboardStats.activeCompanies
                                 DashboardStats.activeCustomers];
             now rewrite Hco, Hcu].
    destruct (stats_sums st') as [Hd' [Hc' _]].
    destruct (stats_sums st) as [Hd [Hc _]].
    rewrite Hd', Hc', Hd, Hc, Htx, !sumAmounts_snoc.
    change (Transaction.type added) with (TxForm.type (txForm st)).
    change (Transaction.amount added) with amount.
    assert (Hbal : exact (Num 0) (transactions st ++ [added]) ->
                   DashboardStats.totalBalance (stats st')
                   = Num (netZ (transactions st) + netZ [added])
                   /\ DashboardStats.totalBalance (stats st)
                      = Num (netZ (transactions st))
                   /\ amount = Num (amountZ added)
                   /\ magnitude (transactions st) + Z.abs (amountZ added) < 2 ^ 53).
    { intros Hex. destruct (exact_app _ _ _ Hex) as [Hold _].
      destruct (stats_exact st Hold) as [_ [_ ->]].
      destruct (stats_exact st') as [_ [_ ->]]; [now rewrite Htx|].
      rewrite Htx, netZ_app.
      pose proof (exact_zero_bound _ Hex) as Hb.
      rewrite magnitude_app in Hb. cbn [magnitude] in Hb.
      destruct Hex as [_ [Hw _]]. apply Forall_app in Hw. destruct Hw as [_ Hw].
      inversion Hw as [|? ? Hwt _]; subst.
      repeat split; [exact Hwt | lia]. }
    pose proof (netZ_bound (transactions st)) as Hnet.
    pose proof (netZ_one added) as Hone.
    change (Transaction.type added) with (TxForm.type (txForm st)) in Hone.
    destruct (TxForm.type (txForm st)).
    + split; [reflexivity|]. split; [reflexivity|].
      intros Hex. destruct (Hbal Hex) as [-> [-> [Ha Hb]]].
      rewrite Ha, Hone, sub_Num by lia. f_equal; lia.
    + split; [reflexivity|]. split; [reflexivity|].
      intros Hex. destruct (Hbal Hex) as [-> [-> [Ha Hb]]].
      rewrite Ha, Hone, add_Num by lia. reflexivity.
  - intros t Hnd Hin Hex st'.
    destruct (in_split _ _ Hin) as [before [after Hsplit]].
    assert (Hkept : transactions st' = before ++ after).
    { subst st'. unfold deleteTransaction. fold (keeps (Transaction.id t)).
      cbn [transactions setTransactions].
      rewrite Hsplit. apply filter_keeps_split. now rewrite <- Hsplit. }
    assert (Hex' : exact (Num 0) (transactions st')).
    { rewrite Hkept. rewrite Hsplit in Hex.
      eapply exact_Permutation in Hex; [|apply Permutation_sym, Permutation_middle].
      apply (exact_app _ [t] (before ++ after) Hex). }
    destruct (stats_exact st Hex) as [Hd [Hc Hb]].
    destruct (stats_exact st' Hex') as [Hd' [Hc' Hb']].
    rewrite Hd, Hc, Hb, Hd', Hc', Hb'.
    pose proof (exact_zero_bound _ Hex) as Hbound.
    assert (Hwt : whole (Transaction.amount t)).
    { destruct Hex as [_ [Hw _]]. rewrite Forall_forall in Hw. now apply Hw. }
    unfold whole in Hwt. fold (amountZ t) in Hwt.
    assert (Hmag : magnitude (transactions st)
                   = magnitude (before ++ after) + Z.abs (amountZ t)).
    { rewrite Hsplit, !magnitude_app. cbn [magnitude]. lia. }
    assert (Htot : forall ty, totalZ ty (transactions st)
                              = totalZ ty (before ++ after) + totalZ ty [t]).
    { intros ty. rewrite Hsplit, !totalZ_app. cbn [app]. 
      change (t :: after) with ([t] ++ after). rewrite totalZ_app. lia. }
    pose proof (totals_bound (before ++ after)) as Htb.
    pose proof (netZ_bound (before ++ after)) as Hnb.
    pose proof (Htot CREDIT) as HC. pose proof (Htot DEBIT) as HD.
    unfold netZ in *. rewrite Hkept. cbn [totalZ] in HC, HD.
    rewrite Hwt.
    destruct (Transaction.type t).
    + split; [rewrite sub_Num by lia; f_equal; lia|].
      split; [f_equal; lia|].
      rewrite add_Num by lia. f_equal; lia.
    + split; [rewrite sub_Num by lia; f_equal; lia|].
      split; [f_equal; lia|].
      rewrite sub_Num by lia. f_equal; lia.
Qed.

Lemma stats_follow_changes_witness :
  DashboardStats.totalBalance
    (stats (handleAddTransaction "t4" "2024-01-05"
              (enterTx "2024-01-03" CREDIT "40" twoCustomers)))
  = Num 290
  /\ DashboardStats.totalDebit (stats (deleteTransaction "t2" true twoCustomers))
     = Num 50.
Proof.
  destruct (stats_follow_changes (enterTx "2024-01-03" CREDIT "40" twoCustomers))
    as [Hadd _].
  destruct (stats_follow_changes twoCustomers) as [_ Hdel].
  split.
  - destruct (Hadd "t4" "2024-01-05" "c1") as [[_ [_ Hbal]] _];
      [reflexivity | discriminate | discriminate |].
    rewrite Hbal; [vm_compute; reflexivity|].
    split; [reflexivity|]. split; [repeat constructor | vm_compute; reflexivity].
  - destruct (Hdel (Transaction.mk "t2" "c2" "2024-01-02" "" DEBIT (Num 200)))
      as [Hdebit _].
    + repeat constructor; simpl; intuition discriminate.
    + right; left; reflexivity.
    + split; [reflexivity|]. split; [repeat constructor | vm_compute; reflexivity].
    + cbn [Transaction.id] in Hdebit. rewrite Hdebit. vm_compute. reflexivity.
Defined.

(** ** Totals by customer and by day *)

Section SumByKey.
Variable key : Transaction.t -> string.
Variable ty : TransactionType.

Lemma totalZ_none (p : Transaction.t -> bool) (txs : list Transaction.t) :
  (forall t, In t txs -> p t = false) -> totalZ ty (filter p txs) = 0.
Proof. intros Hp. now rewrite filter_none. Qed.

Lemma totalZ_one_more_key (k : string) (ks : list string)
    (txs : list Transaction.t) :
  ~ In k ks ->
  totalZ ty (filter (fun t => existsb (String.eqb (key t)) (k :: ks)) txs)
  = totalZ ty (filter (fun t => String.eqb (key t) k) txs)
    + totalZ ty (filter (fun t => existsb (String.eqb (key t)) ks) txs).
Proof.
  intros Hfresh. induction txs as [|t txs IH]; [reflexivity|].
  cbn [filter existsb] in *.
  destruct (String.eqb_spec (key t) k) as [Heq|Hne]; cbn [orb].
  - assert (Hout : existsb (String.eqb (key t)) ks = false).
    { destruct (existsb (String.eqb (key t)) ks) eqn:Hex; [|reflexivity].
      apply existsb_exists in Hex. destruct Hex as [x [Hx Hkx]].
      apply String.eqb_eq in Hkx. exfalso. apply Hfresh. congruence. }
    rewrite Hout. cbn [totalZ].
    destruct (Transaction.type t), ty; rewrite IH; lia.
  - destruct (existsb (String.eqb (key t)) ks); cbn [totalZ]; [|exact IH].
    destruct (Transaction.type t), ty; rewrite IH; lia.
Qed.

(** Over keys that are all different, the sums per key add up to the sum
    over the transactions that have one of the keys. *)
Lemma totalZ_by_key (ks : list string) (txs : list Transaction.t) :
  NoDup ks ->
  sumOfZ (fun k => totalZ ty (filter (fun t => String.eqb (key t) k) txs)) ks
  = totalZ ty (filter (fun t => existsb (String.eqb (key t)) ks) txs).
Proof.
  induction 1 as [|k ks Hfresh _ IH].
  - cbn [sumOfZ fold_right]. symmetry. now apply totalZ_none.
  - rewrite totalZ_one_more_key by exact Hfresh.
    unfold sumOfZ in *. cbn [fold_right]. now rewrite IH.
Qed.

End SumByKey.

Lemma sumOfZ_map {A B : Type} (f : B -> Z) (g : A -> B) (l : list A) :
  sumOfZ f (map g l) = sumOfZ (fun a => f (g a)) l.
Proof.
  unfold sumOfZ. induction l as [|a l IH]; simpl; [reflexivity | now rewrite IH].
Qed.

Lemma sumOfZ_ext {A : Type} (f g : A -> Z) (l : list A) :
  (forall a, In a l -> f a = g a) -> sumOfZ f l = sumOfZ g l.
Proof.
  intros Hfg. unfold sumOfZ.
  induction l as [|a l IH]; simpl; [reflexivity|].
  rewrite Hfg by now left. rewrite IH; [reflexivity|].
  intros x Hx. apply Hfg. now right.
Qed.

Lemma filter_all {A : Type} (p : A -> bool) (l : list A) :
  (forall a, In a l -> p a = true) -> filter p l = l.
Proof.
  induction l as [|a l IH]; intros Hp; [reflexivity|]. cbn [filter].
  rewrite (Hp a (or_introl eq_refl)). f_equal. apply IH.
  intros x Hx. apply Hp. now right.
Qed.

Lemma reduce_filter_both (ty : TransactionType) (p : Transaction.t -> bool)
    (l : list Transaction.t) (acc : number) :
  reduce plusAmount acc (filter (fun t => p t && isType ty t) l)
  = sumFrom acc ty (filter p l).
Proof.
  unfold reduce. revert acc.
  induction l as [|t l IH]; intros acc; [reflexivity|]. cbn [filter].
  unfold isType at 1.
  destruct (p t); cbn [andb sumFrom];
    destruct (Transaction.type t), ty; cbn [typeEqb fold_left]; apply IH.
Qed.

Lemma ledgerTotal_sum (ty : TransactionType) (st : AppState) :
  ledgerTotal ty st
  = sumAmounts ty
      (filter (fun t => strictEq (Transaction.customerId t) (selectedCustomerId st))
         (transactions st)).
Proof. unfold ledgerTotal, sumAmounts. apply reduce_filter_both. Qed.

Lemma ledgerTotal_of (ty : TransactionType) (st : AppState) (cid : string) :
  ledgerTotal ty (setSelectedCustomerId (Some cid) st)
  = sumAmounts ty (transactionsOf cid (transactions st)).
Proof. rewrite ledgerTotal_sum. reflexivity. Qed.

Lemma toZ_sumAmounts (ty : TransactionType) (l : list Transaction.t) :
  exact (Num 0) l -> toZ (sumAmounts ty l) = totalZ ty l.
Proof.
  intros Hex. rewrite (sumAmounts_exact ty l Hex). apply toZ_Num.
  pose proof (exact_zero_bound l Hex). pose proof (totalZ_bound ty l). lia.
Qed.

(** X13. When customer ids are unique, every transaction carries the id
    of a stored customer, and the amounts are whole numbers that add up
    exactly, the totals of the dashboard are the totals above the
    customers' ledgers added up: [totalDebit] is the sum of the ledger
    debits over all customers and [totalCredit] the sum of the ledger
    credits. *)
Theorem totals_by_customer (st : AppState) :
  NoDup (map Customer.id (customers st)) ->
  (forall t, In t (transactions st) ->
             In (Transaction.customerId t) (map Customer.id (customers st))) ->
  exact (Num 0) (transactions st) ->
  (forall c ty,
      ledgerTotal ty (setSelectedCustomerId (Some (Customer.id c)) st)
      = Num (totalZ ty (transactionsOf (Customer.id c) (transactions st))))
  /\ DashboardStats.totalDebit (stats st)
     = Num (sumOfZ
              (fun c => toZ (ledgerDebits (setSelectedCustomerId (Some (Customer.id c)) st)))
              (customers st))
  /\ DashboardStats.totalCredit (stats st)
     = Num (sumOfZ
              (fun c => toZ (ledgerCredits (setSelectedCustomerId (Some (Customer.id c)) st)))
              (customers st)).
Proof.
  intros Hnd Hrefs Hex.
  assert (Hall : forall ty,
             totalZ ty (transactions st)
             = sumOfZ (fun c => toZ (ledgerTotal ty
                                       (setSelectedCustomerId (Some (Customer.id c)) st)))
                 (customers st)).
  { intros ty.
    rewrite (sumOfZ_ext _ (fun c => totalZ ty
                             (filter (fun t => String.eqb (Transaction.customerId t)
                                                 (Customer.id c))
                                (transactions st)))).
    - rewrite <- (sumOfZ_map
                    (fun k => totalZ ty
                                (filter (fun t => String.eqb (Transaction.customerId t) k)
                                   (transactions st)))
                    Customer.id).
      rewrite (totalZ_by_key Transaction.customerId ty _ _ Hnd).
      f_equal. symmetry. apply filter_all.
      intros t Ht. apply existsb_exists.
      exists (Transaction.customerId t).
      split; [now apply Hrefs | apply String.eqb_refl].
    - intros c _. rewrite ledgerTotal_of. apply toZ_sumAmounts.
      apply exact_filter, Hex. }
  split.
  - intros c ty. rewrite ledgerTotal_of. apply sumAmounts_exact.
    apply exact_filter, Hex.
  - destruct (stats_exact st Hex) as [-> [-> _]].
    unfold ledgerDebits, ledgerCredits. now rewrite <- !Hall.
Qed.

Lemma totals_by_customer_witness :
  DashboardStats.totalDebit (stats twoCustomers) = Num (50 + (200 + 0))
  /\ ledgerDebits twoCustomers = Num 50
  /\ ledgerDebits (setSelectedCustomerId (Some "c2") twoCustomers) = Num 200.
Proof.
  destruct (totals_by_customer twoCustomers) as [Hone [Hdebit _]].
  - repeat constructor; simpl; intuition discriminate.
  - intros t [<-|[<-|[<-|[]]]]; simpl; auto.
  - split; [reflexivity|]. split; [repeat constructor | vm_compute; reflexivity].
  - split; [rewrite Hdebit; vm_compute; reflexivity|].
    split.
    + apply (Hone (demoCustomer (Num 1000)) DEBIT).
    + apply (Hone (Customer.mk "c2" "co2" "Ravi" "" "" (Num 0)) DEBIT).
Defined.

Lemma sumAmounts_Permutation_exact (ty : TransactionType) (l l' : list Transaction.t) :
  Permutation l l' -> exact (Num 0) l -> sumAmounts ty l' = sumAmounts ty l.
Proof.
  intros Hp Hex.
  rewrite (sumAmounts_exact ty l Hex).
  rewrite (sumAmounts_exact ty l' (exact_Permutation _ _ _ Hp Hex)).
  f_equal. symmetry. now apply totalZ_Permutation.
Qed.

(** X14. While the amounts are whole numbers that add up exactly, the
    statistics, the totals above a ledger and the trend do not depend on
    the order in which the transactions are stored, and neither does the
    card balance of a customer whose opening balance is such a number
    too. *)
Theorem totals_ignore_insertion_order (st : AppState) (reordered : list Transaction.t) :
  Permutation (transactions st) reordered ->
  exact (Num 0) (transactions st) ->
  stats (setTransactions reordered st) = stats st
  /\ (forall c, exact (Customer.openingBalance c) (transactions st) ->
                bal reordered c = bal (transactions st) c)
  /\ ledgerDebits (setTransactions reordered st) = ledgerDebits st
  /\ ledgerCredits (setTransactions reordered st) = ledgerCredits st
  /\ (forall tz now, chartData tz now (setTransactions reordered st) = chartData tz now st).
Proof.
  intros Hperm Hex.
  assert (Hsum : forall ty p,
             sumAmounts ty (filter p reordered)
             = sumAmounts ty (filter p (transactions st))).
  { intros ty p. apply sumAmounts_Permutation_exact.
    - apply Permutation_filter, Hperm.
    - apply exact_filter, Hex. }
  assert (Hall : forall ty, sumAmounts ty reordered = sumAmounts ty (transactions st)).
  { intros ty. now apply sumAmounts_Permutation_exact. }
  split; [|split; [|split; [|split]]].
  - unfold stats. cbn [transactions companies customers setTransactions].
    rewrite !reduce_filter_sumAmounts. now rewrite !Hall.
  - intros c Hc. rewrite !bal_balanceOver.
    assert (Hmine : exact (Customer.openingBalance c)
                      (transactionsOf (Customer.id c) (transactions st)))
      by apply exact_filter, Hc.
    rewrite (balanceOver_exact _ _ Hmine).
    rewrite (balanceOver_exact _ (transactionsOf (Customer.id c) reordered)).
    + f_equal. f_equal. symmetry. apply netZ_Permutation, Permutation_filter, Hperm.
    + eapply exact_Permutation; [|exact Hmine]. apply Permutation_filter, Hperm.
  - unfold ledgerDebits. rewrite !ledgerTotal_sum. apply Hsum.
  - unfold ledgerCredits. rewrite !ledgerTotal_sum. apply Hsum.
  - intros tz now. unfold chartData.
    cbn [transactions setTransactions].
    apply map_ext. intros day. unfold chartPoint.
    rewrite !reduce_filter_sumAmounts. now rewrite !Hsum.
Qed.

Lemma totals_ignore_insertion_order_witness :
  stats (setTransactions (rev (transactions twoCustomers)) twoCustomers)
  = stats twoCustomers.
Proof.
  apply (totals_ignore_insertion_order twoCustomers (rev (transactions twoCustomers))).
  - apply Permutation_rev.
  - split; [reflexivity|]. split; [repeat constructor | vm_compute; reflexivity].
Defined.

(** On fractions the order shows: credits of 0.1, 0.2 and 0.3 total
    0.6000000000000001, and 0.6 when they are stored the other way
    round. *)
Example totals_of_fractions_follow_the_order :
  DashboardStats.totalCredit (stats (demoState (Num 0) tenths))
  = Number "0.6000000000000001"
  /\ DashboardStats.totalCredit (stats (demoState (Num 0) (rev tenths)))
     = Number "0.6".
Proof. split; vm_compute; reflexivity. Qed.

(** ** The ledger tab *)

(** X15. The totals above the ledger are the debits and the credits of
    the transactions carrying the selected id, added up in the order of
    the collection.  While the starting balance and these amounts are
    whole numbers that add up exactly, the totals account for the last
    row: the last running balance is the starting balance plus the ledger
    credits minus the ledger debits.  The table has one row for each
    transaction carrying the selected id, and the notice of the empty
    ledger shows exactly when the table has no row. *)
Theorem ledger_header (st : AppState) :
  let mine := filter (fun t => strictEq (Transaction.customerId t) (selectedCustomerId st))
                (transactions st) in
  ledgerDebits st = sumAmounts DEBIT mine
  /\ ledgerCredits st = sumAmounts CREDIT mine
  /\ (exact (startingBalance st) mine ->
      last (map snd (runningLedger st)) (startingBalance st)
      = sub (add (startingBalance st) (ledgerCredits st)) (ledgerDebits st)
      /\ last (map snd (runningLedger st)) (startingBalance st)
         = Num (toZ (startingBalance st) + totalZ CREDIT mine - totalZ DEBIT mine))
  /\ List.length (runningLedger st) = List.length mine
  /\ (ledgerIsEmpty st = true <-> runningLedger st = []).
Proof.
  intros mine.
  assert (Hlen : List.length (runningLedger st) = List.length mine).
  { unfold runningLedger, ledgerFiltered. rewrite length_mapRunning.
    apply Permutation_length, sort_Permutation. }
  unfold ledgerDebits, ledgerCredits. rewrite !ledgerTotal_sum. fold mine.
  split; [reflexivity|]. split; [reflexivity|].
  split; [|split; [exact Hlen|]].
  - intros Hex.
    assert (Hlast : last (map snd (runningLedger st)) (startingBalance st)
                    = Num (toZ (startingBalance st) + netZ mine)).
    { unfold runningLedger, ledgerFiltered. fold mine. rewrite last_mapRunning.
      pose proof (sort_Permutation byDate mine) as Hperm.
      pose proof (exact_Permutation _ _ _ (Permutation_sym Hperm) Hex) as Hex'.
      destruct Hex' as [Ho [Hw Hb]].
      transitivity (fold_left applyTx (sort byDate mine)
                      (Num (toZ (startingBalance st)))); [f_equal; exact Ho|].
      rewrite fold_applyTx_exact by assumption.
      f_equal. f_equal. apply netZ_Permutation, Hperm. }
    split.
    + rewrite Hlast. symmetry. apply (balanceOver_exact _ _ Hex).
    + rewrite Hlast. f_equal. unfold netZ. lia.
  - unfold ledgerIsEmpty. fold mine. rewrite <- Hlen, Nat.eqb_eq.
    destruct (runningLedger st); simpl; split; intros H; congruence.
Qed.

Lemma ledger_header_witness :
  last (map snd (runningLedger (demoState (Num 1000) scenarioA))) (Num 1000)
  = Num (1000 + 500 - 200)
  /\ ledgerCredits (demoState (Num 1000) scenarioA) = Num 500
  /\ ledgerDebits (demoState (Num 1000) scenarioA) = Num 200.
Proof.
  destruct (ledger_header (demoState (Num 1000) scenarioA))
    as [Hd [Hc [Hlast _]]].
  split; [|split; [rewrite Hc | rewrite Hd]; vm_compute; reflexivity].
  destruct Hlast as [_ Hlast].
  - split; [reflexivity|]. split; [repeat constructor | vm_compute; reflexivity].
  - exact Hlast.
Defined.

Lemma magnitude_firstn (n : nat) (l : list Transaction.t) :
  magnitude (firstn n l) <= magnitude l.
Proof.
  revert n. induction l as [|t l IH]; intros [|n]; cbn [firstn magnitude]; try lia.
  - pose proof (magnitude_nonneg l). lia.
  - specialize (IH n). lia.
Qed.

Lemma Forall_firstn {A : Type} (P : A -> Prop) (n : nat) (l : list A) :
  Forall P l -> Forall P (firstn n l).
Proof.
  intros H. revert n. induction H as [|a l Ha _ IH]; intros [|n]; cbn [firstn];
    constructor; auto.
Qed.

(** X16. A selection that no customer answers to does not stop the
    ledger: it lists the transactions that carry the selected id, and its
    balances start from zero, each being the one before with the amount of
    its row added (a CREDIT) or subtracted (a DEBIT).  On whole amounts
    that add up exactly each balance is the credits minus the debits of
    the rows so far. *)
Theorem ledger_of_unresolved (st : AppState) (cid : string) :
  selectedCustomerId st = Some cid ->
  currentCustomer st = None ->
  Permutation (map fst (runningLedger st)) (transactionsOf cid (transactions st))
  /\ startingBalance st = Num 0
  /\ map snd (runningLedger st) = balancesFrom (Num 0) (map fst (runningLedger st))
  /\ (exact (Num 0) (transactionsOf cid (transactions st)) ->
      forall n, (n < List.length (runningLedger st))%nat ->
        nth n (map snd (runningLedger st)) NaN
        = Num (netZ (firstn (S n) (map fst (runningLedger st))))).
Proof.
  intros Hsel Hnone. unfold runningLedger, startingBalance.
  rewrite Hnone, (ledgerFiltered_selected st cid Hsel), map_fst_mapRunning.
  split; [apply sort_Permutation|]. split; [reflexivity|].
  split; [apply map_snd_mapRunning|].
  intros Hex n Hn. rewrite length_mapRunning in Hn.
  rewrite nth_mapRunning by exact Hn.
  pose proof (sort_Permutation byDate (transactionsOf cid (transactions st))) as Hperm.
  pose proof (exact_Permutation _ _ _ (Permutation_sym Hperm) Hex) as Hex'.
  pose proof (exact_zero_bound _ Hex') as Hb.
  destruct Hex' as [_ [Hw _]].
  pose proof (magnitude_firstn (S n) (sort byDate (transactionsOf cid (transactions st)))).
  rewrite fold_applyTx_exact; [reflexivity | now apply Forall_firstn | cbn [Z.abs]; lia].
Qed.

Lemma ledger_of_unresolved_witness :
  Permutation
    (map fst (runningLedger (setTransactions scenarioA danglingState)))
    scenarioA
  /\ map snd (runningLedger (setTransactions scenarioA danglingState))
     = [Num 500; Num 300].
Proof.
  destruct (ledger_of_unresolved (setTransactions scenarioA danglingState) "c1")
    as [Hperm [_ [Hbal _]]]; [reflexivity | reflexivity |].
  split; [exact Hperm|]. rewrite Hbal. vm_compute. reflexivity.
Defined.

(** ** The recent activities *)

(** X17. The recent activities are the ten transactions added last, the
    latest first (all of them while there are no more than ten), each with
    the first customer that has its customer id, if any.  A transaction
    that is accepted is at the top right away. *)
Theorem recent_activities (st : AppState) :
  map fst (recentActivities st) = firstn 10 (rev (transactions st))
  /\ List.length (recentActivities st) = Nat.min 10 (List.length (transactions st))
  /\ (forall tx c, In (tx, c) (recentActivities st) ->
        In tx (transactions st)
        /\ c = find (fun x => String.eqb (Customer.id x) (Transaction.customerId tx))
                 (customers st))
  /\ (forall generateId today selected,
        selectedCustomerId st = Some selected ->
        selected <> EmptyString ->
        TxForm.amount (txForm st) <> EmptyString ->
        hd_error (map fst (recentActivities (handleAddTransaction generateId today st)))
        = Some (Transaction.mk generateId selected
                  (TxForm.date (txForm st)) (TxForm.desc (txForm st))
                  (TxForm.type (txForm st)) (Number (TxForm.amount (txForm st))))).
Proof.
  assert (Hfst : forall s, map fst (recentActivities s) = firstn 10 (rev (transactions s))).
  { intros s. unfold recentActivities, sliceLast.
    rewrite map_map. cbn [fst]. rewrite map_id. symmetry. apply firstn_rev. }
  split; [apply Hfst|]. split; [|split].
  - rewrite <- (length_map fst), Hfst, length_firstn, length_rev. reflexivity.
  - intros tx c Hin. unfold recentActivities in Hin.
    apply in_map_iff in Hin. destruct Hin as [x [Hx Hin]].
    inversion Hx. subst. split; [|reflexivity].
    apply in_rev in Hin. unfold sliceLast in Hin.
    rewrite <- (firstn_skipn (List.length (transactions st) - 10) (transactions st)).
    apply in_or_app. now right.
  - intros generateId today selected Hsel Hne Hamount.
    rewrite Hfst.
    rewrite (handleAddTransaction_accepts generateId today selected st Hsel Hne Hamount).
    cbn [transactions setIsTransactionModalOpen setTxForm setTransactions].
    rewrite rev_app_distr. reflexivity.
Qed.

Lemma recent_activities_witness :
  hd_error (map fst (recentActivities
                       (handleAddTransaction "t4" "2024-01-05"
                          (enterTx "2024-01-03" CREDIT "12.50" twoCustomers))))
  = Some (Transaction.mk "t4" "c1" "2024-01-03" "" CREDIT 12.5%float).
Proof.
  rewrite (proj2 (proj2 (proj2
             (recent_activities (enterTx "2024-01-03" CREDIT "12.50" twoCustomers))))
             "t4" "2024-01-05" "c1");
    [vm_compute; reflexivity | reflexivity | discriminate | discriminate].
Defined.

(** ** Date texts and calendar days *)

Lemma digitChar_digitVal (c : ascii) (v : Z) :
  digitVal c = Some v -> 0 <= v <= 9 /\ digitChar v = c.
Proof.
  unfold digitVal, digitChar.
  destruct (Z.leb_spec 48 (Z.of_N (N_of_ascii c))) as [Hlo|]; [|discriminate].
  destruct (Z.leb_spec (Z.of_N (N_of_ascii c)) 57) as [Hhi|]; [|discriminate].
  cbn [andb]. intros H. inversion H as [Hv]. split; [lia|].
  rewrite Z.mod_small by lia.
  replace (48 + (Z.of_N (N_of_ascii c) - 48)) with (Z.of_N (N_of_ascii c)) by lia.
  rewrite N2Z.id. apply ascii_N_embedding.
Qed.

Lemma digitChar_mod (x v : Z) : x mod 10 = v mod 10 -> digitChar x = digitChar v.
Proof. unfold digitChar. now intros ->. Qed.

(** A text that parses as a calendar date is the text that [toISOString]
    prints for its day. *)
Lemma isoDate_parseIsoDate (s : string) (day : Z) :
  parseIsoDate s = Some day -> isoDate day = s.
Proof.
  unfold parseIsoDate.
  destruct (parseCivil s) as [[[y m] d]|] eqn:Hp; [|discriminate].
  intros H. inversion H. subst day. clear H.
  pose proof (parseCivil_valid _ _ _ _ Hp) as Hv.
  unfold isoDate. rewrite (civilFromDays_makeDay _ _ _ Hv).
  rewrite <- (string_of_list_ascii_of_string s).
  unfold parseCivil, dateFields in Hp.
  destruct (list_ascii_of_string s)
    as [|y1 [|y2 [|y3 [|y4 [|s1 [|m1 [|m2 [|s2 [|d1 [|d2 [|]]]]]]]]]]];
    try discriminate.
  destruct (Ascii.eqb s1 "-") eqn:Hs1; [|discriminate].
  destruct (Ascii.eqb s2 "-") eqn:Hs2; [|discriminate].
  apply Ascii.eqb_eq in Hs1, Hs2. subst s1 s2.
  cbn [andb digitsVal] in Hp.
  destruct (digitVal y1) as [a1|] eqn:Hy1; [|discriminate].
  destruct (digitVal y2) as [a2|] eqn:Hy2; [|discriminate].
  destruct (digitVal y3) as [a3|] eqn:Hy3; [|discriminate].
  destruct (digitVal y4) as [a4|] eqn:Hy4; [|discriminate].
  destruct (digitVal m1) as [b1|] eqn:Hm1; [|discriminate].
  destruct (digitVal m2) as [b2|] eqn:Hm2; [|discriminate].
  destruct (digitVal d1) as [c1|] eqn:Hd1; [|discriminate].
  destruct (digitVal d2) as [c2|] eqn:Hd2; [|discriminate].
  remember (10 * (10 * (10 * (10 * 0 + a1) + a2) + a3) + a4) as y' eqn:Hy.
  remember (10 * (10 * 0 + b1) + b2) as m' eqn:Hm.
  remember (10 * (10 * 0 + c1) + c2) as d' eqn:Hd.
  destruct (validCivil y' m' d'); [|discriminate].
  injection Hp as Ey Em Ed. subst y' m' d'.
  apply digitChar_digitVal in Hy1, Hy2, Hy3, Hy4, Hm1, Hm2, Hd1, Hd2.
  destruct Hy1 as [? <-], Hy2 as [? <-], Hy3 as [? <-], Hy4 as [? <-],
           Hm1 as [? <-], Hm2 as [? <-], Hd1 as [? <-], Hd2 as [? <-].
  unfold yearString.
  replace ((0 <=? y) && (y <=? 9999)) with true
    by (symmetry; apply andb_true_iff; split; apply Z.leb_le; lia).
  cbn [padDigits append string_of_list_ascii].
  rewrite (digitChar_mod (y / 10 / 10 / 10) a1) by (Z.div_mod_to_equations; lia).
  rewrite (digitChar_mod (y / 10 / 10) a2) by (Z.div_mod_to_equations; lia).
  rewrite (digitChar_mod (y / 10) a3) by (Z.div_mod_to_equations; lia).
  rewrite (digitChar_mod y a4) by (Z.div_mod_to_equations; lia).
  rewrite (digitChar_mod (m / 10) b1) by (Z.div_mod_to_equations; lia).
  rewrite (digitChar_mod m b2) by (Z.div_mod_to_equations; lia).
  rewrite (digitChar_mod (d / 10) c1) by (Z.div_mod_to_equations; lia).
  rewrite (digitChar_mod d c2) by (Z.div_mod_to_equations; lia).
  reflexivity.
Qed.

(** When the printed date of a day parses at all, it parses to that day:
    a year outside 0..9999 prints in the expanded form, which is no
    [YYYY-MM-DD] text. *)
Lemma parseIsoDate_isoDate_inv (day parsed : Z) :
  parseIsoDate (isoDate day) = Some parsed -> parsed = day.
Proof.
  destruct ((0 <=? yearOf day) && (yearOf day <=? 9999)) eqn:Hrange.
  - apply andb_true_iff in Hrange. rewrite !Z.leb_le in Hrange.
    rewrite parseIsoDate_isoDate by exact Hrange. congruence.
  - unfold yearOf, isoDate, yearString in *.
    destruct (civilFromDays day) as [[y m] d]. rewrite Hrange.
    unfold parseIsoDate, parseCivil, dateFields.
    destruct (y <? 0); cbn [padDigits append list_ascii_of_string]; discriminate.
Qed.

Lemma datedOn_isoDate (t : Transaction.t) (day : Z) :
  hasIsoDate t -> (datedOn (isoDate day) t = true <-> dayOf t = day).
Proof.
  unfold hasIsoDate, datedOn, dayOf. intros Hiso.
  destruct (parseIsoDate (Transaction.date t)) as [x|] eqn:Hx; [|congruence].
  rewrite String.eqb_eq. split.
  - intros Heq. rewrite Heq in Hx. now apply parseIsoDate_isoDate_inv.
  - intros <-. symmetry. now apply isoDate_parseIsoDate.
Qed.

(** X18. For transactions with calendar dates, comparing the date texts,
    as the trend does, is comparing the calendar days: the date of such a
    transaction is the text printed for its day, it equals the text
    printed for a day exactly when that day is its own, and the
    transactions the trend picks for a day are the transactions of that
    day. *)
Theorem text_match_is_day_match (txs : list Transaction.t) (day : Z) :
  Forall hasIsoDate txs ->
  (forall t, In t txs ->
     isoDate (dayOf t) = Transaction.date t
     /\ (datedOn (isoDate day) t = true <-> dayOf t = day))
  /\ filter (datedOn (isoDate day)) txs = filter (onDay day) txs.
Proof.
  intros Hiso. rewrite Forall_forall in Hiso. split.
  - intros t Ht. split; [|apply datedOn_isoDate, Hiso, Ht].
    specialize (Hiso t Ht). unfold hasIsoDate, dayOf in *.
    destruct (parseIsoDate (Transaction.date t)) eqn:Hx; [|congruence].
    now apply isoDate_parseIsoDate.
  - apply filter_ext_in. intros t Ht.
    pose proof (datedOn_isoDate t day (Hiso t Ht)) as Hiff.
    unfold onDay. destruct (Z.eqb_spec (dayOf t) day) as [Heq|Hne].
    + now apply Hiff.
    + destruct (datedOn (isoDate day) t); [|reflexivity].
      exfalso. apply Hne. now apply Hiff.
Qed.

Lemma text_match_is_day_match_witness :
  filter (datedOn (isoDate day_2024_03_10)) scenarioA
  = filter (onDay day_2024_03_10) scenarioA.
Proof.
  apply (text_match_is_day_match scenarioA day_2024_03_10).
  repeat constructor; vm_compute; discriminate.
Defined.

(** ** The window of the trend *)

Lemma In_chartDays (offset now : Z) (day : string) :
  In day (chartDays (fixedZone offset) now)
  <-> exists k, (k < 7)%nat /\ day = isoDate (utcDay now - Z.of_nat k).
Proof.
  unfold chartDays. rewrite <- in_rev, in_map_iff. split.
  - intros [k [Hk Hin]]. apply in_seq in Hin. exists k. split; [lia|].
    rewrite toISODate_fixedZone in Hk. now symmetry.
  - intros [k [Hk ->]]. exists k.
    split; [apply toISODate_fixedZone | apply in_seq; lia].
Qed.

Lemma chartDays_NoDup (offset now : Z) :
  (forall k, (k < 7)%nat -> 0 <= yearOf (utcDay now - Z.of_nat k) <= 9999) ->
  NoDup (chartDays (fixedZone offset) now).
Proof.
  intros Hyears. unfold chartDays. apply NoDup_rev.
  rewrite (map_ext _ (fun i => isoDate (utcDay now - Z.of_nat i)))
    by (intros i; apply toISODate_fixedZone).
  assert (Hseq : forall start, (start <= 7)%nat ->
             NoDup (map (fun i => isoDate (utcDay now - Z.of_nat i))
                      (seq start (7 - start)))).
  { intros start. remember (7 - start)%nat as n eqn:Hn.
    revert start Hn. induction n as [|n IH]; intros start Hn Hle; [constructor|].
    cbn [seq map]. constructor.
    - intros Hin. apply in_map_iff in Hin. destruct Hin as [j [Hj Hin]].
      apply in_seq in Hin.
      assert (Hp : parseIsoDate (isoDate (utcDay now - Z.of_nat j))
                   = parseIsoDate (isoDate (utcDay now - Z.of_nat start)))
        by now rewrite Hj.
      rewrite !parseIsoDate_isoDate in Hp by (apply Hyears; lia).
      inversion Hp. lia.
    - apply IH; lia. }
  apply (Hseq 0%nat). lia.
Qed.



(** Where the offset changes within the window a transaction can be
    counted in two buckets: in New York on the evening of 10 March 2024 a
    credit of that date shows in the last two. *)
Example chart_counts_twice :
  map credit
    (chartData newYork dstEvening
       (demoState (Num 0)
          [Transaction.mk "t1" "c1" "2024-03-10" "" CREDIT (Num 500)]))
  = [Num 0; Num 0; Num 0; Num 0; Num 0; Num 500; Num 500].
Proof. vm_compute. reflexivity. Qed.

(** ** Opening balances *)


